(** * driftpy: [ClearingHouseUser], margin, collateral and leverage

    A shallow embedding of [src/driftpy/clearing_house_user.py].

    The class reads a user account, markets and oracle prices either from a
    cache filled by [set_cache] or by fetching them from the ledger on every
    call, and folds position values into account-level risk numbers.

    - Python coroutines run sequentially; a method is a computation over the
      pair (the object [self], the outside world), which may raise.
    - The modules [driftpy.types], [driftpy.constants.numeric_constants],
      [driftpy.math.*] and [driftpy.accounts] are imported by the file but are
      not part of it: their types, constants and functions are parameters
      (type classes [DriftTypes] and [DriftMath]); the ledger that
      [driftpy.accounts] reads is part of the world.
      The imported functions are taken as total functions without effects.
    - Python numbers ([int], and [float] as produced by [/]) are an abstract
      carrier [num] with the operations the file uses (class [PyNum]); the
      rationals [Q] are one instance, used to evaluate the code. *)

From Stdlib Require Import List ZArith QArith Bool Lia.
Import ListNotations.

(** ** Exceptions and results *)

(** The exceptions the module can raise.  The specification calls
    [AssertionError] (the cache guard) [NotReady], [NotImplementedError]
    [UnsupportedOption], and a failed fetch [DataUnavailable]. *)
Inductive exception : Type :=
| AssertionError
| NotImplementedError
| ZeroDivisionError
| IndexError
| KeyError
| AttributeError
| DataUnavailable.

Inductive result (A : Type) : Type :=
| Ok (a : A)
| Err (e : exception).

Arguments Ok {A} a.
Arguments Err {A} e.

Definition is_ok {A} (r : result A) : bool :=
  match r with Ok _ => true | Err _ => false end.

(** ** Python numbers *)

(** The operations of Python's numbers that the module applies to amounts,
    prices, weights and ratios.  [truediv] is [/] on a non-zero divisor. *)
Class PyNum (num : Type) : Type := {
  of_Z : Z -> num;
  add : num -> num -> num;
  sub : num -> num -> num;
  mul : num -> num -> num;
  truediv : num -> num -> num;
  py_abs : num -> num;
  eqb : num -> num -> bool;
  ltb : num -> num -> bool;
  leb : num -> num -> bool
}.

Declare Scope py_scope.
Delimit Scope py_scope with py.
Infix "+" := add : py_scope.
Infix "-" := sub : py_scope.
Infix "*" := mul : py_scope.
Infix "==" := eqb (at level 70, no associativity) : py_scope.
Infix "<?" := ltb : py_scope.
Infix "<=?" := leb : py_scope.

(** [max(a, b)] of Python: the first argument unless the second is greater. *)
Definition py_max {num} `{PyNum num} (a b : num) : num :=
  if ltb a b then b else a.

(** The laws of numbers that the proofs below rely on. *)
Class PyNumLaws (num : Type) `{PyNum num} : Prop := {
  add_zero_r : forall x, add x (of_Z 0) = x;
  ltb_irrefl : forall x, ltb x x = false;
  ltb_asym : forall x y, ltb x y = true -> ltb y x = false;
  ltb_leb : forall x y, ltb x y = true -> leb x y = true;
  leb_refl : forall x, leb x x = true;
  leb_trans : forall x y z, leb x y = true -> leb y z = true -> leb x z = true;
  add_le_mono : forall a b c d,
    leb a b = true -> leb c d = true -> leb (add a c) (add b d) = true;
  mul_le_mono_nonneg_l : forall a b c,
    leb (of_Z 0) a = true -> leb b c = true -> leb (mul a b) (mul a c) = true;
  mul_nonneg : forall a b,
    leb (of_Z 0) a = true -> leb (of_Z 0) b = true -> leb (of_Z 0) (mul a b) = true;
  truediv_le_mono_pos : forall a b p,
    ltb (of_Z 0) p = true -> leb a b = true -> leb (truediv a p) (truediv b p) = true;
  truediv_nonneg : forall a p,
    ltb (of_Z 0) p = true -> leb (of_Z 0) a = true -> leb (of_Z 0) (truediv a p) = true;
  abs_nonneg : forall a, leb (of_Z 0) (py_abs a) = true
}.

(** ** driftpy.types *)

Inductive MarginCategory : Type := INITIAL | MAINTENANCE.

Inductive SpotBalanceType : Type := Deposit | Borrow.

(** [margin_category == MarginCategory.INITIAL] on an optional category. *)
Definition is_initial (margin_category : option MarginCategory) : bool :=
  match margin_category with
  | Some INITIAL => true
  | _ => false
  end.

(** [str(balance_type) == "SpotBalanceType.Borrow()"] and the same for
    [Deposit]: the comparison of the printed variant is the comparison of
    the variant. *)
Definition is_borrow (b : SpotBalanceType) : bool :=
  match b with Borrow => true | Deposit => false end.

Definition is_deposit (b : SpotBalanceType) : bool :=
  match b with Deposit => true | Borrow => false end.

(** A public key, read as a number. *)
Definition PublicKey : Type := N.

(** The account types of [driftpy.types] that the module only reads through
    a few attributes, and the attributes it reads. *)
Class DriftTypes (num : Type) : Type := {
  SpotMarket : Type;
  PerpMarket : Type;
  OraclePriceData : Type;
  SpotPosition : Type;
  ScaledBalance : Type;
  PerpPositionRest : Type;
  (* spot_market.market_index, spot_market.oracle *)
  spot_market_index : SpotMarket -> nat;
  spot_market_oracle : SpotMarket -> PublicKey;
  (* perp_market.market_index, perp_market.amm.oracle *)
  perp_market_index : PerpMarket -> nat;
  amm_oracle : PerpMarket -> PublicKey;
  (* oracle_data.price *)
  price : OraclePriceData -> num;
  (* position.market_index, position.scaled_balance, position.balance_type *)
  spot_position_market_index : SpotPosition -> nat;
  scaled_balance : SpotPosition -> ScaledBalance;
  balance_type : SpotPosition -> SpotBalanceType
}.

(** A perpetual position: the attributes the module reads, and the rest of
    the account entry (open orders, quote amounts, funding) kept opaque. *)
Record PerpPosition {num} `{DriftTypes num} : Type := {
  market_index : nat;
  base_asset_amount : num;
  lp_shares : num;
  perp_rest : PerpPositionRest
}.

Arguments PerpPosition num {_}.

(** The state account. *)
Record State {num : Type} : Type := {
  number_of_spot_markets : nat;
  number_of_markets : nat;
  liquidation_margin_buffer_ratio : num
}.

Arguments State num : clear implicits.

(** The user account. *)
Record User {num} `{DriftTypes num} : Type := {
  spot_positions : list SpotPosition;
  perp_positions : list (PerpPosition num);
  max_margin_ratio : num;
  being_liquidated : bool
}.

Arguments User num {_}.

(** What [get_spot_oracle_data] can return: [set_cache] stores the integer
    [1] for spot market 0 and the oracle's data for every other market. *)
Inductive SpotOracle {num} `{DriftTypes num} : Type :=
| OracleOne
| OracleData (o : OraclePriceData).

Arguments SpotOracle num {_}.

(** ** driftpy.constants.numeric_constants and driftpy.math *)

Class DriftMath (num : Type) `{DriftTypes num} : Type := {
  QUOTE_ASSET_BANK_INDEX : nat;
  SPOT_WEIGHT_PRECISION : num;
  MARGIN_PRECISION : num;
  AMM_TO_QUOTE_PRECISION_RATIO : num;
  PRICE_PRECISION : num;
  is_spot_position_available : SpotPosition -> bool;
  get_token_amount : ScaledBalance -> SpotMarket -> SpotBalanceType -> num;
  get_spot_asset_value :
    num -> SpotOracle num -> SpotMarket -> option MarginCategory -> num;
  get_spot_liability_value :
    num -> SpotOracle num -> SpotMarket -> option MarginCategory ->
    option num -> num -> num;
  get_worst_case_token_amounts :
    SpotPosition -> SpotMarket -> SpotOracle num -> num * num;
  calculate_worst_case_base_asset_amount : PerpPosition num -> num;
  calculate_market_margin_ratio : PerpMarket -> num -> MarginCategory -> num;
  calculate_position_pnl :
    PerpMarket -> PerpPosition num -> OraclePriceData -> bool -> num
}.

(** ** The ledger, the object and the world *)

Section Engine.

Context {num : Type} {PN : PyNum num} {DT : DriftTypes num} {DM : DriftMath num}.

Local Open Scope py_scope.

(** One state of the external ledger: what each fetch of [driftpy.accounts]
    answers ([None] when the fetch fails). *)
Record Ledger : Type := {
  state_account : option (State num);
  spot_market_account : nat -> option SpotMarket;
  perp_market_account : nat -> option PerpMarket;
  oracle_data : PublicKey -> option OraclePriceData;
  user_account : PublicKey -> nat -> option (User num)
}.

Inductive Request : Type :=
| FetchState
| FetchSpotMarket (i : nat)
| FetchPerpMarket (i : nat)
| FetchOracle (oracle : PublicKey)
| FetchUser (authority : PublicKey) (subaccount_id : nat).

(** The world outside the object: the ledger changes under the client, so the
    [n]-th fetch is answered by the ledger state [ledger_at n]; [fetches]
    records the requests made so far. *)
Record World : Type := {
  ledger_at : nat -> Ledger;
  fetches : list Request
}.

(** The dictionary [self.CACHE]: a key is present once [set_cache] has
    assigned it. *)
Record Cache : Type := {
  cache_state : option (State num);
  cache_spot_markets : option (list SpotMarket);
  cache_spot_market_oracles : option (list (SpotOracle num));
  cache_perp_markets : option (list PerpMarket);
  cache_perp_market_oracles : option (list OraclePriceData);
  cache_user : option (User num)
}.

Definition empty_cache : Cache :=
  {| cache_state := None; cache_spot_markets := None;
     cache_spot_market_oracles := None; cache_perp_markets := None;
     cache_perp_market_oracles := None; cache_user := None |}.

(** The attributes of a [ClearingHouseUser]; [CACHE] does not exist before
    [set_cache] creates it. *)
Record ClearingHouseUser : Type := {
  authority : PublicKey;
  subaccount_id : nat;
  use_cache : bool;
  cache_is_set : bool;
  CACHE : option Cache
}.

(** The [ClearingHouse] handed to the constructor. *)
Record ClearingHouse : Type := {
  clearing_house_authority : PublicKey
}.

Definition init (clearing_house : ClearingHouse)
  (authority : option PublicKey) (subaccount_id : nat) (use_cache : bool)
  : ClearingHouseUser :=
  {| authority := match authority with
                  | Some a => a
                  | None => clearing_house_authority clearing_house
                  end;
     subaccount_id := subaccount_id;
     use_cache := use_cache;
     cache_is_set := false;
     CACHE := None |}.

Record Sys : Type := {
  self : ClearingHouseUser;
  world : World
}.

(** ** Computations *)

Definition M (A : Type) : Type := Sys -> result A * Sys.

Definition ret {A} (a : A) : M A := fun s => (Ok a, s).

Definition raise {A} (e : exception) : M A := fun s => (Err e, s).

Definition bind {A B} (m : M A) (k : A -> M B) : M B :=
  fun s =>
    match m s with
    | (Ok a, s') => k a s'
    | (Err e, s') => (Err e, s')
    end.

Notation "x <- m ;; k" := (bind m (fun x => k))
  (at level 100, m at next level, right associativity).
Notation "' p <- m ;; k" := (bind m (fun x => let p := x in k))
  (at level 100, p pattern, m at next level, right associativity).
Notation "m ;;; k" := (bind m (fun _ => k))
  (at level 100, right associativity).

(** [for x in l: ...] with the loop's running values as accumulator;
    [continue] is [ret] of the accumulator. *)
Fixpoint for_each {A B} (l : list A) (acc : B) (body : B -> A -> M B) : M B :=
  match l with
  | [] => ret acc
  | x :: l' => acc' <- body acc x ;; for_each l' acc' body
  end.

(** [a / b]. *)
Definition py_div (a b : num) : M num :=
  if b == of_Z 0 then raise ZeroDivisionError else ret (truediv a b).

(** [l[i]] for a list and a non-negative index. *)
Definition py_index {A} (l : list A) (i : nat) : M A :=
  match nth_error l i with
  | Some a => ret a
  | None => raise IndexError
  end.

(** [self.CACHE[key]]. *)
Definition cache_get {A} (key : Cache -> option A) : M A :=
  fun s =>
    match CACHE (self s) with
    | None => (Err AttributeError, s)
    | Some c =>
        match key c with
        | Some a => (Ok a, s)
        | None => (Err KeyError, s)
        end
    end.

(** [assert self.cache_is_set, ...]. *)
Definition assert_cache_is_set : M unit :=
  fun s => if cache_is_set (self s) then (Ok tt, s) else (Err AssertionError, s).

(** A fetch from the ledger: it is recorded, and answered by the ledger
    state of the moment. *)
Definition fetch {A} (q : Request) (answer : Ledger -> option A) : M A :=
  fun s =>
    let w := world s in
    let s' := {| self := self s;
                 world := {| ledger_at := ledger_at w;
                             fetches := fetches w ++ [q] |} |} in
    match answer (ledger_at w (length (fetches w))) with
    | Some a => (Ok a, s')
    | None => (Err DataUnavailable, s')
    end.

(** driftpy.accounts *)
Definition get_state_account : M (State num) :=
  fetch FetchState state_account.

Definition get_spot_market_account (i : nat) : M SpotMarket :=
  fetch (FetchSpotMarket i) (fun L => spot_market_account L i).

Definition get_perp_market_account (i : nat) : M PerpMarket :=
  fetch (FetchPerpMarket i) (fun L => perp_market_account L i).

Definition get_oracle_data (oracle : PublicKey) : M OraclePriceData :=
  fetch (FetchOracle oracle) (fun L => oracle_data L oracle).

Definition get_user_account (authority : PublicKey) (subaccount_id : nat)
  : M (User num) :=
  fetch (FetchUser authority subaccount_id)
        (fun L => user_account L authority subaccount_id).

(** ** Attribute reads and writes on [self] *)

Definition self_use_cache : M bool :=
  fun s => (Ok (use_cache (self s)), s).

Definition self_authority : M PublicKey :=
  fun s => (Ok (authority (self s)), s).

Definition self_subaccount_id : M nat :=
  fun s => (Ok (subaccount_id (self s)), s).

Definition with_cache_is_set (b : bool) (o : ClearingHouseUser)
  : ClearingHouseUser :=
  {| authority := authority o; subaccount_id := subaccount_id o;
     use_cache := use_cache o; cache_is_set := b; CACHE := CACHE o |}.

Definition with_CACHE (c : option Cache) (o : ClearingHouseUser)
  : ClearingHouseUser :=
  {| authority := authority o; subaccount_id := subaccount_id o;
     use_cache := use_cache o; cache_is_set := cache_is_set o; CACHE := c |}.

Definition update_self (f : ClearingHouseUser -> ClearingHouseUser) : M unit :=
  fun s => (Ok tt, {| self := f (self s); world := world s |}).

(** [self.CACHE[key] = value], as an update of the dictionary. *)
Definition cache_put (f : Cache -> Cache) : M unit :=
  fun s =>
    match CACHE (self s) with
    | None => (Err AttributeError, s)
    | Some c =>
        (Ok tt, {| self := with_CACHE (Some (f c)) (self s); world := world s |})
    end.

Definition put_state (v : State num) (c : Cache) : Cache :=
  {| cache_state := Some v; cache_spot_markets := cache_spot_markets c;
     cache_spot_market_oracles := cache_spot_market_oracles c;
     cache_perp_markets := cache_perp_markets c;
     cache_perp_market_oracles := cache_perp_market_oracles c;
     cache_user := cache_user c |}.

Definition put_spot_markets (v : list SpotMarket) (c : Cache) : Cache :=
  {| cache_state := cache_state c; cache_spot_markets := Some v;
     cache_spot_market_oracles := cache_spot_market_oracles c;
     cache_perp_markets := cache_perp_markets c;
     cache_perp_market_oracles := cache_perp_market_oracles c;
     cache_user := cache_user c |}.

Definition put_spot_market_oracles (v : list (SpotOracle num)) (c : Cache)
  : Cache :=
  {| cache_state := cache_state c; cache_spot_markets := cache_spot_markets c;
     cache_spot_market_oracles := Some v;
     cache_perp_markets := cache_perp_markets c;
     cache_perp_market_oracles := cache_perp_market_oracles c;
     cache_user := cache_user c |}.

Definition put_perp_markets (v : list PerpMarket) (c : Cache) : Cache :=
  {| cache_state := cache_state c; cache_spot_markets := cache_spot_markets c;
     cache_spot_market_oracles := cache_spot_market_oracles c;
     cache_perp_markets := Some v;
     cache_perp_market_oracles := cache_perp_market_oracles c;
     cache_user := cache_user c |}.

Definition put_perp_market_oracles (v : list OraclePriceData) (c : Cache)
  : Cache :=
  {| cache_state := cache_state c; cache_spot_markets := cache_spot_markets c;
     cache_spot_market_oracles := cache_spot_market_oracles c;
     cache_perp_markets := cache_perp_markets c;
     cache_perp_market_oracles := Some v;
     cache_user := cache_user c |}.

Definition put_user (v : User num) (c : Cache) : Cache :=
  {| cache_state := cache_state c; cache_spot_markets := cache_spot_markets c;
     cache_spot_market_oracles := cache_spot_market_oracles c;
     cache_perp_markets := cache_perp_markets c;
     cache_perp_market_oracles := cache_perp_market_oracles c;
     cache_user := Some v |}.

(** ** ClearingHouseUser.set_cache *)

Definition set_cache : M unit :=
  update_self (with_cache_is_set true) ;;;
  update_self (with_CACHE (Some empty_cache)) ;;;
  state <- get_state_account ;;
  cache_put (put_state state) ;;;
  ' (spot_markets, spot_market_oracle_data) <-
    for_each (seq 0 (number_of_spot_markets state)) ([], [])
      (fun '(spot_markets, spot_market_oracle_data) i =>
         spot_market <- get_spot_market_account i ;;
         let spot_markets := spot_markets ++ [spot_market] in
         if Nat.eqb i 0 then
           ret (spot_markets, spot_market_oracle_data ++ [OracleOne])
         else
           oracle_data <- get_oracle_data (spot_market_oracle spot_market) ;;
           ret (spot_markets,
                spot_market_oracle_data ++ [OracleData oracle_data])) ;;
  cache_put (put_spot_markets spot_markets) ;;;
  cache_put (put_spot_market_oracles spot_market_oracle_data) ;;;
  ' (perp_markets, perp_market_oracle_data) <-
    for_each (seq 0 (number_of_markets state)) ([], [])
      (fun '(perp_markets, perp_market_oracle_data) i =>
         perp_market <- get_perp_market_account i ;;
         let perp_markets := perp_markets ++ [perp_market] in
         oracle_data <- get_oracle_data (amm_oracle perp_market) ;;
         ret (perp_markets, perp_market_oracle_data ++ [oracle_data])) ;;
  cache_put (put_perp_markets perp_markets) ;;;
  cache_put (put_perp_market_oracles perp_market_oracle_data) ;;;
  authority <- self_authority ;;
  subaccount_id <- self_subaccount_id ;;
  user <- get_user_account authority subaccount_id ;;
  cache_put (put_user user).

(** ** The accessors *)

Definition get_spot_oracle_data (spot_market : SpotMarket)
  : M (SpotOracle num) :=
  cached <- self_use_cache ;;
  if cached then
    assert_cache_is_set ;;;
    oracles <- cache_get cache_spot_market_oracles ;;
    py_index oracles (spot_market_index spot_market)
  else
    oracle_data <- get_oracle_data (spot_market_oracle spot_market) ;;
    ret (OracleData oracle_data).

Definition get_perp_oracle_data (perp_market : PerpMarket)
  : M OraclePriceData :=
  cached <- self_use_cache ;;
  if cached then
    assert_cache_is_set ;;;
    oracles <- cache_get cache_perp_market_oracles ;;
    py_index oracles (perp_market_index perp_market)
  else
    oracle_data <- get_oracle_data (amm_oracle perp_market) ;;
    ret oracle_data.

Definition get_state : M (State num) :=
  cached <- self_use_cache ;;
  if cached then
    assert_cache_is_set ;;;
    cache_get cache_state
  else
    get_state_account.

Definition get_spot_market (i : nat) : M SpotMarket :=
  cached <- self_use_cache ;;
  if cached then
    assert_cache_is_set ;;;
    markets <- cache_get cache_spot_markets ;;
    py_index markets i
  else
    get_spot_market_account i.

Definition get_perp_market (i : nat) : M PerpMarket :=
  cached <- self_use_cache ;;
  if cached then
    assert_cache_is_set ;;;
    markets <- cache_get cache_perp_markets ;;
    py_index markets i
  else
    get_perp_market_account i.

Definition get_user : M (User num) :=
  cached <- self_use_cache ;;
  if cached then
    assert_cache_is_set ;;;
    cache_get cache_user
  else
    authority <- self_authority ;;
    subaccount_id <- self_subaccount_id ;;
    get_user_account authority subaccount_id.

(** ** The risk aggregator *)

(** [market_index is not None and position.market_index != market_index] *)
Definition other_market (only_market_index : option nat) (i : nat) : bool :=
  match only_market_index with
  | Some m => negb (Nat.eqb i m)
  | None => false
  end.

(** The weight of a quote liability: [SPOT_WEIGHT_PRECISION], raised to the
    user's [max_margin_ratio] under [INITIAL]. *)
Definition quote_weight (margin_category : option MarginCategory)
  (user : User num) : num :=
  let weight := SPOT_WEIGHT_PRECISION in
  if is_initial margin_category
  then py_max weight (max_margin_ratio user)
  else weight.

(** [include_open_orders] is only tested for truth: its default [None]
    is [false] here. *)
Definition get_spot_market_liability (only_market_index : option nat)
  (margin_category : option MarginCategory) (liquidation_buffer : option num)
  (include_open_orders : bool) : M num :=
  user <- get_user ;;
  for_each (spot_positions user) (of_Z 0) (fun total_liability position =>
    if is_spot_position_available position
       || other_market only_market_index (spot_position_market_index position)
    then ret total_liability
    else
      spot_market <- get_spot_market (spot_position_market_index position) ;;
      if Nat.eqb (spot_position_market_index position) QUOTE_ASSET_BANK_INDEX
      then
        if is_borrow (balance_type position) then
          let token_amount :=
            get_token_amount (scaled_balance position) spot_market
                             (balance_type position) in
          let weight := quote_weight margin_category user in
          value <- py_div (token_amount * weight) SPOT_WEIGHT_PRECISION ;;
          ret (total_liability + value)
        else ret total_liability
      else
        oracle_data <- get_spot_oracle_data spot_market ;;
        if negb include_open_orders then
          if is_borrow (balance_type position) then
            let token_amount :=
              get_token_amount (scaled_balance position) spot_market
                               (balance_type position) in
            let liability_value :=
              get_spot_liability_value token_amount oracle_data spot_market
                margin_category liquidation_buffer (max_margin_ratio user) in
            ret (total_liability + liability_value)
          else ret total_liability
        else
          let '(worst_case_token_amount, worst_case_quote_amount) :=
            get_worst_case_token_amounts position spot_market oracle_data in
          let total_liability :=
            if worst_case_token_amount <? of_Z 0 then
              let baa_value :=
                get_spot_liability_value (py_abs worst_case_token_amount)
                  oracle_data spot_market margin_category liquidation_buffer
                  (max_margin_ratio user) in
              total_liability + baa_value
            else total_liability in
          if worst_case_quote_amount <? of_Z 0 then
            let weight := quote_weight margin_category user in
            weighted_value <-
              py_div (py_abs worst_case_quote_amount * weight)
                     SPOT_WEIGHT_PRECISION ;;
            ret (total_liability + weighted_value)
          else ret total_liability).

Definition get_total_perp_positon (margin_category : option MarginCategory)
  (liquidation_buffer : option num) (include_open_orders : bool) : M num :=
  user <- get_user ;;
  for_each (perp_positions user) (of_Z 0) (fun unrealized_pnl position =>
    market <- get_perp_market (market_index position) ;;
    (if of_Z 0 <? lp_shares position then ret tt else ret tt) ;;;
    oracle_data <- get_perp_oracle_data market ;;
    let price := price oracle_data in
    let base_asset_amount :=
      if include_open_orders
      then calculate_worst_case_base_asset_amount position
      else base_asset_amount position in
    base_value <-
      py_div (py_abs base_asset_amount * price)
             (AMM_TO_QUOTE_PRECISION_RATIO * PRICE_PRECISION) ;;
    base_value <-
      match margin_category with
      | Some category =>
          let margin_ratio :=
            calculate_market_margin_ratio market (py_abs base_asset_amount)
                                          category in
          let margin_ratio :=
            if is_initial margin_category
            then py_max margin_ratio (max_margin_ratio user)
            else margin_ratio in
          let margin_ratio :=
            match liquidation_buffer with
            | Some buffer => margin_ratio + buffer
            | None => margin_ratio
            end in
          py_div (base_value * margin_ratio) MARGIN_PRECISION
      | None => ret base_value
      end ;;
    ret (unrealized_pnl + base_value)).

(** The two coroutines are created first and awaited in this order. *)
Definition get_margin_requirement (margin_category : option MarginCategory)
  (liquidation_buffer : option num) : M num :=
  perp_liability <-
    get_total_perp_positon margin_category liquidation_buffer true ;;
  spot_liability <-
    get_spot_market_liability None margin_category liquidation_buffer true ;;
  ret (perp_liability + spot_liability).

Definition get_unrealized_pnl (with_funding : bool)
  (only_market_index : option nat)
  (with_weight_margin_category : option MarginCategory) : M num :=
  user <- get_user ;;
  for_each (perp_positions user) (of_Z 0) (fun unrealized_pnl position =>
    if other_market only_market_index (market_index position)
    then ret unrealized_pnl
    else
      market <- get_perp_market (market_index position) ;;
      oracle_data <- get_perp_oracle_data market ;;
      let position_unrealized_pnl :=
        calculate_position_pnl market position oracle_data with_funding in
      match with_weight_margin_category with
      | Some _ => raise NotImplementedError
      | None => ret (unrealized_pnl + position_unrealized_pnl)
      end).

Definition get_spot_market_asset_value
  (margin_category : option MarginCategory) (include_open_orders : bool)
  (only_market_index : option nat) : M num :=
  user <- get_user ;;
  for_each (spot_positions user) (of_Z 0) (fun total_value position =>
    if is_spot_position_available position
       || other_market only_market_index (spot_position_market_index position)
    then ret total_value
    else
      spot_market <- get_spot_market (spot_position_market_index position) ;;
      if Nat.eqb (spot_position_market_index position) QUOTE_ASSET_BANK_INDEX
      then
        let spot_token_value :=
          get_token_amount (scaled_balance position) spot_market
                           (balance_type position) in
        ret (total_value + spot_token_value)
      else
        oracle_data <- get_spot_oracle_data spot_market ;;
        if negb include_open_orders then
          if is_deposit (balance_type position) then
            let token_amount :=
              get_token_amount (scaled_balance position) spot_market
                               (balance_type position) in
            let asset_value :=
              get_spot_asset_value token_amount oracle_data spot_market
                                   margin_category in
            ret (total_value + asset_value)
          else ret total_value
        else
          let '(worst_case_token_amount, worst_case_quote_amount) :=
            get_worst_case_token_amounts position spot_market oracle_data in
          let total_value :=
            if of_Z 0 <? worst_case_token_amount then
              let baa_value :=
                get_spot_asset_value worst_case_token_amount oracle_data
                                     spot_market margin_category in
              total_value + baa_value
            else total_value in
          if of_Z 0 <? worst_case_quote_amount
          then ret (total_value + worst_case_quote_amount)
          else ret total_value).

Definition get_total_collateral (margin_category : option MarginCategory)
  : M num :=
  spot_collateral <- get_spot_market_asset_value margin_category true None ;;
  pnl <- get_unrealized_pnl true None margin_category ;;
  let total_collatearl := spot_collateral + pnl in
  ret total_collatearl.

Definition get_free_collateral : M num :=
  total_collateral <- get_total_collateral None ;;
  init_margin_req <- get_margin_requirement (Some INITIAL) (Some (of_Z 0)) ;;
  let free_collateral := total_collateral - init_margin_req in
  let free_collateral := py_max (of_Z 0) free_collateral in
  ret free_collateral.

Definition can_be_liquidated : M bool :=
  total_collateral <- get_total_collateral None ;;
  user <- get_user ;;
  liquidation_buffer <-
    (if being_liquidated user then
       state <- get_state ;;
       ret (Some (liquidation_margin_buffer_ratio state))
     else ret None) ;;
  maintenance_req <-
    get_margin_requirement (Some MAINTENANCE) liquidation_buffer ;;
  ret (total_collateral <? maintenance_req).

Definition get_leverage (margin_category : option MarginCategory) : M num :=
  total_liability <- get_margin_requirement margin_category None ;;
  total_asset_value <- get_total_collateral margin_category ;;
  if (total_asset_value == of_Z 0) || (total_liability == of_Z 0)
  then ret (of_Z 0)
  else
    leverage <- py_div (total_liability * of_Z 10000) total_asset_value ;;
    ret leverage.

(** ** Predicates on computations *)

(** Two outcomes agree up to [R]: the same final system, and either two
    results related by [R] or the same exception. *)
Definition rel_run {A B} (R : A -> B -> Prop)
  (x : result A * Sys) (y : result B * Sys) : Prop :=
  snd x = snd y /\
  match fst x, fst y with
  | Ok a, Ok b => R a b
  | Err e, Err e' => e = e'
  | _, _ => False
  end.

Definition rel_M {A B} (R : A -> B -> Prop) (m1 : M A) (m2 : M B) : Prop :=
  forall s, rel_run R (m1 s) (m2 s).

(** In cached mode the computation leaves the object and the world as they
    are, and its result is determined by the object alone. *)
Definition cached_pure {A} (m : M A) : Prop :=
  forall o, use_cache o = true ->
    exists r, forall w,
      m {| self := o; world := w |} = (r, {| self := o; world := w |}).

(** The computation does not change the mode of the object. *)
Definition keeps_mode {A} (m : M A) : Prop :=
  forall s, use_cache (self (snd (m s))) = use_cache (self s).

(** The order of two margin values: the first is at most the second. *)
Definition at_most (x y : num) : Prop := leb x y = true.

(** ** The specification's formulas

    Each follows the specification's words for one operation of the risk
    aggregator, over the operations of the code it names; they are compared
    with the methods above. *)

(** "total_collateral(margin_category?) ->
    spot_market_asset_value(margin_category, include_open_orders=true)
    + unrealized_pnl(with_funding=true)". *)
Definition spec_total_collateral (margin_category : option MarginCategory)
  : M num :=
  spot <- get_spot_market_asset_value margin_category true None ;;
  pnl <- get_unrealized_pnl true None None ;;
  ret (spot + pnl).

(** "leverage(margin_category?) -> margin_requirement(margin_category) * 10000
    / total_collateral(margin_category); defined as 0 when either operand is
    0", with the default [liquidation_buffer = 0] of [margin_requirement] and
    the specification's [total_collateral], the sum above. *)
Definition spec_leverage (margin_category : option MarginCategory) : M num :=
  requirement <- get_margin_requirement margin_category (Some (of_Z 0)) ;;
  collateral <- spec_total_collateral margin_category ;;
  ret (if (requirement == of_Z 0) || (collateral == of_Z 0)
       then of_Z 0
       else truediv (requirement * of_Z 10000) collateral).

(** "free_collateral() ->
    max(0, total_collateral() - margin_requirement(Initial))". *)
Definition spec_free_collateral : M num :=
  collateral <- get_total_collateral None ;;
  requirement <- get_margin_requirement (Some INITIAL) (Some (of_Z 0)) ;;
  ret (if of_Z 0 <? collateral - requirement
       then collateral - requirement
       else of_Z 0).

(** The buffer of [can_be_liquidated]: "the account's being_liquidated
    flag gated global liquidation-margin-buffer-ratio (0 otherwise)". *)
Definition spec_liquidation_buffer (user : User num) : M num :=
  if being_liquidated user then
    state <- get_state ;;
    ret (liquidation_margin_buffer_ratio state)
  else ret (of_Z 0).

(** "can_be_liquidated() ->
    total_collateral() < margin_requirement(Maintenance, buffer)". *)
Definition spec_can_be_liquidated : M bool :=
  collateral <- get_total_collateral None ;;
  user <- get_user ;;
  buffer <- spec_liquidation_buffer user ;;
  requirement <- get_margin_requirement (Some MAINTENANCE) (Some buffer) ;;
  ret (collateral <? requirement).

(** ** Relations between accounts and assumptions on the imported functions *)

(** Two positions that differ at most in [lp_shares]. *)
Definition same_but_lp_shares (p p' : PerpPosition num) : Prop :=
  market_index p = market_index p' /\
  base_asset_amount p = base_asset_amount p' /\
  perp_rest p = perp_rest p'.

Definition with_lp_shares (shares : num) (p : PerpPosition num)
  : PerpPosition num :=
  {| market_index := market_index p;
     base_asset_amount := base_asset_amount p;
     lp_shares := shares;
     perp_rest := perp_rest p |}.

(** The [i]-th element of a list replaced. *)
Fixpoint update_nth {A} (i : nat) (f : A -> A) (l : list A) : list A :=
  match l, i with
  | [], _ => []
  | x :: l', O => f x :: l'
  | x :: l', S i' => x :: update_nth i' f l'
  end.

(** The account [user] with the [lp_shares] of its [i]-th perpetual position
    set to [shares], and nothing else changed. *)
Definition user_with_lp_shares (i : nat) (shares : num) (user : User num)
  : User num :=
  {| spot_positions := spot_positions user;
     perp_positions := update_nth i (with_lp_shares shares)
                                  (perp_positions user);
     max_margin_ratio := max_margin_ratio user;
     being_liquidated := being_liquidated user |}.

(** The cache, a ledger and the system in which every copy of the account
    has the [lp_shares] of its [i]-th perpetual position set to [shares]. *)
Definition cache_with_lp_shares (i : nat) (shares : num) (c : Cache) : Cache :=
  {| cache_state := cache_state c; cache_spot_markets := cache_spot_markets c;
     cache_spot_market_oracles := cache_spot_market_oracles c;
     cache_perp_markets := cache_perp_markets c;
     cache_perp_market_oracles := cache_perp_market_oracles c;
     cache_user := option_map (user_with_lp_shares i shares) (cache_user c) |}.

Definition ledger_with_lp_shares (i : nat) (shares : num) (L : Ledger)
  : Ledger :=
  {| state_account := state_account L;
     spot_market_account := spot_market_account L;
     perp_market_account := perp_market_account L;
     oracle_data := oracle_data L;
     user_account := fun a n =>
       option_map (user_with_lp_shares i shares) (user_account L a n) |}.

Definition sys_with_lp_shares (i : nat) (shares : num) (s : Sys) : Sys :=
  {| self :=
       with_CACHE (option_map (cache_with_lp_shares i shares) (CACHE (self s)))
                  (self s);
     world :=
       {| ledger_at := fun n =>
            ledger_with_lp_shares i shares (ledger_at (world s) n);
          fetches := fetches (world s) |} |}.

(** Two outcomes, the second in the system with the [lp_shares] replaced. *)
Definition sim_run (i : nat) (shares : num) {A B} (R : A -> B -> Prop)
  (x : result A * Sys) (y : result B * Sys) : Prop :=
  snd y = sys_with_lp_shares i shares (snd x) /\
  match fst x, fst y with
  | Ok a, Ok b => R a b
  | Err e, Err e' => e = e'
  | _, _ => False
  end.

Definition sim (i : nat) (shares : num) {A B} (R : A -> B -> Prop)
  (m1 : M A) (m2 : M B) : Prop :=
  forall s, sim_run i shares R (m1 s) (m2 (sys_with_lp_shares i shares s)).

(** [calculate_worst_case_base_asset_amount] reads the base amount and the
    open orders of a position, not its liquidity-provider shares. *)
Definition worst_case_ignores_lp_shares : Prop :=
  forall p p', same_but_lp_shares p p' ->
    calculate_worst_case_base_asset_amount p
    = calculate_worst_case_base_asset_amount p'.

(** [get_spot_liability_value] adds the liquidation buffer to the weight, so
    that a buffer of 0 and no buffer give the same value. *)
Definition buffer_is_additive : Prop :=
  forall token_amount oracle spot_market margin_category ratio,
    get_spot_liability_value token_amount oracle spot_market margin_category
                             (Some (of_Z 0)) ratio
    = get_spot_liability_value token_amount oracle spot_market
                               margin_category None ratio.

(** The floors of [INITIAL] are at least those of [MAINTENANCE], pointwise:
    the margin ratio of every perpetual market at every size, and the value
    of every non-negative spot liability. *)
Definition initial_at_least_maintenance : Prop :=
  (forall market size,
      leb (calculate_market_margin_ratio market size MAINTENANCE)
          (calculate_market_margin_ratio market size INITIAL) = true) /\
  (forall token_amount oracle spot_market buffer ratio,
      leb (of_Z 0) token_amount = true ->
      leb (get_spot_liability_value token_amount oracle spot_market
                                    (Some MAINTENANCE) buffer ratio)
          (get_spot_liability_value token_amount oracle spot_market
                                    (Some INITIAL) buffer ratio) = true).

(** The invariants of the data model: prices and token amounts are not
    negative, and the precision constants are positive. *)
Definition data_model_invariants : Prop :=
  (forall oracle, leb (of_Z 0) (price oracle) = true) /\
  (forall balance spot_market direction,
      leb (of_Z 0) (get_token_amount balance spot_market direction) = true) /\
  ltb (of_Z 0) SPOT_WEIGHT_PRECISION = true /\
  ltb (of_Z 0) MARGIN_PRECISION = true /\
  ltb (of_Z 0) (AMM_TO_QUOTE_PRECISION_RATIO * PRICE_PRECISION) = true.

End Engine.

(** ** The position lookups and the module's [find] *)

(** [find(l, f)]: the first value of [l] that [f] accepts, if any. *)
Definition find {A} (l : list A) (f : A -> bool) : option A :=
  let valid_values := filter f l in
  match valid_values with
  | [] => None
  | v :: _ => Some v
  end.

(** The loop [for position in l: if test(position): found = True; break]:
    the flag [found] and the loop variable [position] when the loop is left
    ([position] is unbound, [None], if [l] is empty). *)
Fixpoint scan {A} (test : A -> bool) (l : list A) (position : option A)
  : bool * option A :=
  match l with
  | [] => (false, position)
  | x :: l' => if test x then (true, Some x) else scan test l' (Some x)
  end.

Section Lookups.

Context {num : Type} {PN : PyNum num} {DT : DriftTypes num}
        {DM : DriftMath num}.

(** [is_available] of [driftpy.math.positions]: whether a perpetual position
    is an unused entry. *)
Variable is_available : PerpPosition num -> bool.

Definition get_user_spot_position (market_index : nat)
  : M (option SpotPosition) :=
  bind get_user (fun user =>
  let '(found, position) :=
    scan (fun position =>
            Nat.eqb (spot_position_market_index position) market_index
            && negb (is_spot_position_available position))
         (spot_positions user) None in
  if negb found then ret None else ret position).

Definition get_user_position (only_market_index : nat)
  : M (option (PerpPosition num)) :=
  bind get_user (fun user =>
  let '(found, position) :=
    scan (fun position =>
            Nat.eqb (market_index position) only_market_index
            && negb (is_available position))
         (perp_positions user) None in
  if negb found then ret None else ret position).

End Lookups.

(** ** More predicates on computations *)

Section Frames.

Context {num : Type} {PN : PyNum num} {DT : DriftTypes num}
        {DM : DriftMath num}.

(** The computation leaves the object and the ledger as they are, and only
    adds to the requests made. *)
Definition read_only {A} (m : M A) : Prop :=
  forall s,
    self (snd (m s)) = self s /\
    ledger_at (world (snd (m s))) = ledger_at (world s) /\
    exists requests,
      fetches (world (snd (m s))) = fetches (world s) ++ requests.

(** Every value that the computation returns satisfies [P]. *)
Definition returns {A} (P : A -> Prop) (m : M A) : Prop :=
  forall s v s', m s = (Ok v, s') -> P v.

(** The system in which every copy of the user account, in the cache and on
    the ledger, is replaced by its image under [f]. *)
Definition cache_with_user (f : User num -> User num) (c : Cache) : Cache :=
  {| cache_state := cache_state c; cache_spot_markets := cache_spot_markets c;
     cache_spot_market_oracles := cache_spot_market_oracles c;
     cache_perp_markets := cache_perp_markets c;
     cache_perp_market_oracles := cache_perp_market_oracles c;
     cache_user := option_map f (cache_user c) |}.

Definition ledger_with_user (f : User num -> User num) (L : Ledger) : Ledger :=
  {| state_account := state_account L;
     spot_market_account := spot_market_account L;
     perp_market_account := perp_market_account L;
     oracle_data := oracle_data L;
     user_account := fun a n => option_map f (user_account L a n) |}.

Definition sys_with_user (f : User num -> User num) (s : Sys) : Sys :=
  {| self :=
       with_CACHE (option_map (cache_with_user f) (CACHE (self s))) (self s);
     world :=
       {| ledger_at := fun n => ledger_with_user f (ledger_at (world s) n);
          fetches := fetches (world s) |} |}.

(** The system in which the object's cache is replaced. *)
Definition sys_with_cache (is_set : bool) (cache : option Cache) (s : Sys)
  : Sys :=
  {| self := with_CACHE cache (with_cache_is_set is_set (self s));
     world := world s |}.

(** Two outcomes, the second in the system transformed by [T]; [I] is a
    condition on the first system that the run keeps. *)
Definition tsim_run (T : Sys -> Sys) (I : Sys -> Prop) {A B}
  (R : A -> B -> Prop) (x : result A * Sys) (y : result B * Sys) : Prop :=
  I (snd x) /\
  snd y = T (snd x) /\
  match fst x, fst y with
  | Ok a, Ok b => R a b
  | Err e, Err e' => e = e'
  | _, _ => False
  end.

Definition tsim (T : Sys -> Sys) (I : Sys -> Prop) {A B}
  (R : A -> B -> Prop) (m1 : M A) (m2 : M B) : Prop :=
  forall s, I s -> tsim_run T I R (m1 s) (m2 (T s)).

(** The account without its available spot positions. *)
Definition without_available_spot_positions (user : User num) : User num :=
  {| spot_positions :=
       filter (fun p => negb (is_spot_position_available p))
              (spot_positions user);
     perp_positions := perp_positions user;
     max_margin_ratio := max_margin_ratio user;
     being_liquidated := being_liquidated user |}.

(** The account with its perpetual positions in market [i] only. *)
Definition only_perp_market (i : nat) (user : User num) : User num :=
  {| spot_positions := spot_positions user;
     perp_positions :=
       filter (fun p => Nat.eqb (market_index p) i) (perp_positions user);
     max_margin_ratio := max_margin_ratio user;
     being_liquidated := being_liquidated user |}.

(** The ledger does not change. *)
Definition steady (L : Ledger) (s : Sys) : Prop :=
  forall n, ledger_at (world s) n = L.

(** A triple for a computation: from a system that satisfies [P], a returned
    value and the system then satisfy [Q], and the system after an exception
    satisfies [E]. *)
Definition hoare (P : Sys -> Prop) {A} (m : M A) (Q : A -> Sys -> Prop)
  (E : Sys -> Prop) : Prop :=
  forall s, P s ->
    match m s with
    | (Ok a, s') => Q a s'
    | (Err _, s') => E s'
    end.

(** Every state that the ledger takes satisfies [P]. *)
Definition seen (P : Ledger -> Prop) (s : Sys) : Prop :=
  forall n, P (ledger_at (world s) n).

(** During [set_cache] on the object [o0]: the guard flag is set, the cache
    is the dictionary [c], and nothing else of the object has changed. *)
Definition refreshing (P : Ledger -> Prop) (o0 : ClearingHouseUser) (c : Cache)
  (s : Sys) : Prop :=
  self s = with_CACHE (Some c) (with_cache_is_set true o0) /\ seen P s.

(** A refresh that has failed: the guard flag is set and the cache has no
    user. *)
Definition refresh_failed (P : Ledger -> Prop) (o0 : ClearingHouseUser)
  (s : Sys) : Prop :=
  exists c, refreshing P o0 c s /\ cache_user c = None.

(** The first [i] spot markets and their oracle entries as fetched: the
    [k]-th market is an answer of the ledger for index [k]; the entry of
    market 0 is the constant 1 and every other entry is an answer of the
    ledger for the market's oracle. *)
Definition spot_rows (P : Ledger -> Prop) (markets : list SpotMarket)
  (oracles : list (SpotOracle num)) (i : nat) : Prop :=
  length markets = i /\ length oracles = i /\
  forall k, (k < i)%nat ->
    exists m, nth_error markets k = Some m /\
      (exists L, P L /\ spot_market_account L k = Some m) /\
      match k with
      | O => nth_error oracles k = Some OracleOne
      | S _ => exists o L, P L /\
                 oracle_data L (spot_market_oracle m) = Some o /\
                 nth_error oracles k = Some (OracleData o)
      end.

(** The first [i] perpetual markets and their oracle data as fetched. *)
Definition perp_rows (P : Ledger -> Prop) (markets : list PerpMarket)
  (oracles : list OraclePriceData) (i : nat) : Prop :=
  length markets = i /\ length oracles = i /\
  forall k, (k < i)%nat ->
    exists m o, nth_error markets k = Some m /\
      (exists L, P L /\ perp_market_account L k = Some m) /\
      nth_error oracles k = Some o /\
      (exists L, P L /\ oracle_data L (amm_oracle m) = Some o).

(** What a successful [set_cache] on [o0] leaves: the guard flag set and a
    cache with the six keys, filled with answers of the ledger. *)
Definition refreshed_from (P : Ledger -> Prop) (o0 : ClearingHouseUser)
  (s : Sys) : Prop :=
  exists state spot_markets spot_oracles perp_markets perp_oracles user,
    refreshing P o0
      {| cache_state := Some state;
         cache_spot_markets := Some spot_markets;
         cache_spot_market_oracles := Some spot_oracles;
         cache_perp_markets := Some perp_markets;
         cache_perp_market_oracles := Some perp_oracles;
         cache_user := Some user |} s /\
    (exists L, P L /\ state_account L = Some state) /\
    spot_rows P spot_markets spot_oracles (number_of_spot_markets state) /\
    perp_rows P perp_markets perp_oracles (number_of_markets state) /\
    (exists L, P L /\
       user_account L (authority o0) (subaccount_id o0) = Some user).

(** A value that is not negative, and a liquidation buffer that is absent or
    not negative. *)
Definition nonneg (v : num) : Prop := leb (of_Z 0) v = true.

Definition buffer_nonneg (buffer : option num) : Prop :=
  match buffer with Some b => leb (of_Z 0) b = true | None => True end.

(** Laws of numbers beyond [PyNumLaws], for the properties that compare a
    difference with 0. *)
Definition order_laws : Prop :=
  eqb (of_Z 0) (of_Z 0) = true /\
  (forall c m : num, ltb (of_Z 0) (sub c m) = true -> ltb m c = true) /\
  (forall a b c : num, leb a b = true -> ltb b c = true -> ltb c a = false).

(** The imported valuation functions return no negative value: margin
    ratios, spot liabilities of a non-negative amount with a non-negative
    buffer, and spot asset values of a non-negative amount. *)
Definition values_nonnegative : Prop :=
  (forall market size category,
      leb (of_Z 0) (calculate_market_margin_ratio market size category)
      = true) /\
  (forall amount oracle market category buffer ratio,
      leb (of_Z 0) amount = true ->
      match buffer with Some b => leb (of_Z 0) b = true | None => True end ->
      leb (of_Z 0)
          (get_spot_liability_value amount oracle market category buffer ratio)
      = true) /\
  (forall amount oracle market category,
      leb (of_Z 0) amount = true ->
      leb (of_Z 0) (get_spot_asset_value amount oracle market category)
      = true).

(** Laws of the number 0, for the accounts that hold nothing: a sum of
    zeros, a product with a zero, a zero divided and the absolute value of a
    zero are zero, and no zero is below another. *)
Definition zero_laws : Prop :=
  eqb (of_Z 0) (of_Z 0) = true /\
  (forall a b : num, eqb a (of_Z 0) = true -> eqb b (of_Z 0) = true ->
                     eqb (add a b) (of_Z 0) = true) /\
  (forall a b : num, eqb a (of_Z 0) = true -> eqb (mul a b) (of_Z 0) = true) /\
  (forall a p : num, eqb a (of_Z 0) = true ->
                     eqb (truediv a p) (of_Z 0) = true) /\
  (forall a : num, eqb a (of_Z 0) = true -> eqb (py_abs a) (of_Z 0) = true) /\
  (forall a b : num, eqb a (of_Z 0) = true -> eqb b (of_Z 0) = true ->
                     ltb a b = false).

(** A perpetual entry that holds nothing: its base amount with the open
    orders filled is 0, and so is its pnl in every market at every price. *)
Definition perp_position_unused (p : PerpPosition num) : Prop :=
  eqb (calculate_worst_case_base_asset_amount p) (of_Z 0) = true /\
  forall market oracle funding,
    eqb (calculate_position_pnl market p oracle funding) (of_Z 0) = true.

(** An account that holds nothing.  Its entries are there, in any number:
    every spot entry is available and every perpetual entry is unused. *)
Definition holds_nothing (user : User num) : Prop :=
  Forall (fun p => is_spot_position_available p = true)
         (spot_positions user) /\
  Forall perp_position_unused (perp_positions user).

(** In [s], the market of every perpetual entry of the account and the
    oracle of that market are read without a change of [s]. *)
Definition perp_markets_readable (user : User num) (s : Sys) : Prop :=
  Forall (fun p => exists market oracle,
            get_perp_market (market_index p) s = (Ok market, s) /\
            get_perp_oracle_data market s = (Ok oracle, s))
         (perp_positions user).

End Frames.

(** ** Rational numbers as Python numbers *)

#[export] Instance Q_PyNum : PyNum Q := {
  of_Z := inject_Z;
  add := Qplus;
  sub := Qminus;
  mul := Qmult;
  truediv := Qdiv;
  py_abs := fun x => Z.abs (Qnum x) # Qden x;
  eqb := Qeq_bool;
  ltb := fun x y => negb (Qle_bool y x);
  leb := Qle_bool
}.

(** ** A sample of the imported modules

    The account types, constants and valuation functions that
    [clearing_house_user.py] imports, in one concrete form over [Q], used to
    run the methods on concrete accounts.  The fields that the data model
    bounds carry their bound: balances, interest indices, prices and weights
    are unsigned, and a market's [INITIAL] floors are at least its
    [MAINTENANCE] floors. *)

Module Sample.

Record spot_market : Type := {
  sm_market_index : nat;
  sm_oracle : PublicKey;
  decimals : nat;
  cumulative_deposit_interest : N;
  cumulative_borrow_interest : N;
  maintenance_asset_weight : N;
  initial_asset_weight : N;
  maintenance_liability_weight : N;
  initial_liability_weight : N;
  liability_weights_ordered :
    N.leb maintenance_liability_weight initial_liability_weight = true
}.

Record perp_market : Type := {
  pm_market_index : nat;
  pm_amm_oracle : PublicKey;
  margin_ratio_maintenance : N;
  margin_ratio_initial : N;
  margin_ratios_ordered :
    N.leb margin_ratio_maintenance margin_ratio_initial = true
}.

Record oracle_price_data : Type := {
  oracle_price : N;
  confidence : N;
  slot : N
}.

Record spot_position : Type := {
  sp_market_index : nat;
  sp_scaled_balance : N;
  sp_balance_type : SpotBalanceType;
  sp_open_bids : N;
  sp_open_asks : N
}.

Record perp_position_rest : Type := {
  quote_asset_amount : Z;
  open_bids : N;
  open_asks : N;
  unsettled_funding : Z
}.

#[global] Instance types : DriftTypes Q := {
  SpotMarket := spot_market;
  PerpMarket := perp_market;
  OraclePriceData := oracle_price_data;
  SpotPosition := spot_position;
  ScaledBalance := N;
  PerpPositionRest := perp_position_rest;
  spot_market_index := sm_market_index;
  spot_market_oracle := sm_oracle;
  perp_market_index := pm_market_index;
  amm_oracle := pm_amm_oracle;
  price := fun o => inject_Z (Z.of_N (oracle_price o));
  spot_position_market_index := sp_market_index;
  scaled_balance := sp_scaled_balance;
  balance_type := sp_balance_type
}.

Definition of_N (n : N) : Q := inject_Z (Z.of_N n).

Definition weight_precision : Q := 10000.

Definition margin_precision : Q := 10000.

Definition amm_to_quote_precision_ratio : Q := 1000.

Definition price_precision : Q := 1000000.

(** Modelled from the spec: [is_spot_position_available] of
    [driftpy.math.spot_market]; "a position with zero scaled balance and no
    open orders is available". *)
Definition spot_position_available (p : spot_position) : bool :=
  N.eqb (sp_scaled_balance p) 0 && N.eqb (sp_open_bids p) 0
  && N.eqb (sp_open_asks p) 0.

(** Modelled from the spec: [get_token_amount] of
    [driftpy.math.spot_market]; the scaled balance times the market's
    cumulative interest index of the direction, brought to token precision
    and truncated. *)
Definition token_amount (balance : N) (m : spot_market)
  (direction : SpotBalanceType) : Q :=
  let interest :=
    match direction with
    | Deposit => cumulative_deposit_interest m
    | Borrow => cumulative_borrow_interest m
    end in
  of_N (balance * interest / N.pow 10 (N.of_nat (19 - decimals m))).

Definition spot_price (o : SpotOracle Q) : Q :=
  match o with
  | OracleOne => 1
  | OracleData d => of_N (oracle_price d)
  end.

(** The value of a token amount at the oracle's price, in quote precision. *)
Definition token_value (amount : Q) (o : SpotOracle Q) (m : spot_market) : Q :=
  amount * spot_price o / of_N (N.pow 10 (N.of_nat (decimals m))).

(** Modelled from the spec: [get_spot_asset_value] of [driftpy.math.margin];
    "token_amount * oracle.price * asset_weight / WEIGHT_PRECISION", without
    a weight when no margin category is given. *)
Definition spot_asset_value (amount : Q) (o : SpotOracle Q) (m : spot_market)
  (margin_category : option MarginCategory) : Q :=
  let value := token_value amount o m in
  match margin_category with
  | None => value
  | Some INITIAL => value * of_N (initial_asset_weight m) / weight_precision
  | Some MAINTENANCE =>
      value * of_N (maintenance_asset_weight m) / weight_precision
  end.

(** Modelled from the spec: [get_spot_liability_value] of
    [driftpy.math.margin]; "token_amount * oracle.price * liability_weight /
    WEIGHT_PRECISION, where liability_weight starts at the market's base
    weight, is raised to at least max_margin_ratio_override when
    margin_category = Initial, and is additively increased by
    liquidation_buffer". *)
Definition spot_liability_value (amount : Q) (o : SpotOracle Q)
  (m : spot_market) (margin_category : option MarginCategory)
  (liquidation_buffer : option Q) (max_margin_ratio : Q) : Q :=
  let value := token_value amount o m in
  match margin_category with
  | None => value
  | Some category =>
      let weight :=
        match category with
        | INITIAL =>
            py_max (of_N (initial_liability_weight m)) max_margin_ratio
        | MAINTENANCE => of_N (maintenance_liability_weight m)
        end in
      let weight :=
        match liquidation_buffer with
        | Some buffer => weight + buffer
        | None => weight
        end in
      value * weight / weight_precision
  end.

(** Modelled from the spec: [get_worst_case_token_amounts] of
    [driftpy.math.spot_market]; the signed token amount with all bids filled
    or with all asks filled, whichever is larger in absolute value, and the
    quote amount paid or received for that fill. *)
Definition worst_case_token_amounts (p : spot_position) (m : spot_market)
  (o : SpotOracle Q) : Q * Q :=
  let amount := token_amount (sp_scaled_balance p) m (sp_balance_type p) in
  let signed :=
    match sp_balance_type p with
    | Deposit => amount
    | Borrow => - amount
    end in
  let all_bids := signed + of_N (sp_open_bids p) in
  let all_asks := signed - of_N (sp_open_asks p) in
  if ltb (py_abs all_bids) (py_abs all_asks)
  then (all_asks, token_value (of_N (sp_open_asks p)) o m)
  else (all_bids, - token_value (of_N (sp_open_bids p)) o m).

(** Modelled from the spec: [calculate_worst_case_base_asset_amount] of
    [driftpy.math.positions]; "the signed base-asset amount extended by
    whichever side of resting open orders (long or short) would produce the
    larger absolute exposure". *)
Definition worst_case_base_asset_amount (p : PerpPosition Q) : Q :=
  let all_bids := base_asset_amount p + of_N (open_bids (perp_rest p)) in
  let all_asks := base_asset_amount p - of_N (open_asks (perp_rest p)) in
  if ltb (py_abs all_asks) (py_abs all_bids) then all_bids else all_asks.

(** Modelled from the spec: [calculate_market_margin_ratio] of
    [driftpy.math.margin]; the market's margin ratio of the category (one
    tier for every size). *)
Definition market_margin_ratio (m : perp_market) (size : Q)
  (category : MarginCategory) : Q :=
  match category with
  | INITIAL => of_N (margin_ratio_initial m)
  | MAINTENANCE => of_N (margin_ratio_maintenance m)
  end.

(** Modelled from the spec: [calculate_position_pnl] of
    [driftpy.math.positions]; the value of the base amount at the oracle
    price plus the quote amount of the position, with the funding accrued
    since the last settlement when asked for. *)
Definition position_pnl (m : perp_market) (p : PerpPosition Q)
  (o : oracle_price_data) (with_funding : bool) : Q :=
  let value :=
    base_asset_amount p * of_N (oracle_price o)
    / (amm_to_quote_precision_ratio * price_precision) in
  let pnl := value + inject_Z (quote_asset_amount (perp_rest p)) in
  if with_funding
  then pnl + inject_Z (unsettled_funding (perp_rest p))
  else pnl.

#[global] Instance math : DriftMath Q := {
  QUOTE_ASSET_BANK_INDEX := 0%nat;
  SPOT_WEIGHT_PRECISION := weight_precision;
  MARGIN_PRECISION := margin_precision;
  AMM_TO_QUOTE_PRECISION_RATIO := amm_to_quote_precision_ratio;
  PRICE_PRECISION := price_precision;
  is_spot_position_available := spot_position_available;
  get_token_amount := token_amount;
  get_spot_asset_value := spot_asset_value;
  get_spot_liability_value := spot_liability_value;
  get_worst_case_token_amounts := worst_case_token_amounts;
  calculate_worst_case_base_asset_amount := worst_case_base_asset_amount;
  calculate_market_margin_ratio := market_margin_ratio;
  calculate_position_pnl := position_pnl
}.

(** *** Markets and prices *)

Definition sol_oracle_key : PublicKey := 11%N.

Definition usdc : spot_market :=
  {| sm_market_index := 0; sm_oracle := 10%N; decimals := 6;
     cumulative_deposit_interest := 10000000000;
     cumulative_borrow_interest := 10000000000;
     maintenance_asset_weight := 10000; initial_asset_weight := 10000;
     maintenance_liability_weight := 10000;
     initial_liability_weight := 10000;
     liability_weights_ordered := eq_refl |}.

Definition sol : spot_market :=
  {| sm_market_index := 1; sm_oracle := sol_oracle_key; decimals := 9;
     cumulative_deposit_interest := 10000000000;
     cumulative_borrow_interest := 10000000000;
     maintenance_asset_weight := 9000; initial_asset_weight := 8000;
     maintenance_liability_weight := 11000;
     initial_liability_weight := 12000;
     liability_weights_ordered := eq_refl |}.

Definition sol_perp : perp_market :=
  {| pm_market_index := 0; pm_amm_oracle := sol_oracle_key;
     margin_ratio_maintenance := 500; margin_ratio_initial := 1000;
     margin_ratios_ordered := eq_refl |}.

(** SOL at 100 dollars. *)
Definition sol_price : oracle_price_data :=
  {| oracle_price := 100000000; confidence := 0; slot := 1 |}.

(** SOL at 80 dollars. *)
Definition sol_price_later : oracle_price_data :=
  {| oracle_price := 80000000; confidence := 0; slot := 2 |}.

Definition sample_state : State Q :=
  {| number_of_spot_markets := 2; number_of_markets := 1;
     liquidation_margin_buffer_ratio := 200 |}.

(** *** Accounts *)

(** A deposit of 1000 USDC. *)
Definition usdc_deposit : spot_position :=
  {| sp_market_index := 0; sp_scaled_balance := 1000000000000;
     sp_balance_type := Deposit; sp_open_bids := 0; sp_open_asks := 0 |}.

(** A borrow of 250 USDC. *)
Definition usdc_borrow : spot_position :=
  {| sp_market_index := 0; sp_scaled_balance := 250000000000;
     sp_balance_type := Borrow; sp_open_bids := 0; sp_open_asks := 0 |}.

(** A borrow of 2 SOL. *)
Definition sol_borrow : spot_position :=
  {| sp_market_index := 1; sp_scaled_balance := 2000000000;
     sp_balance_type := Borrow; sp_open_bids := 0; sp_open_asks := 0 |}.

(** 5 SOL long in perpetual market 0, entered at 100 dollars. *)
Definition sol_long (shares : Q) : PerpPosition Q :=
  {| market_index := 0; base_asset_amount := 5000000000;
     lp_shares := shares;
     perp_rest := {| quote_asset_amount := (-500000000)%Z; open_bids := 0;
                     open_asks := 0; unsettled_funding := 0 |} |}.

Definition no_positions : User Q :=
  {| spot_positions := []; perp_positions := [];
     max_margin_ratio := 0; being_liquidated := false |}.

Definition trader : User Q :=
  {| spot_positions := [usdc_deposit; sol_borrow];
     perp_positions := [sol_long 0];
     max_margin_ratio := 0; being_liquidated := false |}.

Definition liquidated_trader : User Q :=
  {| spot_positions := [usdc_deposit; sol_borrow];
     perp_positions := [sol_long 0];
     max_margin_ratio := 0; being_liquidated := true |}.

Definition depositor : User Q :=
  {| spot_positions := [usdc_deposit]; perp_positions := [];
     max_margin_ratio := 0; being_liquidated := false |}.

Definition borrower : User Q :=
  {| spot_positions := [usdc_borrow]; perp_positions := [];
     max_margin_ratio := 0; being_liquidated := false |}.

(** *** Ledgers, worlds and objects *)

Definition the_authority : PublicKey := 7%N.

Definition ledger_of (user : User Q) (sol_at : oracle_price_data) : Ledger :=
  {| state_account := Some sample_state;
     spot_market_account := fun i => nth_error [usdc; sol] i;
     perp_market_account := fun i => nth_error [sol_perp] i;
     oracle_data := fun k =>
       if N.eqb k sol_oracle_key then Some sol_at else None;
     user_account := fun a i =>
       if N.eqb a the_authority && Nat.eqb i 0 then Some user else None |}.

(** A ledger that does not change. *)
Definition steady_world (user : User Q) : World :=
  {| ledger_at := fun _ => ledger_of user sol_price; fetches := [] |}.

(** A ledger on which the account is closed and SOL has fallen. *)
Definition changed_world : World :=
  {| ledger_at := fun _ => ledger_of no_positions sol_price_later;
     fetches := [] |}.

(** A ledger on which the user account cannot be fetched. *)
Definition world_without_account : World :=
  {| ledger_at := fun _ =>
       {| state_account := Some sample_state;
          spot_market_account := fun i => nth_error [usdc; sol] i;
          perp_market_account := fun i => nth_error [sol_perp] i;
          oracle_data := fun k =>
            if N.eqb k sol_oracle_key then Some sol_price else None;
          user_account := fun _ _ => None |};
     fetches := [] |}.

Definition clearing_house : ClearingHouse :=
  {| clearing_house_authority := the_authority |}.

(** A new object in cached mode, [set_cache] not yet called. *)
Definition fresh_cached (user : User Q) : Sys :=
  {| self := init clearing_house None 0 true; world := steady_world user |}.

(** The object in cached mode after [set_cache]. *)
Definition refreshed (user : User Q) : Sys := snd (set_cache (fresh_cached user)).

(** An object in live mode. *)
Definition live (user : User Q) : Sys :=
  {| self := init clearing_house None 0 false; world := steady_world user |}.

End Sample.

Module SampleLookups.

(** Modelled from the spec: [is_available] of [driftpy.math.positions];
    "signed base-asset amount of zero with no open orders and no LP shares is
    available". *)
Definition perp_position_available (p : PerpPosition Q) : bool :=
  Qeq_bool (base_asset_amount p) 0
  && N.eqb (Sample.open_bids (perp_rest p)) 0
  && N.eqb (Sample.open_asks (perp_rest p)) 0
  && Qeq_bool (lp_shares p) 0.

(** An unused spot entry of market 1. *)
Definition unused_sol : Sample.spot_position :=
  {| Sample.sp_market_index := 1; Sample.sp_scaled_balance := 0;
     Sample.sp_balance_type := Deposit; Sample.sp_open_bids := 0;
     Sample.sp_open_asks := 0 |}.

(** An unused perpetual entry of market 0. *)
Definition unused_perp : PerpPosition Q :=
  {| market_index := 0; base_asset_amount := 0; lp_shares := 0;
     perp_rest := {| Sample.quote_asset_amount := 0; Sample.open_bids := 0;
                     Sample.open_asks := 0; Sample.unsettled_funding := 0 |} |}.

(** The trader's account with unused entries before the positions. *)
Definition trader_with_unused : User Q :=
  {| spot_positions :=
       [unused_sol; Sample.usdc_deposit; Sample.sol_borrow];
     perp_positions := [unused_perp; Sample.sol_long 0];
     max_margin_ratio := 0; being_liquidated := false |}.

(** An unused spot entry of market 0. *)
Definition unused_usdc : Sample.spot_position :=
  {| Sample.sp_market_index := 0; Sample.sp_scaled_balance := 0;
     Sample.sp_balance_type := Deposit; Sample.sp_open_bids := 0;
     Sample.sp_open_asks := 0 |}.

(** An account that holds nothing: eight unused spot entries and eight
    unused perpetual entries. *)
Definition unused_account : User Q :=
  {| spot_positions := repeat unused_usdc 8;
     perp_positions := repeat unused_perp 8;
     max_margin_ratio := 0; being_liquidated := false |}.

End SampleLookups.

(** * Properties *)

(** ** The rationals satisfy the laws of numbers *)

Lemma Q_leb_iff (x y : Q) : leb x y = true <-> (x <= y)%Q.
Proof. apply Qle_bool_iff. Qed.

Lemma Q_ltb_iff (x y : Q) : ltb x y = true <-> (x < y)%Q.
Proof.
  simpl. rewrite negb_true_iff. split.
  - intros E. apply Qnot_le_lt. intros L.
    apply Qle_bool_iff in L. congruence.
  - intros L. destruct (Qle_bool y x) eqn:E; [ | reflexivity ].
    apply Qle_bool_iff in E. exfalso. exact (Qlt_not_le _ _ L E).
Qed.

Lemma Q_add_zero_r (x : Q) : (x + inject_Z 0)%Q = x.
Proof.
  destruct x as [n d]. unfold Qplus, inject_Z. simpl.
  rewrite Z.mul_1_r, Z.add_0_r, Pos.mul_1_r. reflexivity.
Qed.

Lemma Q_abs_nonneg (x : Q) : (0 <= Z.abs (Qnum x) # Qden x)%Q.
Proof. unfold Qle. simpl. rewrite Z.mul_1_r. apply Z.abs_nonneg. Qed.

Lemma Q_div_le_mono (a b p : Q) : (0 < p)%Q -> (a <= b)%Q -> (a / p <= b / p)%Q.
Proof.
  intros Hp Hab. unfold Qdiv. apply Qmult_le_compat_r; [ exact Hab | ].
  apply Qinv_le_0_compat, Qlt_le_weak, Hp.
Qed.

#[export] Instance Q_PyNumLaws : PyNumLaws Q.
Proof.
  constructor.
  - exact Q_add_zero_r.
  - intros x. simpl. rewrite negb_false_iff. apply Qle_bool_iff, Qle_refl.
  - intros x y E. apply Q_ltb_iff in E. simpl. rewrite negb_false_iff.
    apply Qle_bool_iff, Qlt_le_weak, E.
  - intros x y E. apply Q_ltb_iff in E. apply Q_leb_iff, Qlt_le_weak, E.
  - intros x. apply Q_leb_iff, Qle_refl.
  - intros x y z E1 E2. apply Q_leb_iff in E1, E2. apply Q_leb_iff.
    exact (Qle_trans _ _ _ E1 E2).
  - intros a b c d E1 E2. apply Q_leb_iff in E1, E2. apply Q_leb_iff.
    exact (Qplus_le_compat _ _ _ _ E1 E2).
  - intros a b c E1 E2. apply Q_leb_iff in E1, E2. apply Q_leb_iff.
    simpl. rewrite (Qmult_comm a b), (Qmult_comm a c).
    apply Qmult_le_compat_r; assumption.
  - intros a b E1 E2. apply Q_leb_iff in E1, E2. apply Q_leb_iff.
    apply Qmult_le_0_compat; assumption.
  - intros a b p E1 E2. apply Q_ltb_iff in E1. apply Q_leb_iff in E2.
    apply Q_leb_iff. apply Q_div_le_mono; assumption.
  - intros a p E1 E2. apply Q_ltb_iff in E1. apply Q_leb_iff in E2.
    apply Q_leb_iff. simpl. unfold Qdiv.
    apply Qmult_le_0_compat; [ exact E2 | ].
    apply Qinv_le_0_compat, Qlt_le_weak, E1.
  - intros a. apply Q_leb_iff. apply Q_abs_nonneg.
Qed.

(** ** Two runs of a computation side by side *)

Section Runs.

Context {num : Type} {PN : PyNum num} {DT : DriftTypes num}
        {DM : DriftMath num}.

Lemma rel_run_eq {A} (x y : result A * Sys) : rel_run eq x y -> x = y.
Proof.
  destruct x as [[a | e] s1], y as [[b | e'] s2]; unfold rel_run; simpl;
    intros [Hs Hr]; subst; try contradiction; reflexivity.
Qed.

Lemma rel_refl {A} (m : M A) : rel_M eq m m.
Proof.
  intros s. unfold rel_run. split; [ reflexivity | ].
  destruct (fst (m s)); reflexivity.
Qed.

Lemma rel_ret {A B} (R : A -> B -> Prop) a b : R a b -> rel_M R (ret a) (ret b).
Proof. intros HR s. split; [ reflexivity | exact HR ]. Qed.

Lemma rel_bind {A B A' B'} (R : A -> B -> Prop) (R' : A' -> B' -> Prop)
  (m1 : M A) (m2 : M B) (k1 : A -> M A') (k2 : B -> M B') :
  rel_M R m1 m2 ->
  (forall a b, R a b -> rel_M R' (k1 a) (k2 b)) ->
  rel_M R' (bind m1 k1) (bind m2 k2).
Proof.
  intros Hm Hk s. unfold bind. specialize (Hm s).
  destruct (m1 s) as [[a | e] s1], (m2 s) as [[b | e'] s2];
    destruct Hm as [Hs Hr]; simpl in Hs, Hr; subst; try contradiction.
  - apply Hk, Hr.
  - split; reflexivity.
Qed.

(** The same first step on both sides, whose result satisfies [P]. *)
Lemma rel_bind_same {A A' B'} (P : A -> Prop) (R' : A' -> B' -> Prop)
  (m : M A) (k1 : A -> M A') (k2 : A -> M B') :
  (forall s a s', m s = (Ok a, s') -> P a) ->
  (forall a, P a -> rel_M R' (k1 a) (k2 a)) ->
  rel_M R' (bind m k1) (bind m k2).
Proof.
  intros HP Hk s. unfold bind.
  destruct (m s) as [[a | e] s1] eqn:E.
  - apply Hk. exact (HP _ _ _ E).
  - split; reflexivity.
Qed.

Lemma rel_bind_same_any {A A' B'} (R' : A' -> B' -> Prop)
  (m : M A) (k1 : A -> M A') (k2 : A -> M B') :
  (forall a, rel_M R' (k1 a) (k2 a)) ->
  rel_M R' (bind m k1) (bind m k2).
Proof.
  intros Hk. apply rel_bind_same with (P := fun _ => True); auto.
Qed.

(** Two loops over lists related element by element. *)
Lemma rel_for_each {A A' B B'} (P : A -> A' -> Prop) (R : B -> B' -> Prop)
  (body1 : B -> A -> M B) (body2 : B' -> A' -> M B') :
  (forall x x' acc acc', P x x' -> R acc acc' ->
     rel_M R (body1 acc x) (body2 acc' x')) ->
  forall l l', Forall2 P l l' ->
  forall acc acc', R acc acc' ->
  rel_M R (for_each l acc body1) (for_each l' acc' body2).
Proof.
  intros Hbody l l' HF. induction HF as [ | x x' l l' Hx HF IH ];
    intros acc acc' Hacc; simpl.
  - apply rel_ret, Hacc.
  - apply rel_bind with (R := R).
    + apply Hbody; assumption.
    + intros a b Hab. apply IH, Hab.
Qed.

Lemma Forall2_eq_refl {A} (l : list A) : Forall2 eq l l.
Proof. induction l; constructor; auto. Qed.

Lemma rel_for_each_same {A B B'} (R : B -> B' -> Prop) (l : list A)
  (body1 : B -> A -> M B) (body2 : B' -> A -> M B') :
  (forall x acc acc', R acc acc' -> rel_M R (body1 acc x) (body2 acc' x)) ->
  forall acc acc', R acc acc' ->
  rel_M R (for_each l acc body1) (for_each l acc' body2).
Proof.
  intros Hbody acc acc' Hacc.
  apply rel_for_each with (P := eq); [ | apply Forall2_eq_refl | exact Hacc ].
  intros x x' a a' <- Ha. apply Hbody, Ha.
Qed.

(** ** Computations that only read the cache *)

Lemma pure_ret {A} (a : A) : cached_pure (ret a).
Proof. intros o _. exists (Ok a). reflexivity. Qed.

Lemma pure_raise {A} (e : exception) : cached_pure (@raise _ _ A e).
Proof. intros o _. exists (Err e). reflexivity. Qed.

Lemma pure_bind {A B} (m : M A) (k : A -> M B) :
  cached_pure m -> (forall a, cached_pure (k a)) -> cached_pure (bind m k).
Proof.
  intros Hm Hk o Ho. destruct (Hm o Ho) as [[a | e] Hr].
  - destruct (Hk a o Ho) as [r' Hr']. exists r'. intros w.
    unfold bind. rewrite Hr. apply Hr'.
  - exists (Err e). intros w. unfold bind. rewrite Hr. reflexivity.
Qed.

Lemma pure_for_each {A B} (l : list A) (body : B -> A -> M B) :
  (forall acc x, cached_pure (body acc x)) ->
  forall acc, cached_pure (for_each l acc body).
Proof.
  intros Hbody. induction l as [ | x l IH ]; intros acc; simpl.
  - apply pure_ret.
  - apply pure_bind; [ apply Hbody | exact IH ].
Qed.

Lemma pure_py_div (a b : num) : cached_pure (py_div a b).
Proof.
  unfold py_div. destruct (eqb b (of_Z 0)); [ apply pure_raise | apply pure_ret ].
Qed.

Lemma pure_if {A} (c : bool) (m1 m2 : M A) :
  cached_pure m1 -> cached_pure m2 -> cached_pure (if c then m1 else m2).
Proof. destruct c; auto. Qed.

End Runs.

(** ** The accessors in cached mode *)

Section Snapshot.

Context {num : Type} {PN : PyNum num} {DT : DriftTypes num}
        {DM : DriftMath num}.

Lemma pure_assert_cache_is_set : cached_pure assert_cache_is_set.
Proof.
  intros o _. unfold assert_cache_is_set. simpl.
  destruct (cache_is_set o); eexists; intros w; reflexivity.
Qed.

Lemma pure_cache_get {A} (key : Cache -> option A) : cached_pure (cache_get key).
Proof.
  intros o _. unfold cache_get. simpl.
  destruct (CACHE o) as [ c | ]; [ destruct (key c) | ];
    eexists; intros w; reflexivity.
Qed.

Lemma pure_py_index {A} (l : list A) (i : nat) : cached_pure (py_index l i).
Proof.
  unfold py_index. destruct (nth_error l i); [ apply pure_ret | apply pure_raise ].
Qed.

(** An accessor reads the cache when [use_cache] is set, whatever it would
    do otherwise. *)
Lemma pure_mode_switch {A} (on_cache on_ledger : M A) :
  cached_pure on_cache ->
  cached_pure
    (bind self_use_cache (fun cached => if cached then on_cache else on_ledger)).
Proof.
  intros H o Ho. destruct (H o Ho) as [r Hr]. exists r. intros w.
  unfold bind, self_use_cache. simpl. rewrite Ho. apply Hr.
Qed.

Lemma not_ready_mode_switch {A} (on_cache on_ledger : M A) (s : Sys) :
  use_cache (self s) = true -> cache_is_set (self s) = false ->
  bind self_use_cache
    (fun cached =>
       if cached then bind assert_cache_is_set (fun _ => on_cache)
       else on_ledger) s
  = (Err AssertionError, s).
Proof.
  intros Hu Hc. unfold bind, self_use_cache, assert_cache_is_set.
  rewrite Hu, Hc. reflexivity.
Qed.

Create HintDb pure discriminated.

#[local] Hint Resolve pure_ret pure_raise pure_py_div pure_py_index
  pure_cache_get pure_assert_cache_is_set : pure.

Lemma pure_get_state : cached_pure get_state.
Proof. apply pure_mode_switch, pure_bind; auto with pure. Qed.

Lemma pure_get_user : cached_pure get_user.
Proof. apply pure_mode_switch, pure_bind; auto with pure. Qed.

Lemma pure_get_spot_market (i : nat) : cached_pure (get_spot_market i).
Proof.
  apply pure_mode_switch, pure_bind; auto with pure.
  intros _. apply pure_bind; auto with pure.
Qed.

Lemma pure_get_perp_market (i : nat) : cached_pure (get_perp_market i).
Proof.
  apply pure_mode_switch, pure_bind; auto with pure.
  intros _. apply pure_bind; auto with pure.
Qed.

Lemma pure_get_spot_oracle_data (m : SpotMarket) :
  cached_pure (get_spot_oracle_data m).
Proof.
  apply pure_mode_switch, pure_bind; auto with pure.
  intros _. apply pure_bind; auto with pure.
Qed.

Lemma pure_get_perp_oracle_data (m : PerpMarket) :
  cached_pure (get_perp_oracle_data m).
Proof.
  apply pure_mode_switch, pure_bind; auto with pure.
  intros _. apply pure_bind; auto with pure.
Qed.

#[local] Hint Resolve pure_get_state pure_get_user pure_get_spot_market
  pure_get_perp_market pure_get_spot_oracle_data pure_get_perp_oracle_data
  : pure.

(** Decomposes a computation into its steps, each of which reads the cache. *)
Ltac pure_steps :=
  repeat first
    [ solve [ auto with pure ]
    | apply pure_bind
    | apply pure_for_each
    | match goal with
      | |- forall _, _ => intro
      | |- cached_pure (if ?c then _ else _) => destruct c
      | |- cached_pure (match ?x with _ => _ end) => destruct x
      end ].

Lemma pure_get_spot_market_liability i mc buffer orders :
  cached_pure (get_spot_market_liability i mc buffer orders).
Proof. unfold get_spot_market_liability. pure_steps. Qed.

Lemma pure_get_total_perp_positon mc buffer orders :
  cached_pure (get_total_perp_positon mc buffer orders).
Proof. unfold get_total_perp_positon. pure_steps. Qed.

Lemma pure_get_unrealized_pnl funding i mc :
  cached_pure (get_unrealized_pnl funding i mc).
Proof. unfold get_unrealized_pnl. pure_steps. Qed.

Lemma pure_get_spot_market_asset_value mc orders i :
  cached_pure (get_spot_market_asset_value mc orders i).
Proof. unfold get_spot_market_asset_value. pure_steps. Qed.

#[local] Hint Resolve pure_get_spot_market_liability
  pure_get_total_perp_positon pure_get_unrealized_pnl
  pure_get_spot_market_asset_value : pure.

Lemma pure_get_margin_requirement mc buffer :
  cached_pure (get_margin_requirement mc buffer).
Proof. unfold get_margin_requirement. pure_steps. Qed.

Lemma pure_get_total_collateral mc : cached_pure (get_total_collateral mc).
Proof. unfold get_total_collateral. pure_steps. Qed.

#[local] Hint Resolve pure_get_margin_requirement pure_get_total_collateral
  : pure.

Lemma pure_get_leverage mc : cached_pure (get_leverage mc).
Proof. unfold get_leverage. pure_steps. Qed.

Lemma keeps_mode_ret {A} (a : A) : keeps_mode (ret a).
Proof. intros s. reflexivity. Qed.

Lemma keeps_mode_bind {A B} (m : M A) (k : A -> M B) :
  keeps_mode m -> (forall a, keeps_mode (k a)) -> keeps_mode (bind m k).
Proof.
  intros Hm Hk s. unfold bind. specialize (Hm s).
  destruct (m s) as [[a | e] s1]; simpl in *.
  - rewrite Hk. exact Hm.
  - exact Hm.
Qed.

Lemma keeps_mode_for_each {A B} (l : list A) (body : B -> A -> M B) :
  (forall acc x, keeps_mode (body acc x)) ->
  forall acc, keeps_mode (for_each l acc body).
Proof.
  intros Hbody. induction l as [ | x l IH ]; intros acc; simpl.
  - apply keeps_mode_ret.
  - apply keeps_mode_bind; [ apply Hbody | exact IH ].
Qed.

Lemma keeps_mode_fetch {A} q (answer : Ledger -> option A) :
  keeps_mode (fetch q answer).
Proof.
  intros s. unfold fetch.
  destruct (answer _); reflexivity.
Qed.

Lemma keeps_mode_cache_put f : keeps_mode (cache_put f).
Proof.
  intros s. unfold cache_put. destruct (CACHE (self s)); reflexivity.
Qed.

Lemma keeps_mode_set_cache : keeps_mode set_cache.
Proof.
  unfold set_cache.
  repeat first
    [ apply keeps_mode_ret
    | apply keeps_mode_fetch
    | apply keeps_mode_cache_put
    | apply keeps_mode_bind
    | apply keeps_mode_for_each
    | match goal with
      | |- forall _, _ => intro
      | |- keeps_mode (if ?c then _ else _) => destruct c
      | |- keeps_mode (match ?x with _ => _ end) => destruct x
      | |- keeps_mode ((match ?x with _ => _ end) _) => destruct x; cbv beta
      | |- keeps_mode (update_self _) => intros s; reflexivity
      | |- keeps_mode self_authority => intros s; reflexivity
      | |- keeps_mode self_subaccount_id => intros s; reflexivity
      end ].
Qed.

End Snapshot.

(** ** The cache: readiness and isolation *)

Section CacheProperties.

Context {num : Type} {PN : PyNum num} {DT : DriftTypes num}
        {DM : DriftMath num}.

Lemma cached_pure_unchanged {A} (m : M A) (s : Sys) :
  cached_pure m -> use_cache (self s) = true -> snd (m s) = s.
Proof.
  intros Hm Hu. destruct s as [o w]. simpl in Hu.
  destruct (Hm o Hu) as [r Hr]. rewrite Hr. reflexivity.
Qed.

Lemma cached_pure_any_world {A} (m : M A) (o : ClearingHouseUser)
  (w w' : World) :
  cached_pure m -> use_cache o = true ->
  fst (m {| self := o; world := w |}) = fst (m {| self := o; world := w' |}).
Proof.
  intros Hm Hu. destruct (Hm o Hu) as [r Hr]. rewrite !Hr. reflexivity.
Qed.

(** C7.  In cached mode, each of the six accessors called on an object whose
    cache has not been set (as is every object that [__init__] returns, until
    [set_cache] is called) raises the assertion error of the cache guard
    (NotReady) and changes nothing; and in cached mode no accessor call, on
    any object, changes the system: in particular it adds no request to the
    fetches made against the ledger. *)
Theorem accessors_not_ready_and_never_fetch (s : Sys) :
  use_cache (self s) = true ->
  (cache_is_set (self s) = false ->
     get_state s = (Err AssertionError, s) /\
     (forall i, get_spot_market i s = (Err AssertionError, s)) /\
     (forall i, get_perp_market i s = (Err AssertionError, s)) /\
     (forall m, get_spot_oracle_data m s = (Err AssertionError, s)) /\
     (forall m, get_perp_oracle_data m s = (Err AssertionError, s)) /\
     get_user s = (Err AssertionError, s)) /\
  (snd (get_state s) = s /\
   (forall i, snd (get_spot_market i s) = s) /\
   (forall i, snd (get_perp_market i s) = s) /\
   (forall m, snd (get_spot_oracle_data m s) = s) /\
   (forall m, snd (get_perp_oracle_data m s) = s) /\
   snd (get_user s) = s) /\
  (forall clearing_house a i,
     cache_is_set (init clearing_house a i true) = false /\
     use_cache (init clearing_house a i true) = true).
Proof.
  intros Hu. split; [ | split ].
  - intros Hc. repeat split; intros;
      apply not_ready_mode_switch; assumption.
  - repeat split; intros; apply cached_pure_unchanged;
      auto using pure_get_state, pure_get_spot_market, pure_get_perp_market,
        pure_get_spot_oracle_data, pure_get_perp_oracle_data, pure_get_user.
  - intros. split; reflexivity.
Qed.

(** C9.  In cached mode, with the cache as one [set_cache] call left it, a
    first [get_leverage] changes neither the object nor the world, and a
    second [get_leverage] on the same object returns the same result in any
    other world [w'], that is whatever the ledger has become in between. *)
Theorem get_leverage_cache_isolation
  (margin_category : option MarginCategory) (s0 : Sys) (w' : World) :
  use_cache (self s0) = true ->
  let s := snd (set_cache s0) in
  let first := get_leverage margin_category s in
  snd first = s /\
  fst (get_leverage margin_category {| self := self (snd first); world := w' |})
  = fst first.
Proof.
  intros Hu s first.
  assert (Hs : use_cache (self s) = true).
  { unfold s. rewrite keeps_mode_set_cache. exact Hu. }
  assert (Hfirst : snd first = s).
  { apply cached_pure_unchanged; [ apply pure_get_leverage | exact Hs ]. }
  split; [ exact Hfirst | ].
  rewrite Hfirst. unfold first.
  destruct s as [o w]. simpl in *.
  apply cached_pure_any_world; [ apply pure_get_leverage | exact Hs ].
Qed.

End CacheProperties.

Lemma accessors_not_ready_and_never_fetch_witness :
  let s := Sample.fresh_cached Sample.trader in
  get_user s = (Err AssertionError, s) /\ snd (get_spot_market 1 s) = s.
Proof.
  intros s.
  destruct (accessors_not_ready_and_never_fetch s eq_refl) as [Hn [Hf _]].
  split.
  - apply (Hn eq_refl).
  - apply Hf.
Defined.

Lemma get_leverage_cache_isolation_witness :
  let s := Sample.refreshed Sample.trader in
  snd (get_leverage None s) = s /\
  fst (get_leverage None {| self := self s; world := Sample.changed_world |})
  = fst (get_leverage None s).
Proof.
  intros s.
  destruct (get_leverage_cache_isolation None
              (Sample.fresh_cached Sample.trader) Sample.changed_world eq_refl)
    as [H1 H2].
  split.
  - exact H1.
  - fold s in H1. rewrite H1 in H2. exact H2.
Defined.

(** ** Unrealized pnl, total collateral and the unsupported weighting *)

Section Collateral.

Context {num : Type} {PN : PyNum num} {DT : DriftTypes num}
        {DM : DriftMath num}.

(** The loop of [get_unrealized_pnl] reaches its [raise] only inside the body,
    for a position that passes the market filter: when every position is
    filtered out (or there is none), the accumulator is returned. *)
Lemma unrealized_pnl_loop_all_skipped funding only
  (mc : option MarginCategory)
  (l : list (PerpPosition num)) (acc : num) (s : Sys) :
  Forall (fun p => other_market only (market_index p) = true) l ->
  for_each l acc (fun unrealized_pnl position =>
    if other_market only (market_index position)
    then ret unrealized_pnl
    else
      bind (get_perp_market (market_index position)) (fun market =>
      bind (get_perp_oracle_data market) (fun oracle_data =>
      let position_unrealized_pnl :=
        calculate_position_pnl market position oracle_data funding in
      match mc with
      | Some _ => raise NotImplementedError
      | None => ret (add unrealized_pnl position_unrealized_pnl)
      end))) s
  = (Ok acc, s).
Proof.
  intros HF. induction HF as [ | p l Hp HF IH ]; simpl.
  - reflexivity.
  - unfold bind at 1. rewrite Hp. simpl. exact IH.
Qed.

Lemma get_unrealized_pnl_all_skipped funding only mc (s s' : Sys)
  (user : User num) :
  get_user s = (Ok user, s') ->
  Forall (fun p => other_market only (market_index p) = true)
         (perp_positions user) ->
  get_unrealized_pnl funding only mc s = (Ok (of_Z 0), s').
Proof.
  intros Hu HF. unfold get_unrealized_pnl, bind at 1. rewrite Hu.
  apply unrealized_pnl_loop_all_skipped, HF.
Qed.

(** With a margin category, the first position that is valued raises. *)
Lemma get_unrealized_pnl_weighted_raises funding category
  (s s1 s2 : Sys) (user : User num) (pnl : num) :
  get_unrealized_pnl funding None None s = (Ok pnl, s1) ->
  get_user s = (Ok user, s2) ->
  perp_positions user <> [] ->
  fst (get_unrealized_pnl funding None (Some category) s)
  = Err NotImplementedError.
Proof.
  unfold get_unrealized_pnl. intros Hplain Hu Hne.
  unfold bind at 1 in Hplain. unfold bind at 1. rewrite Hu in *.
  destruct (perp_positions user) as [ | p l ]; [ congruence | ].
  simpl in *. unfold bind at 1 in Hplain. unfold bind at 1.
  unfold bind at 1 in Hplain. unfold bind at 1.
  destruct (get_perp_market (market_index p) s2) as [[m | e] s3];
    [ | discriminate ].
  unfold bind at 1 in Hplain. unfold bind at 1.
  destruct (get_perp_oracle_data m s3) as [[o | e] s4]; [ | discriminate ].
  reflexivity.
Qed.

(** C2, as amended.  Without a margin category [get_total_collateral] is the
    specification's sum: the spot asset value with open orders plus the
    unweighted pnl with funding.  With a margin category ([INITIAL] or
    [MAINTENANCE]) and an account that holds a perpetual position, it returns
    no value: whenever the two terms of the sum can be computed, the call
    raises [NotImplementedError] (UnsupportedOption). *)
Theorem get_total_collateral_sum_or_unsupported :
  (forall s, get_total_collateral None s = spec_total_collateral None s) /\
  (forall category s spot s1 pnl s2 user s3,
     get_spot_market_asset_value (Some category) true None s = (Ok spot, s1) ->
     get_unrealized_pnl true None None s1 = (Ok pnl, s2) ->
     get_user s1 = (Ok user, s3) ->
     perp_positions user <> [] ->
     fst (get_total_collateral (Some category) s) = Err NotImplementedError).
Proof.
  split.
  - intros s. reflexivity.
  - intros category s spot s1 pnl s2 user s3 Hspot Hpnl Hu Hne.
    unfold get_total_collateral, bind at 1. rewrite Hspot.
    unfold bind at 1.
    pose proof (get_unrealized_pnl_weighted_raises true category _ _ _ _ _
                  Hpnl Hu Hne) as E.
    destruct (get_unrealized_pnl true None (Some category) s1) as [[v | e] s4];
      simpl in E; [ discriminate | ].
    simpl. exact E.
Qed.

(** In [get_spot_market_asset_value], a position in the quote market adds its
    token amount to the asset value whatever its direction. *)
Lemma quote_position_asset_value mc orders (s s1 s2 : Sys) (user : User num)
  (p : SpotPosition) (m : SpotMarket) :
  get_user s = (Ok user, s1) ->
  spot_positions user = [p] ->
  is_spot_position_available p = false ->
  spot_position_market_index p = QUOTE_ASSET_BANK_INDEX ->
  get_spot_market QUOTE_ASSET_BANK_INDEX s1 = (Ok m, s2) ->
  get_spot_market_asset_value mc orders None s
  = (Ok (add (of_Z 0)
             (get_token_amount (scaled_balance p) m (balance_type p))), s2).
Proof.
  intros Hu Hl Ha Hi Hm. unfold get_spot_market_asset_value, bind at 1.
  rewrite Hu, Hl. simpl. unfold bind at 1. rewrite Ha. simpl.
  unfold bind at 1. rewrite Hi, Hm, Nat.eqb_refl. reflexivity.
Qed.

End Collateral.

(** C1.  [get_unrealized_pnl] with a margin category returns a value, the
    number 0, when no position passes the market filter: for a trader whose
    only perpetual position is in market 0 and the filter [market_index = 1],
    and for an account without perpetual positions.  It raises
    [NotImplementedError] only once a position is valued, and then (in live
    mode) after the user, the market and the oracle have been fetched. *)
Theorem get_unrealized_pnl_weighted_returns_zero :
  fst (get_unrealized_pnl true (Some 1%nat) (Some INITIAL)
         (Sample.refreshed Sample.trader)) = Ok 0%Q /\
  fst (get_unrealized_pnl true None (Some INITIAL)
         (Sample.refreshed Sample.depositor)) = Ok 0%Q /\
  fst (get_unrealized_pnl true None (Some INITIAL)
         (Sample.refreshed Sample.trader)) = Err NotImplementedError /\
  get_unrealized_pnl true None (Some INITIAL) (Sample.live Sample.trader)
  = (Err NotImplementedError,
     {| self := self (Sample.live Sample.trader);
        world :=
          {| ledger_at := ledger_at (Sample.steady_world Sample.trader);
             fetches := [FetchUser Sample.the_authority 0; FetchPerpMarket 0;
                         FetchOracle Sample.sol_oracle_key] |} |}).
Proof. repeat split; vm_compute; reflexivity. Qed.

(** C2, counterexample.  For the trader (1000 USDC deposited, 2 SOL borrowed,
    5 SOL long) and the category [INITIAL], the specification's sum has a
    value, and [get_total_collateral] raises [NotImplementedError]. *)
Lemma get_total_collateral_initial_raises :
  let s := Sample.refreshed Sample.trader in
  is_ok (fst (spec_total_collateral (Some INITIAL) s)) = true /\
  fst (get_total_collateral (Some INITIAL) s) = Err NotImplementedError /\
  get_total_collateral (Some INITIAL) s <> spec_total_collateral (Some INITIAL) s.
Proof.
  intros s.
  assert (H1 : is_ok (fst (spec_total_collateral (Some INITIAL) s)) = true)
    by (vm_compute; reflexivity).
  assert (H2 : fst (get_total_collateral (Some INITIAL) s)
               = Err NotImplementedError) by (vm_compute; reflexivity).
  split; [ exact H1 | split; [ exact H2 | ] ].
  intros E. rewrite E in H2. rewrite H2 in H1. clear E H2. discriminate H1.
Qed.

Lemma get_total_collateral_sum_or_unsupported_witness :
  let s := Sample.refreshed Sample.trader in
  get_total_collateral None s = spec_total_collateral None s /\
  fst (get_total_collateral (Some MAINTENANCE) s) = Err NotImplementedError.
Proof.
  intros s. destruct get_total_collateral_sum_or_unsupported as [H1 H2].
  split.
  - apply H1.
  - eapply (H2 MAINTENANCE s _ s _ s Sample.trader s).
    + vm_compute. reflexivity.
    + vm_compute. reflexivity.
    + vm_compute. reflexivity.
    + discriminate.
Defined.

(** C8.  A borrow of 250 USDC, the only position of the account, is counted
    by [get_spot_market_asset_value] as 250 USDC of assets (in cached and in
    live mode, with and without open orders), as a deposit of the same amount
    would be. *)
Theorem quote_borrow_counted_as_asset :
  fst (get_spot_market_asset_value None true None
         (Sample.refreshed Sample.borrower)) = Ok (250000000 # 1) /\
  fst (get_spot_market_asset_value (Some INITIAL) false None
         (Sample.live Sample.borrower)) = Ok (250000000 # 1) /\
  fst (get_total_collateral None (Sample.refreshed Sample.borrower))
  = Ok (250000000 # 1).
Proof. repeat split; vm_compute; reflexivity. Qed.

(** ** Margin requirement, leverage, free collateral and liquidation *)

Section Margin.

Context {num : Type} {PN : PyNum num} {DT : DriftTypes num}
        {DM : DriftMath num} {PL : PyNumLaws num}.

(** Steps through two computations while they take the same step. *)
Ltac same_steps :=
  repeat first
    [ apply rel_refl
    | apply rel_bind_same_any; intro
    | apply rel_for_each_same; [ intros ? ? ? <- | reflexivity ]
    | match goal with
      | |- rel_M _ (if ?c then _ else _) (if ?c then _ else _) => destruct c
      | |- rel_M _ (match ?x with _ => _ end) (match ?x with _ => _ end) =>
          destruct x
      end ].

(** *** A buffer of 0 is no buffer *)

Lemma perp_position_zero_buffer mc orders :
  rel_M eq (get_total_perp_positon mc (Some (of_Z 0)) orders)
           (get_total_perp_positon mc None orders).
Proof.
  unfold get_total_perp_positon. same_steps.
  destruct mc as [ category | ]; [ | apply rel_refl ].
  cbv zeta. rewrite add_zero_r. apply rel_refl.
Qed.

Lemma spot_liability_zero_buffer only mc orders :
  buffer_is_additive ->
  rel_M eq (get_spot_market_liability only mc (Some (of_Z 0)) orders)
           (get_spot_market_liability only mc None orders).
Proof.
  intros Hb. unfold get_spot_market_liability. same_steps;
    cbv zeta; rewrite Hb; same_steps.
Qed.

Lemma margin_requirement_zero_buffer mc :
  buffer_is_additive ->
  rel_M eq (get_margin_requirement mc (Some (of_Z 0)))
           (get_margin_requirement mc None).
Proof.
  intros Hb. unfold get_margin_requirement.
  apply rel_bind with (R := eq); [ apply perp_position_zero_buffer | ].
  intros a b <-.
  apply rel_bind with (R := eq); [ apply spot_liability_zero_buffer, Hb | ].
  intros c d <-. apply rel_refl.
Qed.

Lemma rel_M_eq_sym {A} (m1 m2 : M A) : rel_M eq m1 m2 -> rel_M eq m2 m1.
Proof. intros H s. rewrite (rel_run_eq _ _ (H s)). apply rel_refl. Qed.

(** *** Leverage *)

(** Without a margin category the code's total collateral is the
    specification's, and [get_leverage] is the guarded quotient of the
    specification. *)
Lemma get_leverage_refines :
  buffer_is_additive -> rel_M eq (get_leverage None) (spec_leverage None).
Proof.
  intros Hb. unfold get_leverage, spec_leverage.
  apply rel_bind with (R := eq).
  - apply rel_M_eq_sym, margin_requirement_zero_buffer, Hb.
  - intros m ? <-.
    change (spec_total_collateral None) with (get_total_collateral None).
    apply rel_bind_same_any. intros c.
    unfold py_div.
    destruct (eqb c (of_Z 0)) eqn:Ec, (eqb m (of_Z 0)) eqn:Em; simpl;
      apply rel_refl.
Qed.

(** With a margin category, [get_leverage] computes the margin requirement
    and then fails in [get_total_collateral], at the first perpetual position
    that [get_unrealized_pnl] values. *)
Lemma get_leverage_weighted_raises category
  (s s1 s2 s3 s4 : Sys) (requirement spot pnl : num) (user : User num) :
  buffer_is_additive ->
  get_margin_requirement (Some category) (Some (of_Z 0)) s
  = (Ok requirement, s1) ->
  get_spot_market_asset_value (Some category) true None s1 = (Ok spot, s2) ->
  get_unrealized_pnl true None None s2 = (Ok pnl, s3) ->
  get_user s2 = (Ok user, s4) ->
  perp_positions user <> [] ->
  fst (get_leverage (Some category) s) = Err NotImplementedError.
Proof.
  intros Hb Hr Hspot Hpnl Hu Hne.
  pose proof (rel_run_eq _ _
                (margin_requirement_zero_buffer (Some category) Hb s)) as Hz.
  rewrite Hr in Hz. unfold get_leverage, bind at 1. rewrite <- Hz.
  unfold bind at 1, get_total_collateral, bind at 1. rewrite Hspot.
  unfold bind at 1.
  pose proof (get_unrealized_pnl_weighted_raises true category _ _ _ _ _
                Hpnl Hu Hne) as E.
  destruct (get_unrealized_pnl true None (Some category) s2) as [[v | e] s5];
    simpl in E; [ discriminate | ].
  simpl. exact E.
Qed.

(** C3, as amended.  Given that a liquidation buffer of 0 adds nothing to a
    spot liability: without a margin category [get_leverage] is the
    specification's formula over [margin_requirement(None)] and the
    specification's [total_collateral(None)]; it fails as they fail, and
    otherwise returns 0 when either is 0 (no division is attempted, so that
    two zeros give 0 and not a division fault) and their quotient times 10000
    when neither is.  With a margin category ([INITIAL] or [MAINTENANCE]) and
    an account that holds a perpetual position, it returns no value: whenever
    the margin requirement and the two terms of the specification's total
    collateral can be computed, the call raises [NotImplementedError]
    (UnsupportedOption), whatever the margin requirement is, 0 included. *)
Theorem get_leverage_formula_or_unsupported :
  buffer_is_additive ->
  (forall s, get_leverage None s = spec_leverage None s) /\
  (forall s requirement s1 collateral s2,
     get_margin_requirement None (Some (of_Z 0)) s = (Ok requirement, s1) ->
     spec_total_collateral None s1 = (Ok collateral, s2) ->
     get_leverage None s
     = (Ok (if eqb requirement (of_Z 0) || eqb collateral (of_Z 0)
            then of_Z 0
            else truediv (mul requirement (of_Z 10000)) collateral), s2)) /\
  (forall category s requirement s1 spot s2 pnl s3 user s4,
     get_margin_requirement (Some category) (Some (of_Z 0)) s
     = (Ok requirement, s1) ->
     get_spot_market_asset_value (Some category) true None s1
     = (Ok spot, s2) ->
     get_unrealized_pnl true None None s2 = (Ok pnl, s3) ->
     get_user s2 = (Ok user, s4) ->
     perp_positions user <> [] ->
     fst (get_leverage (Some category) s) = Err NotImplementedError).
Proof.
  intros Hb.
  assert (E : forall s, get_leverage None s = spec_leverage None s).
  { intros s. apply rel_run_eq, get_leverage_refines, Hb. }
  split; [ exact E | ]. split.
  - intros s requirement s1 collateral s2 Hr Hc. rewrite E.
    unfold spec_leverage, bind at 1. rewrite Hr.
    unfold bind at 1. rewrite Hc. reflexivity.
  - intros category s requirement s1 spot s2 pnl s3 user s4.
    apply get_leverage_weighted_raises, Hb.
Qed.

(** *** Free collateral *)

(** C4.  [get_free_collateral()] is
    [max(0, total_collateral() - margin_requirement(Initial))]: the
    difference when it is positive and 0 otherwise; a value it returns is
    never below 0. *)
Theorem get_free_collateral_clamped (s : Sys) :
  get_free_collateral s = spec_free_collateral s /\
  (forall v s', get_free_collateral s = (Ok v, s') -> ltb v (of_Z 0) = false).
Proof.
  split; [ reflexivity | ].
  intros v s'. unfold get_free_collateral, bind.
  destruct (get_total_collateral None s) as [[c | e] s1]; [ | discriminate ].
  destruct (get_margin_requirement (Some INITIAL) (Some (of_Z 0)) s1)
    as [[m | e] s2]; [ | discriminate ].
  unfold ret, py_max. intros E. inversion E; subst; clear E.
  destruct (ltb (of_Z 0) (sub c m)) eqn:L.
  - apply ltb_asym, L.
  - apply ltb_irrefl.
Qed.

(** *** Liquidation *)

Lemma can_be_liquidated_refines :
  buffer_is_additive -> rel_M eq can_be_liquidated spec_can_be_liquidated.
Proof.
  intros Hb. unfold can_be_liquidated, spec_can_be_liquidated.
  apply rel_bind_same_any. intros collateral.
  apply rel_bind_same_any. intros user.
  apply rel_bind
    with (R := fun (x : option num) (b : num) =>
                 x = Some b \/ (x = None /\ b = of_Z 0)).
  - unfold spec_liquidation_buffer. destruct (being_liquidated user).
    + apply rel_bind_same_any. intros state. apply rel_ret. left. reflexivity.
    + apply rel_ret. right. split; reflexivity.
  - intros x b [ -> | [ -> -> ] ].
    + apply rel_refl.
    + apply rel_bind with (R := eq).
      * apply rel_M_eq_sym, margin_requirement_zero_buffer, Hb.
      * intros m ? <-. apply rel_refl.
Qed.

(** C6.  Given that a liquidation buffer of 0 adds nothing to a spot
    liability, [can_be_liquidated()] is [total_collateral() <
    margin_requirement(Maintenance, buffer)], where [buffer] is the state's
    [liquidation_margin_buffer_ratio] when the user is being liquidated and 0
    otherwise. *)
Theorem can_be_liquidated_formula (s : Sys) :
  buffer_is_additive ->
  can_be_liquidated s = spec_can_be_liquidated s.
Proof. intros Hb. apply rel_run_eq, can_be_liquidated_refines, Hb. Qed.

End Margin.

(** ** Initial against maintenance margin *)

Section InitialMaintenance.

Context {num : Type} {PN : PyNum num} {DT : DriftTypes num}
        {DM : DriftMath num} {PL : PyNumLaws num}.

Lemma py_max_ge_l (a b : num) : leb a (py_max a b) = true.
Proof.
  unfold py_max. destruct (ltb a b) eqn:L.
  - apply ltb_leb, L.
  - apply leb_refl.
Qed.

Lemma py_div_nonneg (a p v : num) (s s' : Sys) :
  ltb (of_Z 0) p = true -> leb (of_Z 0) a = true ->
  py_div a p s = (Ok v, s') -> leb (of_Z 0) v = true.
Proof.
  intros Hp Ha. unfold py_div.
  destruct (eqb p (of_Z 0)); [ discriminate | ].
  unfold ret. intros E. inversion E; subst. apply truediv_nonneg; assumption.
Qed.

Lemma rel_py_div_le (a b p : num) :
  ltb (of_Z 0) p = true -> leb a b = true ->
  rel_M at_most (py_div a p) (py_div b p).
Proof.
  intros Hp Hab. unfold py_div. destruct (eqb p (of_Z 0)).
  - intros s. split; reflexivity.
  - apply rel_ret. apply truediv_le_mono_pos; assumption.
Qed.

Lemma quote_weight_le (user : User num) :
  leb (quote_weight (Some MAINTENANCE) user) (quote_weight (Some INITIAL) user)
  = true.
Proof. unfold quote_weight. simpl. apply py_max_ge_l. Qed.

Hypothesis floors : initial_at_least_maintenance.
Hypothesis invariants : data_model_invariants.

Lemma perp_position_initial_ge_maintenance buffer :
  rel_M at_most
    (get_total_perp_positon (Some MAINTENANCE) buffer true)
    (get_total_perp_positon (Some INITIAL) buffer true).
Proof.
  destruct floors as [Hratio _].
  destruct invariants as [Hprice [_ [_ [Hmp Hqp]]]].
  unfold get_total_perp_positon.
  apply rel_bind_same_any. intros user.
  apply rel_for_each_same; [ | apply leb_refl ].
  intros p acc acc' Hacc.
  apply rel_bind_same_any. intros market.
  apply rel_bind_same_any. intros _.
  apply rel_bind_same_any. intros oracle. cbv zeta.
  apply rel_bind_same with (P := fun v => leb (of_Z 0) v = true).
  - intros s v s'. apply py_div_nonneg; [ exact Hqp | ].
    apply mul_nonneg; [ apply abs_nonneg | apply Hprice ].
  - intros base_value Hbase.
    apply rel_bind with (R := at_most).
    + simpl. apply rel_py_div_le; [ exact Hmp | ].
      apply mul_le_mono_nonneg_l; [ exact Hbase | ].
      assert (Hr : leb (calculate_market_margin_ratio market
                          (py_abs (calculate_worst_case_base_asset_amount p))
                          MAINTENANCE)
                       (py_max (calculate_market_margin_ratio market
                                  (py_abs (calculate_worst_case_base_asset_amount p))
                                  INITIAL)
                               (max_margin_ratio user)) = true).
      { eapply leb_trans; [ apply Hratio | apply py_max_ge_l ]. }
      destruct buffer as [ b | ]; [ | exact Hr ].
      apply add_le_mono; [ exact Hr | apply leb_refl ].
    + intros v v' Hv. apply rel_ret. apply add_le_mono; assumption.
Qed.

Lemma spot_liability_initial_ge_maintenance only buffer :
  rel_M at_most
    (get_spot_market_liability only (Some MAINTENANCE) buffer true)
    (get_spot_market_liability only (Some INITIAL) buffer true).
Proof.
  destruct floors as [_ Hliab].
  destruct invariants as [_ [Htoken [Hwp _]]].
  unfold get_spot_market_liability.
  apply rel_bind_same_any. intros user.
  apply rel_for_each_same; [ | apply leb_refl ].
  intros p acc acc' Hacc.
  destruct (is_spot_position_available p
            || other_market only (spot_position_market_index p));
    [ apply rel_ret, Hacc | ].
  apply rel_bind_same_any. intros spot_market.
  destruct (Nat.eqb (spot_position_market_index p) QUOTE_ASSET_BANK_INDEX).
  - destruct (is_borrow (balance_type p)); [ | apply rel_ret, Hacc ].
    cbv zeta. apply rel_bind with (R := at_most).
    + apply rel_py_div_le; [ exact Hwp | ].
      apply mul_le_mono_nonneg_l; [ apply Htoken | apply quote_weight_le ].
    + intros v v' Hv. apply rel_ret. apply add_le_mono; assumption.
  - apply rel_bind_same_any. intros oracle. simpl negb. cbv iota.
    destruct (get_worst_case_token_amounts p spot_market oracle)
      as [token quote].
    cbv zeta.
    match goal with
    | |- rel_M _ (if _ then bind _ (fun w => ret (add ?x w)) else _)
                 (if _ then bind _ (fun w' => ret (add ?y w')) else _) =>
        assert (Hxy : leb x y = true)
    end.
    { destruct (ltb token (of_Z 0)); [ | exact Hacc ].
      apply add_le_mono; [ exact Hacc | ].
      apply Hliab, abs_nonneg. }
    destruct (ltb quote (of_Z 0)); [ | apply rel_ret, Hxy ].
    apply rel_bind with (R := at_most).
    + apply rel_py_div_le; [ exact Hwp | ].
      apply mul_le_mono_nonneg_l; [ apply abs_nonneg | apply quote_weight_le ].
    + intros v v' Hv. apply rel_ret. apply add_le_mono; assumption.
Qed.

Lemma margin_requirement_initial_ge_maintenance buffer :
  rel_M at_most
    (get_margin_requirement (Some MAINTENANCE) buffer)
    (get_margin_requirement (Some INITIAL) buffer).
Proof.
  unfold get_margin_requirement.
  apply rel_bind with (R := at_most);
    [ apply perp_position_initial_ge_maintenance | ].
  intros a b Hab.
  apply rel_bind with (R := at_most);
    [ apply spot_liability_initial_ge_maintenance | ].
  intros c d Hcd. apply rel_ret. apply add_le_mono; assumption.
Qed.

End InitialMaintenance.

Section InitialMaintenanceOrder.

Context {num : Type} {PN : PyNum num} {DT : DriftTypes num}
        {DM : DriftMath num} {PL : PyNumLaws num}.

(** C5.  Given that the floors of [INITIAL] are pointwise at least those of
    [MAINTENANCE], and the invariants of the data model (no negative price
    or token amount, positive precision constants), the two calls
    [get_margin_requirement(INITIAL)] and [get_margin_requirement(MAINTENANCE)]
    on the same system (the same positions and market data) either both
    fail, or both return, and then the initial requirement is greater than
    or equal to the maintenance requirement. *)
Theorem get_margin_requirement_initial_ge_maintenance (s : Sys) :
  initial_at_least_maintenance ->
  data_model_invariants ->
  match get_margin_requirement (Some MAINTENANCE) (Some (of_Z 0)) s,
        get_margin_requirement (Some INITIAL) (Some (of_Z 0)) s with
  | (Ok maintenance, _), (Ok initial, _) => leb maintenance initial = true
  | (Err _, _), (Err _, _) => True
  | _, _ => False
  end.
Proof.
  intros Hf Hi.
  pose proof (margin_requirement_initial_ge_maintenance Hf Hi
                (Some (of_Z 0)) s) as [_ H].
  destruct (get_margin_requirement (Some MAINTENANCE) (Some (of_Z 0)) s)
    as [[a | e] s1],
    (get_margin_requirement (Some INITIAL) (Some (of_Z 0)) s)
    as [[b | e'] s2]; simpl in H; auto.
Qed.

End InitialMaintenanceOrder.

(** ** Liquidity-provider shares *)

Section LpShares.

Context {num : Type} {PN : PyNum num} {DT : DriftTypes num}
        {DM : DriftMath num}.

Lemma Forall2_same_but_lp_shares_refl (l : list (PerpPosition num)) :
  Forall2 same_but_lp_shares l l.
Proof. induction l; constructor; auto. repeat split. Qed.

Lemma update_nth_same_but_lp_shares shares (l : list (PerpPosition num)) :
  forall i,
    Forall2 same_but_lp_shares l (update_nth i (with_lp_shares shares) l).
Proof.
  induction l as [ | p l IH ]; intros [ | i ]; simpl; try constructor.
  - repeat split.
  - apply Forall2_same_but_lp_shares_refl.
  - repeat split.
  - apply IH.
Qed.

Section Simulation.

Variables (i : nat) (shares : num).

Lemma sim_ret {A B} (R : A -> B -> Prop) a b :
  R a b -> sim i shares R (ret a) (ret b).
Proof. intros HR s. split; [ reflexivity | exact HR ]. Qed.

Lemma sim_raise {A B} (R : A -> B -> Prop) e :
  sim i shares R (raise e) (raise e).
Proof. intros s. split; reflexivity. Qed.

Lemma sim_bind {A B A' B'} (R : A -> B -> Prop) (R' : A' -> B' -> Prop)
  (m1 : M A) (m2 : M B) (k1 : A -> M A') (k2 : B -> M B') :
  sim i shares R m1 m2 ->
  (forall a b, R a b -> sim i shares R' (k1 a) (k2 b)) ->
  sim i shares R' (bind m1 k1) (bind m2 k2).
Proof.
  intros Hm Hk s. unfold bind. specialize (Hm s).
  destruct (m1 s) as [[a | e] s1],
           (m2 (sys_with_lp_shares i shares s)) as [[b | e'] s2];
    destruct Hm as [Hs Hr]; simpl in Hs, Hr; subst; try contradiction.
  - apply Hk, Hr.
  - split; reflexivity.
Qed.

Lemma sim_for_each {A A' B B'} (P : A -> A' -> Prop) (R : B -> B' -> Prop)
  (body1 : B -> A -> M B) (body2 : B' -> A' -> M B') :
  (forall x x' acc acc', P x x' -> R acc acc' ->
     sim i shares R (body1 acc x) (body2 acc' x')) ->
  forall l l', Forall2 P l l' ->
  forall acc acc', R acc acc' ->
  sim i shares R (for_each l acc body1) (for_each l' acc' body2).
Proof.
  intros Hbody l l' HF. induction HF as [ | x x' l l' Hx HF IH ];
    intros acc acc' Hacc; simpl.
  - apply sim_ret, Hacc.
  - apply sim_bind with (R := R).
    + apply Hbody; assumption.
    + intros a b Hab. apply IH, Hab.
Qed.

Lemma sim_py_div (a b : num) : sim i shares eq (py_div a b) (py_div a b).
Proof.
  unfold py_div. destruct (eqb b (of_Z 0));
    [ apply sim_raise | apply sim_ret; reflexivity ].
Qed.

(** Opens the object and the world of an accessor's simulation goal. *)
Ltac open_accessor :=
  intros [[a n uc cis [[c1 c2 c3 c4 c5 c6] | ]] [la f]];
  unfold sim_run, sys_with_lp_shares, bind, self_use_cache, self_authority,
    self_subaccount_id, assert_cache_is_set, cache_get, py_index, fetch,
    ret, raise;
  destruct uc, cis; cbn; try (split; reflexivity).

(** The accessors of markets and prices do not see the account. *)
Lemma sim_get_perp_market k :
  sim i shares eq (get_perp_market k) (get_perp_market k).
Proof.
  unfold get_perp_market, get_perp_market_account. open_accessor.
  1: { destruct c4 as [ l | ]; cbn; [ | split; reflexivity ].
       destruct (nth_error l k); split; reflexivity. }
  all: destruct (perp_market_account (la (length f)) k); split; reflexivity.
Qed.

Lemma sim_get_perp_oracle_data m :
  sim i shares eq (get_perp_oracle_data m) (get_perp_oracle_data m).
Proof.
  unfold get_perp_oracle_data, get_oracle_data. open_accessor.
  1: { destruct c5 as [ l | ]; cbn; [ | split; reflexivity ].
       destruct (nth_error l (perp_market_index m)); split; reflexivity. }
  all: destruct (oracle_data (la (length f)) (amm_oracle m)); split; reflexivity.
Qed.

(** [get_user] returns the account with the [lp_shares] replaced. *)
Lemma sim_get_user :
  sim i shares (fun u u' => u' = user_with_lp_shares i shares u)
      get_user get_user.
Proof.
  unfold get_user, get_user_account. open_accessor.
  1: { destruct c6 as [ u | ]; split; reflexivity. }
  all: destruct (user_account (la (length f)) a n); split; reflexivity.
Qed.

Lemma sim_get_total_perp_positon mc buffer orders :
  worst_case_ignores_lp_shares ->
  sim i shares eq (get_total_perp_positon mc buffer orders)
                  (get_total_perp_positon mc buffer orders).
Proof.
  intros Hw. unfold get_total_perp_positon.
  apply sim_bind with (R := fun u u' => u' = user_with_lp_shares i shares u);
    [ apply sim_get_user | ].
  intros user ? ->. simpl perp_positions. simpl max_margin_ratio.
  apply sim_for_each with (P := same_but_lp_shares);
    [ | apply update_nth_same_but_lp_shares | reflexivity ].
  intros p p' acc ? Hp <-.
  pose proof (Hw p p' Hp) as Hworst.
  destruct Hp as [Hi [Hb _]]. rewrite <- Hi.
  apply sim_bind with (R := eq); [ apply sim_get_perp_market | ].
  intros market ? <-.
  apply sim_bind with (R := eq).
  { destruct (ltb (of_Z 0) (lp_shares p)), (ltb (of_Z 0) (lp_shares p'));
      apply sim_ret; reflexivity. }
  intros _ _ _.
  apply sim_bind with (R := eq); [ apply sim_get_perp_oracle_data | ].
  intros oracle ? <-. cbv zeta. rewrite <- Hworst, <- Hb.
  apply sim_bind with (R := eq); [ apply sim_py_div | ].
  intros base_value ? <-.
  apply sim_bind with (R := eq).
  { destruct mc; [ apply sim_py_div | apply sim_ret; reflexivity ]. }
  intros v ? <-. apply sim_ret. reflexivity.
Qed.

End Simulation.

(** C10.  Given that [calculate_worst_case_base_asset_amount] does not read
    a position's [lp_shares], [get_total_perp_positon] returns the same for
    two accounts that differ only in the [lp_shares] of one perpetual
    position: replacing the [lp_shares] of the [i]-th position of the account,
    in the cache and on the ledger, all market data being the same, does not
    change the result. *)
Theorem get_total_perp_positon_ignores_lp_shares
  (margin_category : option MarginCategory) (liquidation_buffer : option num)
  (include_open_orders : bool) (i : nat) (shares : num) (s : Sys) :
  worst_case_ignores_lp_shares ->
  fst (get_total_perp_positon margin_category liquidation_buffer
         include_open_orders (sys_with_lp_shares i shares s))
  = fst (get_total_perp_positon margin_category liquidation_buffer
           include_open_orders s).
Proof.
  intros Hw.
  destruct (sim_get_total_perp_positon i shares margin_category
              liquidation_buffer include_open_orders Hw s) as [_ H].
  destruct (fst (get_total_perp_positon margin_category liquidation_buffer
                   include_open_orders s)) as [ a | e ],
           (fst (get_total_perp_positon margin_category liquidation_buffer
                   include_open_orders (sys_with_lp_shares i shares s)))
             as [ b | e' ]; try contradiction; congruence.
Qed.

End LpShares.

(** ** The sample satisfies the assumptions *)

Lemma of_N_nonneg (n : N) : (0 <= Sample.of_N n)%Q.
Proof.
  unfold Sample.of_N, Qle. simpl. rewrite Z.mul_1_r. apply N2Z.is_nonneg.
Qed.

Lemma of_N_le (n m : N) : N.leb n m = true -> (Sample.of_N n <= Sample.of_N m)%Q.
Proof.
  intros H. apply N.leb_le in H. unfold Sample.of_N.
  rewrite <- Zle_Qle. apply N2Z.inj_le, H.
Qed.

Lemma sample_buffer_is_additive : buffer_is_additive (num := Q).
Proof.
  intros amount o m mc ratio. simpl. unfold Sample.spot_liability_value.
  destruct mc as [ [ | ] | ]; try reflexivity;
    cbv zeta; rewrite Q_add_zero_r; reflexivity.
Qed.

Lemma sample_worst_case_ignores_lp_shares :
  worst_case_ignores_lp_shares (num := Q).
Proof.
  intros p p' [_ [Hb Hr]]. simpl. unfold Sample.worst_case_base_asset_amount.
  rewrite Hb, Hr. reflexivity.
Qed.

Lemma sample_token_value_nonneg (amount : Q) o m :
  (0 <= amount)%Q -> (0 <= Sample.token_value amount o m)%Q.
Proof.
  intros Ha. unfold Sample.token_value, Qdiv.
  apply Qmult_le_0_compat.
  - apply Qmult_le_0_compat; [ exact Ha | ].
    destruct o; simpl; [ discriminate | apply of_N_nonneg ].
  - apply Qinv_le_0_compat, of_N_nonneg.
Qed.

Lemma sample_initial_at_least_maintenance :
  initial_at_least_maintenance (num := Q).
Proof.
  split.
  - intros market size. apply Q_leb_iff. simpl.
    apply of_N_le, Sample.margin_ratios_ordered.
  - intros amount o m buffer ratio Ha. apply Q_leb_iff in Ha.
    apply Q_leb_iff. simpl. unfold Sample.spot_liability_value.
    apply Q_div_le_mono; [ reflexivity | ].
    rewrite (Qmult_comm _ (match buffer with Some b => _ | None => _ end)).
    rewrite (Qmult_comm (Sample.token_value amount o m)).
    apply Qmult_le_compat_r; [ | apply sample_token_value_nonneg, Ha ].
    assert (Hw : (Sample.of_N (Sample.maintenance_liability_weight m)
                  <= py_max (Sample.of_N (Sample.initial_liability_weight m))
                            ratio)%Q).
    { eapply Qle_trans;
        [ apply of_N_le, Sample.liability_weights_ordered | ].
      apply Q_leb_iff. apply py_max_ge_l. }
    destruct buffer as [ b | ]; [ | exact Hw ].
    apply Qplus_le_compat; [ exact Hw | apply Qle_refl ].
Qed.

Lemma sample_data_model_invariants : data_model_invariants (num := Q).
Proof.
  repeat split.
  - intros o. apply Q_leb_iff. apply of_N_nonneg.
  - intros b m d. apply Q_leb_iff. apply of_N_nonneg.
Qed.

(** ** The theorems on the sample *)

(** C3, counterexample.  For an account that holds nothing, its eight spot
    and eight perpetual entries unused, and the category [INITIAL]: the
    margin requirement is 0 and the specification's formula gives the
    leverage 0, and [get_leverage] raises [NotImplementedError]. *)
Lemma get_leverage_initial_raises :
  let s := Sample.refreshed SampleLookups.unused_account in
  (exists requirement,
      fst (get_margin_requirement (Some INITIAL) (Some (of_Z 0)) s)
      = Ok requirement /\
      eqb requirement (of_Z 0) = true) /\
  fst (spec_leverage (Some INITIAL) s) = Ok 0%Q /\
  fst (get_leverage (Some INITIAL) s) = Err NotImplementedError /\
  get_leverage (Some INITIAL) s <> spec_leverage (Some INITIAL) s.
Proof.
  intros s.
  assert (H1 : fst (spec_leverage (Some INITIAL) s) = Ok 0%Q)
    by (vm_compute; reflexivity).
  assert (H2 : fst (get_leverage (Some INITIAL) s) = Err NotImplementedError)
    by (vm_compute; reflexivity).
  split; [ eexists; split; vm_compute; reflexivity | ].
  split; [ exact H1 | split; [ exact H2 | ] ].
  intros E. rewrite E in H2. rewrite H2 in H1. clear E H2. discriminate H1.
Qed.

Lemma get_leverage_formula_or_unsupported_witness :
  let s := Sample.refreshed Sample.trader in
  get_leverage None s = spec_leverage None s /\
  (exists v, fst (get_leverage None s) = Ok v /\ Qeq_bool v 7000 = true) /\
  fst (get_leverage (Some MAINTENANCE)
         (Sample.refreshed SampleLookups.unused_account))
  = Err NotImplementedError.
Proof.
  intros s.
  destruct (get_leverage_formula_or_unsupported sample_buffer_is_additive)
    as [H1 [H2 H3]].
  split; [ apply H1 | ]. split.
  - eexists. split.
    + erewrite (H2 s _ s _ s); [ reflexivity | | ]; vm_compute; reflexivity.
    + vm_compute. reflexivity.
  - pose (t := Sample.refreshed SampleLookups.unused_account).
    eapply (H3 MAINTENANCE t _ t _ t _ t SampleLookups.unused_account t).
    + vm_compute. reflexivity.
    + vm_compute. reflexivity.
    + vm_compute. reflexivity.
    + vm_compute. reflexivity.
    + vm_compute. discriminate.
Defined.

Lemma get_free_collateral_clamped_witness :
  let s := Sample.refreshed Sample.trader in
  get_free_collateral s = spec_free_collateral s /\
  exists v, fst (get_free_collateral s) = Ok v /\
            Qeq_bool v 710000000 = true /\ ltb v (of_Z 0) = false.
Proof.
  intros s. destruct (get_free_collateral_clamped s) as [H1 H2].
  split; [ exact H1 | ].
  eexists. split; [ vm_compute; reflexivity | ].
  split; [ vm_compute; reflexivity | ].
  eapply (H2 _ s). vm_compute. reflexivity.
Defined.

Lemma get_margin_requirement_initial_ge_maintenance_witness :
  let s := Sample.refreshed Sample.trader in
  match get_margin_requirement (Some MAINTENANCE) (Some (of_Z 0)) s,
        get_margin_requirement (Some INITIAL) (Some (of_Z 0)) s with
  | (Ok maintenance, _), (Ok initial, _) =>
      Qeq_bool maintenance 245000000 = true /\
      Qeq_bool initial 290000000 = true /\
      leb maintenance initial = true
  | _, _ => False
  end.
Proof.
  intros s.
  pose proof (get_margin_requirement_initial_ge_maintenance s
                sample_initial_at_least_maintenance
                sample_data_model_invariants) as H.
  eassert (Ea : get_margin_requirement (Some MAINTENANCE) (Some (of_Z 0)) s
                = (Ok _, _)) by (vm_compute; reflexivity).
  eassert (Eb : get_margin_requirement (Some INITIAL) (Some (of_Z 0)) s
                = (Ok _, _)) by (vm_compute; reflexivity).
  rewrite Ea, Eb in H. rewrite Ea, Eb.
  split; [ vm_compute; reflexivity | ].
  split; [ vm_compute; reflexivity | exact H ].
Defined.

Lemma can_be_liquidated_formula_witness :
  let s := Sample.refreshed Sample.liquidated_trader in
  can_be_liquidated s = spec_can_be_liquidated s /\
  fst (can_be_liquidated s) = Ok false.
Proof.
  intros s. split.
  - apply (can_be_liquidated_formula s sample_buffer_is_additive).
  - vm_compute. reflexivity.
Defined.

Lemma get_total_perp_positon_ignores_lp_shares_witness :
  let s := Sample.refreshed Sample.trader in
  fst (get_total_perp_positon (Some INITIAL) None true
         (sys_with_lp_shares 0 7 s))
  = fst (get_total_perp_positon (Some INITIAL) None true s) /\
  fst (get_user (sys_with_lp_shares 0 7 s))
  = Ok (user_with_lp_shares 0 7 Sample.trader).
Proof.
  intros s. split.
  - apply (get_total_perp_positon_ignores_lp_shares (Some INITIAL) None true
             0 7 s sample_worst_case_ignores_lp_shares).
  - vm_compute. reflexivity.
Defined.

(** ** The methods on the sample *)

(** [set_cache] fetches the state, each spot market and (but for market 0)
    its oracle, each perpetual market and its oracle, and the user. *)
Example set_cache_fetches :
  set_cache (Sample.fresh_cached Sample.trader)
  = (Ok tt, Sample.refreshed Sample.trader) /\
  fetches (world (Sample.refreshed Sample.trader))
  = [FetchState; FetchSpotMarket 0; FetchSpotMarket 1;
     FetchOracle Sample.sol_oracle_key; FetchPerpMarket 0;
     FetchOracle Sample.sol_oracle_key; FetchUser Sample.the_authority 0].
Proof. split; vm_compute; reflexivity. Qed.

(** The trader: collateral 1000, liabilities 500 (perpetual) and 200 (spot)
    before weighting, leverage 7000 basis points. *)
Example trader_numbers :
  let s := Sample.refreshed Sample.trader in
  (exists v, fst (get_total_collateral None s) = Ok v /\
             Qeq_bool v 1000000000 = true) /\
  (exists v, fst (get_margin_requirement None None s) = Ok v /\
             Qeq_bool v 700000000 = true) /\
  (exists v, fst (get_leverage None s) = Ok v /\ Qeq_bool v 7000 = true) /\
  fst (can_be_liquidated s) = Ok false.
Proof.
  intros s.
  split; [ eexists; split; vm_compute; reflexivity | ].
  split; [ eexists; split; vm_compute; reflexivity | ].
  split; [ eexists; split; vm_compute; reflexivity | ].
  vm_compute; reflexivity.
Qed.

(** In live mode every call reads the ledger of the moment: the same object
    gives another leverage once the ledger has changed, and its calls are
    recorded. *)
Example live_mode_follows_the_ledger :
  let o := self (Sample.live Sample.trader) in
  (exists v, fst (get_leverage None (Sample.live Sample.trader)) = Ok v /\
             Qeq_bool v 7000 = true) /\
  fst (get_leverage None {| self := o; world := Sample.changed_world |})
  = Ok 0%Q /\
  fetches (world (snd (get_user (Sample.live Sample.trader))))
  = [FetchUser Sample.the_authority 0].
Proof.
  intros o. split; [ eexists; split; vm_compute; reflexivity | ].
  split; vm_compute; reflexivity.
Qed.

(** A refresh that fails half-way leaves [cache_is_set] set and the cache
    without the user: the accessor then fails on the missing key. *)
Example failed_refresh :
  let s0 := {| self := init Sample.clearing_house None 0 true;
               world := Sample.world_without_account |} in
  fst (set_cache s0) = Err DataUnavailable /\
  cache_is_set (self (snd (set_cache s0))) = true /\
  fst (get_user (snd (set_cache s0))) = Err KeyError.
Proof. repeat split; vm_compute; reflexivity. Qed.

(** * Further properties of the module *)

(** ** [find] and the position lookups *)

Lemma find_some_first {A} (l : list A) (f : A -> bool) (v : A) :
  find l f = Some v <->
  exists l1 l2, l = l1 ++ v :: l2 /\ f v = true /\
                Forall (fun x => f x = false) l1.
Proof.
  unfold find. induction l as [ | x l IH ]; simpl.
  - split; [ discriminate | ].
    intros [l1 [l2 [E _]]]. destruct l1; discriminate.
  - destruct (f x) eqn:Fx.
    + split.
      * intros E. inversion E; subst. exists [], l. repeat split; auto.
      * intros [l1 [l2 [E [Fv Hl1]]]]. destruct l1 as [ | y l1 ].
        -- simpl in E. inversion E. reflexivity.
        -- simpl in E. inversion E; subst. inversion Hl1; subst. congruence.
    + rewrite IH. split.
      * intros [l1 [l2 [E [Fv Hl1]]]]. exists (x :: l1), l2.
        subst. repeat split; auto.
      * intros [l1 [l2 [E [Fv Hl1]]]]. destruct l1 as [ | y l1 ].
        -- simpl in E. inversion E; subst. congruence.
        -- simpl in E. inversion E; subst. inversion Hl1; subst.
           exists l1, l2. repeat split; auto.
Qed.

Lemma find_none_all {A} (l : list A) (f : A -> bool) :
  find l f = None <-> Forall (fun x => f x = false) l.
Proof.
  unfold find. induction l as [ | x l IH ]; simpl.
  - split; auto.
  - destruct (f x) eqn:Fx.
    + split; [ discriminate | ]. intros H. inversion H; subst. congruence.
    + rewrite IH. split.
      * intros H. constructor; assumption.
      * intros H. inversion H; assumption.
Qed.

Lemma find_characterised {A} (l : list A) (f : A -> bool) :
  match find l f with
  | Some v =>
      exists l1 l2, l = l1 ++ v :: l2 /\ f v = true /\
                    Forall (fun x => f x = false) l1
  | None => Forall (fun x => f x = false) l
  end.
Proof.
  destruct (find l f) as [ v | ] eqn:E.
  - apply find_some_first, E.
  - apply find_none_all, E.
Qed.

(** X1.  [find(l, f)] returns the first value of [l] that [f] accepts: a
    result [v] splits [l] into values that [f] rejects, [v], and a rest; and
    it returns [None] exactly when [f] rejects every value of [l]. *)
Theorem find_first_accepted {A} (l : list A) (f : A -> bool) :
  match find l f with
  | Some v =>
      exists l1 l2, l = l1 ++ v :: l2 /\ f v = true /\
                    Forall (fun x => f x = false) l1
  | None => Forall (fun x => f x = false) l
  end.
Proof. exact (find_characterised l f). Qed.

(** The loop with [break] and the flag [found] computes [find]. *)
Lemma scan_is_find {A} (test : A -> bool) (l : list A) (position : option A) :
  (let '(found, position') := scan test l position in
   if negb found then None else position') = find l test.
Proof.
  revert position. unfold find.
  induction l as [ | x l IH ]; intros position; simpl.
  - reflexivity.
  - destruct (test x); [ reflexivity | apply IH ].
Qed.

Section LookupProperties.

Context {num : Type} {PN : PyNum num} {DT : DriftTypes num}
        {DM : DriftMath num}.

Variable is_available : PerpPosition num -> bool.

Lemma lookup_is_find {A} (test : A -> bool) (l : list A) (s : Sys) :
  (let '(found, position) := scan test l None in
   if negb found then ret None else ret position) s
  = (Ok (find l test), s).
Proof.
  rewrite <- (scan_is_find test l None).
  destruct (scan test l None) as [[ | ] position]; reflexivity.
Qed.

(** X2.  [get_user_spot_position(market_index)] fails as [get_user] fails;
    otherwise it returns the first position of [user.spot_positions] that is
    in the market and not available (every position before it is in another
    market or available), and [None] when there is no such position, also
    for an account without positions. *)
Theorem get_user_spot_position_first (i : nat) (s : Sys) :
  match get_user s with
  | (Err e, s') => get_user_spot_position i s = (Err e, s')
  | (Ok user, s') =>
      exists r, get_user_spot_position i s = (Ok r, s') /\
        let test p := Nat.eqb (spot_position_market_index p) i
                      && negb (is_spot_position_available p) in
        match r with
        | Some p =>
            spot_position_market_index p = i /\
            is_spot_position_available p = false /\
            exists before after,
              spot_positions user = before ++ p :: after /\
              Forall (fun x => test x = false) before
        | None => Forall (fun x => test x = false) (spot_positions user)
        end
  end.
Proof.
  unfold get_user_spot_position, bind.
  destruct (get_user s) as [[user | e] s']; [ | reflexivity ].
  rewrite lookup_is_find. eexists. split; [ reflexivity | ].
  cbv zeta.
  match goal with |- match find ?l ?t with _ => _ end =>
    pose proof (find_characterised l t) as H; destruct (find l t) as [ p | ]
  end.
  - destruct H as [l1 [l2 [E [T F]]]].
    apply andb_true_iff in T. destruct T as [T1 T2].
    apply Nat.eqb_eq in T1. apply negb_true_iff in T2.
    repeat split; auto. exists l1, l2. split; assumption.
  - exact H.
Qed.

(** X3.  [get_user_position(market_index)] fails as [get_user] fails;
    otherwise it returns the first position of [user.perp_positions] that is
    in the market and not available, and [None] when there is none. *)
Theorem get_user_position_first (i : nat) (s : Sys) :
  match get_user s with
  | (Err e, s') => get_user_position is_available i s = (Err e, s')
  | (Ok user, s') =>
      exists r, get_user_position is_available i s = (Ok r, s') /\
        let test p := Nat.eqb (market_index p) i
                      && negb (is_available p) in
        match r with
        | Some p =>
            market_index p = i /\
            is_available p = false /\
            exists before after,
              perp_positions user = before ++ p :: after /\
              Forall (fun x => test x = false) before
        | None => Forall (fun x => test x = false) (perp_positions user)
        end
  end.
Proof.
  unfold get_user_position, bind.
  destruct (get_user s) as [[user | e] s']; [ | reflexivity ].
  rewrite lookup_is_find. eexists. split; [ reflexivity | ].
  cbv zeta.
  match goal with |- match find ?l ?t with _ => _ end =>
    pose proof (find_characterised l t) as H; destruct (find l t) as [ p | ]
  end.
  - destruct H as [l1 [l2 [E [T F]]]].
    apply andb_true_iff in T. destruct T as [T1 T2].
    apply Nat.eqb_eq in T1. apply negb_true_iff in T2.
    repeat split; auto. exists l1, l2. split; assumption.
  - exact H.
Qed.

End LookupProperties.

(** ** What the queries leave untouched *)

Section ReadOnly.

Context {num : Type} {PN : PyNum num} {DT : DriftTypes num}
        {DM : DriftMath num}.

Variable is_available : PerpPosition num -> bool.

Lemma read_only_unchanged {A} (m : M A) :
  (forall s, snd (m s) = s) -> read_only m.
Proof.
  intros H s. rewrite H. repeat split. exists []. symmetry. apply app_nil_r.
Qed.

Lemma read_only_ret {A} (a : A) : read_only (ret a).
Proof. apply read_only_unchanged. reflexivity. Qed.

Lemma read_only_raise {A} (e : exception) : read_only (@raise _ _ A e).
Proof. apply read_only_unchanged. reflexivity. Qed.

Lemma read_only_bind {A B} (m : M A) (k : A -> M B) :
  read_only m -> (forall a, read_only (k a)) -> read_only (bind m k).
Proof.
  intros Hm Hk s. unfold bind. specialize (Hm s).
  destruct (m s) as [[a | e] s1]; simpl in Hm; [ | exact Hm ].
  destruct Hm as [H1 [H2 [l1 H3]]].
  destruct (Hk a s1) as [K1 [K2 [l2 K3]]].
  split; [ congruence | ]. split; [ congruence | ].
  exists (l1 ++ l2). rewrite K3, H3. symmetry. apply app_assoc.
Qed.

Lemma read_only_for_each {A B} (l : list A) (body : B -> A -> M B) :
  (forall acc x, read_only (body acc x)) ->
  forall acc, read_only (for_each l acc body).
Proof.
  intros Hbody. induction l as [ | x l IH ]; intros acc; simpl.
  - apply read_only_ret.
  - apply read_only_bind; [ apply Hbody | exact IH ].
Qed.

Lemma read_only_fetch {A} q (answer : Ledger -> option A) :
  read_only (fetch q answer).
Proof.
  intros s. unfold fetch.
  destruct (answer _); simpl; repeat split; exists [q]; reflexivity.
Qed.

Lemma read_only_py_div (a b : num) : read_only (py_div a b).
Proof.
  unfold py_div. destruct (eqb b (of_Z 0));
    [ apply read_only_raise | apply read_only_ret ].
Qed.

Lemma read_only_py_index {A} (l : list A) (i : nat) : read_only (py_index l i).
Proof.
  unfold py_index. destruct (nth_error l i);
    [ apply read_only_ret | apply read_only_raise ].
Qed.

Lemma read_only_cache_get {A} (key : Cache -> option A) :
  read_only (cache_get key).
Proof.
  apply read_only_unchanged. intros s. unfold cache_get.
  destruct (CACHE (self s)) as [ c | ]; [ destruct (key c) | ]; reflexivity.
Qed.

Lemma read_only_assert_cache_is_set : read_only assert_cache_is_set.
Proof.
  apply read_only_unchanged. intros s. unfold assert_cache_is_set.
  destruct (cache_is_set (self s)); reflexivity.
Qed.

Lemma read_only_self_use_cache : read_only self_use_cache.
Proof. apply read_only_unchanged. reflexivity. Qed.

Lemma read_only_self_authority : read_only self_authority.
Proof. apply read_only_unchanged. reflexivity. Qed.

Lemma read_only_self_subaccount_id : read_only self_subaccount_id.
Proof. apply read_only_unchanged. reflexivity. Qed.

(** Decomposes a query into steps that are read-only. *)
Ltac read_only_steps :=
  repeat first
    [ apply read_only_ret
    | apply read_only_raise
    | apply read_only_fetch
    | apply read_only_py_div
    | apply read_only_py_index
    | apply read_only_cache_get
    | apply read_only_assert_cache_is_set
    | apply read_only_self_use_cache
    | apply read_only_self_authority
    | apply read_only_self_subaccount_id
    | match goal with H : _ |- _ => apply H end
    | apply read_only_bind
    | apply read_only_for_each
    | match goal with
      | |- forall _, _ => intro
      | |- read_only (if ?c then _ else _) => destruct c
      | |- read_only (match ?x with _ => _ end) => destruct x
      end ].

Lemma read_only_get_state : read_only get_state.
Proof. unfold get_state. read_only_steps. Qed.

Lemma read_only_get_user : read_only get_user.
Proof. unfold get_user. read_only_steps. Qed.

Lemma read_only_get_spot_market i : read_only (get_spot_market i).
Proof. unfold get_spot_market. read_only_steps. Qed.

Lemma read_only_get_perp_market i : read_only (get_perp_market i).
Proof. unfold get_perp_market. read_only_steps. Qed.

Lemma read_only_get_spot_oracle_data m : read_only (get_spot_oracle_data m).
Proof. unfold get_spot_oracle_data. read_only_steps. Qed.

Lemma read_only_get_perp_oracle_data m : read_only (get_perp_oracle_data m).
Proof. unfold get_perp_oracle_data. read_only_steps. Qed.

Lemma read_only_get_spot_market_liability i mc buffer orders :
  read_only (get_spot_market_liability i mc buffer orders).
Proof.
  pose proof read_only_get_user. pose proof read_only_get_spot_market.
  pose proof read_only_get_spot_oracle_data.
  unfold get_spot_market_liability. read_only_steps.
Qed.

Lemma read_only_get_spot_market_asset_value mc orders i :
  read_only (get_spot_market_asset_value mc orders i).
Proof.
  pose proof read_only_get_user. pose proof read_only_get_spot_market.
  pose proof read_only_get_spot_oracle_data.
  unfold get_spot_market_asset_value. read_only_steps.
Qed.

Lemma read_only_get_total_perp_positon mc buffer orders :
  read_only (get_total_perp_positon mc buffer orders).
Proof.
  pose proof read_only_get_user. pose proof read_only_get_perp_market.
  pose proof read_only_get_perp_oracle_data.
  unfold get_total_perp_positon. read_only_steps.
Qed.

Lemma read_only_get_unrealized_pnl funding i mc :
  read_only (get_unrealized_pnl funding i mc).
Proof.
  pose proof read_only_get_user. pose proof read_only_get_perp_market.
  pose proof read_only_get_perp_oracle_data.
  unfold get_unrealized_pnl. read_only_steps.
Qed.

Lemma read_only_get_margin_requirement mc buffer :
  read_only (get_margin_requirement mc buffer).
Proof.
  pose proof read_only_get_total_perp_positon.
  pose proof read_only_get_spot_market_liability.
  unfold get_margin_requirement. read_only_steps.
Qed.

Lemma read_only_get_total_collateral mc : read_only (get_total_collateral mc).
Proof.
  pose proof read_only_get_unrealized_pnl.
  pose proof read_only_get_spot_market_asset_value.
  unfold get_total_collateral. read_only_steps.
Qed.

(** X4.  The queries never write: [get_leverage], [can_be_liquidated],
    [get_free_collateral], [get_total_collateral], [get_margin_requirement]
    and the two position lookups, in either mode and whether they return or
    raise, leave every attribute of the object (the cache included) and the
    ledger as they were, and only add requests to those already made. *)
Theorem queries_are_read_only :
  (forall mc, read_only (get_leverage mc)) /\
  read_only can_be_liquidated /\
  read_only get_free_collateral /\
  (forall mc, read_only (get_total_collateral mc)) /\
  (forall mc buffer, read_only (get_margin_requirement mc buffer)) /\
  (forall i, read_only (get_user_spot_position i)) /\
  (forall i, read_only (get_user_position is_available i)).
Proof.
  pose proof read_only_get_user. pose proof read_only_get_state.
  pose proof read_only_get_total_collateral.
  pose proof read_only_get_margin_requirement.
  repeat match goal with |- _ /\ _ => split end; intros.
  - unfold get_leverage. read_only_steps.
  - unfold can_be_liquidated. read_only_steps.
  - unfold get_free_collateral. read_only_steps.
  - apply read_only_get_total_collateral.
  - apply read_only_get_margin_requirement.
  - unfold get_user_spot_position. read_only_steps.
  - unfold get_user_position. read_only_steps.
Qed.

End ReadOnly.

(** ** [set_cache] *)

Section Triples.

Context {num : Type} {PN : PyNum num} {DT : DriftTypes num}
        {DM : DriftMath num}.

Lemma hoare_bind {A B} (P : Sys -> Prop) (Q : A -> Sys -> Prop)
  (R : B -> Sys -> Prop) (E : Sys -> Prop) (m : M A) (k : A -> M B) :
  hoare P m Q E -> (forall a, hoare (Q a) (k a) R E) ->
  hoare P (bind m k) R E.
Proof.
  intros Hm Hk s HP. unfold bind. specialize (Hm s HP).
  destruct (m s) as [[a | e] s1]; [ apply Hk, Hm | exact Hm ].
Qed.

Lemma hoare_pre {A} (P P' : Sys -> Prop) (Q : A -> Sys -> Prop)
  (E : Sys -> Prop) (m : M A) :
  (forall s, P' s -> P s) -> hoare P m Q E -> hoare P' m Q E.
Proof. intros HP Hm s Hs. apply Hm, HP, Hs. Qed.

Lemma hoare_post {A} (P : Sys -> Prop) (Q Q' : A -> Sys -> Prop)
  (E : Sys -> Prop) (m : M A) :
  (forall a s, Q a s -> Q' a s) -> hoare P m Q E -> hoare P m Q' E.
Proof.
  intros HQ Hm s Hs. specialize (Hm s Hs).
  destruct (m s) as [[a | e] s1]; [ apply HQ, Hm | exact Hm ].
Qed.

Lemma hoare_fact {A} (F : Prop) (P : Sys -> Prop) (Q : A -> Sys -> Prop)
  (E : Sys -> Prop) (m : M A) :
  (F -> hoare P m Q E) -> hoare (fun s => P s /\ F) m Q E.
Proof. intros H s [Hs HF]. apply H; assumption. Qed.

Lemma hoare_ret {A} (P : Sys -> Prop) (Q : A -> Sys -> Prop)
  (E : Sys -> Prop) (a : A) :
  (forall s, P s -> Q a s) -> hoare P (ret a) Q E.
Proof. intros H s Hs. apply H, Hs. Qed.

Lemma hoare_for_each_seq {B} (Inv : nat -> B -> Sys -> Prop)
  (E : Sys -> Prop) (body : B -> nat -> M B) :
  (forall i acc, hoare (Inv i acc) (body acc i) (Inv (S i)) E) ->
  forall n a acc,
    hoare (Inv a acc) (for_each (seq a n) acc body) (Inv (a + n)%nat) E.
Proof.
  intros Hbody. induction n as [ | n IH ]; intros a acc; simpl.
  - rewrite Nat.add_0_r. apply hoare_ret. auto.
  - eapply hoare_bind; [ apply Hbody | ].
    intros acc'. rewrite Nat.add_succ_r. apply (IH (S a)).
Qed.

End Triples.

Section Refresh.

Context {num : Type} {PN : PyNum num} {DT : DriftTypes num}
        {DM : DriftMath num}.

Variables (P : Ledger -> Prop) (o0 : ClearingHouseUser).

Lemma fetch_refreshing {A} (c : Cache) q (answer : Ledger -> option A) :
  cache_user c = None ->
  hoare (refreshing P o0 c) (fetch q answer)
        (fun a s => refreshing P o0 c s /\ exists L, P L /\ answer L = Some a)
        (refresh_failed P o0).
Proof.
  intros Hc s [Hs Hseen]. unfold fetch.
  destruct (answer (ledger_at (world s) (length (fetches (world s)))))
    as [ a | ] eqn:Ea.
  - split; [ split; [ exact Hs | exact Hseen ] | ].
    eexists. split; [ apply Hseen | exact Ea ].
  - exists c. split; [ split; [ exact Hs | exact Hseen ] | exact Hc ].
Qed.

Lemma cache_put_refreshing (c : Cache) (f : Cache -> Cache) (E : Sys -> Prop) :
  hoare (refreshing P o0 c) (cache_put f)
        (fun _ => refreshing P o0 (f c)) E.
Proof.
  intros s [Hs Hseen]. unfold cache_put. rewrite Hs. simpl.
  split; [ reflexivity | exact Hseen ].
Qed.

Lemma spot_rows_nil : spot_rows P [] [] 0.
Proof. repeat split. intros k Hk. inversion Hk. Qed.

Lemma perp_rows_nil : perp_rows P [] [] 0.
Proof. repeat split. intros k Hk. inversion Hk. Qed.

Lemma nth_error_snoc_old {A} (l : list A) (x : A) (k : nat) :
  (k < length l)%nat -> nth_error (l ++ [x]) k = nth_error l k.
Proof. intros H. apply nth_error_app1, H. Qed.

Lemma nth_error_snoc_new {A} (l : list A) (x : A) :
  nth_error (l ++ [x]) (length l) = Some x.
Proof. rewrite nth_error_app2, Nat.sub_diag; [ reflexivity | apply le_n ]. Qed.

Lemma spot_rows_snoc markets oracles i m x :
  spot_rows P markets oracles i ->
  (exists L, P L /\ spot_market_account L i = Some m) ->
  match i with
  | O => x = OracleOne
  | S _ => exists o L, P L /\ oracle_data L (spot_market_oracle m) = Some o /\
                       x = OracleData o
  end ->
  spot_rows P (markets ++ [m]) (oracles ++ [x]) (S i).
Proof.
  intros [Hm [Ho Hrows]] Hmarket Hx.
  split; [ rewrite length_app, Hm; simpl; apply Nat.add_1_r | ].
  split; [ rewrite length_app, Ho; simpl; apply Nat.add_1_r | ].
  intros k Hk. assert (Hk' : (k < i)%nat \/ k = i) by lia.
  clear Hk. destruct Hk' as [Hk | ->].
  - destruct (Hrows k Hk) as [m' [N1 [N2 N3]]]. exists m'.
    rewrite !nth_error_snoc_old by congruence.
    split; [ exact N1 | split; [ exact N2 | exact N3 ] ].
  - subst i. exists m. rewrite nth_error_snoc_new.
    split; [ reflexivity | split; [ exact Hmarket | ] ].
    assert (Hn : nth_error (oracles ++ [x]) (length markets) = Some x)
      by (rewrite <- Ho; apply nth_error_snoc_new).
    destruct (length markets) as [ | j ].
    + subst x. exact Hn.
    + destruct Hx as [o [L [HL [Hod ->]]]]. exists o, L. auto.
Qed.

Lemma perp_rows_snoc markets oracles i m o :
  perp_rows P markets oracles i ->
  (exists L, P L /\ perp_market_account L i = Some m) ->
  (exists L, P L /\ oracle_data L (amm_oracle m) = Some o) ->
  perp_rows P (markets ++ [m]) (oracles ++ [o]) (S i).
Proof.
  intros [Hm [Ho Hrows]] Hmarket Horacle.
  split; [ rewrite length_app, Hm; simpl; apply Nat.add_1_r | ].
  split; [ rewrite length_app, Ho; simpl; apply Nat.add_1_r | ].
  intros k Hk. assert (Hk' : (k < i)%nat \/ k = i) by lia.
  clear Hk. destruct Hk' as [Hk | ->].
  - destruct (Hrows k Hk) as [m' [o' [N1 [N2 [N3 N4]]]]]. exists m', o'.
    rewrite !nth_error_snoc_old by congruence. repeat split; assumption.
  - subst i. exists m, o. rewrite nth_error_snoc_new.
    assert (Hn : nth_error (oracles ++ [o]) (length markets) = Some o)
      by (rewrite <- Ho; apply nth_error_snoc_new).
    repeat split; assumption.
Qed.

Lemma update_self_triple (o : ClearingHouseUser)
  (f : ClearingHouseUser -> ClearingHouseUser) (E : Sys -> Prop) :
  hoare (fun s => self s = o /\ seen P s) (update_self f)
        (fun _ s => self s = f o /\ seen P s) E.
Proof.
  intros s [Hs Hseen]. unfold update_self. simpl. rewrite Hs.
  split; [ reflexivity | exact Hseen ].
Qed.

Lemma self_authority_refreshing (c : Cache) (E : Sys -> Prop) :
  hoare (refreshing P o0 c) self_authority
        (fun a s => refreshing P o0 c s /\ a = authority o0) E.
Proof.
  intros s [Hs Hseen]. unfold self_authority. rewrite Hs.
  split; [ split; assumption | reflexivity ].
Qed.

Lemma self_subaccount_id_refreshing (c : Cache) (E : Sys -> Prop) :
  hoare (refreshing P o0 c) self_subaccount_id
        (fun a s => refreshing P o0 c s /\ a = subaccount_id o0) E.
Proof.
  intros s [Hs Hseen]. unfold self_subaccount_id. rewrite Hs.
  split; [ split; assumption | reflexivity ].
Qed.

(** [set_cache] on the object [o0]: what holds when it returns and when it
    raises. *)
Lemma set_cache_triple :
  hoare (fun s => self s = o0 /\ seen P s) set_cache
        (fun _ => refreshed_from P o0) (refresh_failed P o0).
Proof.
  unfold set_cache.
  eapply hoare_bind; [ apply update_self_triple | intros ? ].
  eapply hoare_bind; [ apply update_self_triple | intros ? ].
  change (fun s => self s = with_CACHE (Some empty_cache)
                               (with_cache_is_set true o0) /\ seen P s)
    with (refreshing P o0 empty_cache).
  eapply hoare_bind; [ apply fetch_refreshing; reflexivity | intros state ].
  apply hoare_fact. intros Hstate.
  eapply hoare_bind; [ apply cache_put_refreshing | intros ? ].
  eapply hoare_bind.
  { eapply hoare_pre;
      [ | apply (hoare_for_each_seq
                   (fun i acc s =>
                      refreshing P o0 (put_state state empty_cache) s /\
                      spot_rows P (fst acc) (snd acc) i)) ].
    - intros s Hs. split; [ exact Hs | apply spot_rows_nil ].
    - intros i [markets oracles]. simpl fst. simpl snd.
      apply hoare_fact. intros Hrows.
      eapply hoare_bind; [ apply fetch_refreshing; reflexivity | ].
      intros spot_market. apply hoare_fact. intros Hmarket. cbv zeta.
      destruct i as [ | i ]; simpl Nat.eqb; cbv iota.
      + apply hoare_ret. intros s Hs. split; [ exact Hs | ].
        apply spot_rows_snoc; auto.
      + eapply hoare_bind; [ apply fetch_refreshing; reflexivity | ].
        intros oracle. apply hoare_fact. intros Horacle.
        apply hoare_ret. intros s Hs. split; [ exact Hs | ].
        apply spot_rows_snoc; auto.
        destruct Horacle as [L [HL Ho]]. exists oracle, L. auto. }
  intros [spot_markets spot_oracles]. simpl fst. simpl snd. cbv beta iota zeta.
  apply hoare_fact. intros Hspot.
  eapply hoare_bind; [ apply cache_put_refreshing | intros ? ].
  eapply hoare_bind; [ apply cache_put_refreshing | intros ? ].
  eapply hoare_bind.
  { eapply hoare_pre;
      [ | apply (hoare_for_each_seq
                   (fun i acc s =>
                      refreshing P o0
                        (put_spot_market_oracles spot_oracles
                           (put_spot_markets spot_markets
                              (put_state state empty_cache))) s /\
                      perp_rows P (fst acc) (snd acc) i)) ].
    - intros s Hs. split; [ exact Hs | apply perp_rows_nil ].
    - intros i [markets oracles]. simpl fst. simpl snd.
      apply hoare_fact. intros Hrows.
      eapply hoare_bind; [ apply fetch_refreshing; reflexivity | ].
      intros perp_market. apply hoare_fact. intros Hmarket. cbv zeta.
      eapply hoare_bind; [ apply fetch_refreshing; reflexivity | ].
      intros oracle. apply hoare_fact. intros Horacle.
      apply hoare_ret. intros s Hs. split; [ exact Hs | ].
      apply perp_rows_snoc; auto. }
  intros [perp_markets perp_oracles]. simpl fst. simpl snd. cbv beta iota zeta.
  apply hoare_fact. intros Hperp.
  eapply hoare_bind; [ apply cache_put_refreshing | intros ? ].
  eapply hoare_bind; [ apply cache_put_refreshing | intros ? ].
  eapply hoare_bind; [ apply self_authority_refreshing | intros auth ].
  apply hoare_fact. intros ->.
  eapply hoare_bind; [ apply self_subaccount_id_refreshing | intros sub ].
  apply hoare_fact. intros ->.
  eapply hoare_bind; [ apply fetch_refreshing; reflexivity | intros user ].
  apply hoare_fact. intros Huser.
  eapply hoare_post; [ | apply cache_put_refreshing ].
  intros ? s Hs. exists state, spot_markets, spot_oracles, perp_markets,
    perp_oracles, user.
  split; [ exact Hs | ].
  split; [ exact Hstate | ]. split; [ exact Hspot | ].
  split; [ exact Hperp | exact Huser ].
Qed.

End Refresh.

Section RefreshProperties.

Context {num : Type} {PN : PyNum num} {DT : DriftTypes num}
        {DM : DriftMath num}.

(** The accessors in cached mode on an object whose guard flag is set: each
    is a lookup in the cache. *)
Lemma cached_reads (s : Sys) (c : Cache) :
  use_cache (self s) = true -> cache_is_set (self s) = true ->
  CACHE (self s) = Some c ->
  get_state s
  = (match cache_state c with Some v => Ok v | None => Err KeyError end, s) /\
  get_user s
  = (match cache_user c with Some v => Ok v | None => Err KeyError end, s) /\
  (forall i, get_spot_market i s
   = (match cache_spot_markets c with
      | Some l => match nth_error l i with
                  | Some v => Ok v
                  | None => Err IndexError
                  end
      | None => Err KeyError
      end, s)) /\
  (forall i, get_perp_market i s
   = (match cache_perp_markets c with
      | Some l => match nth_error l i with
                  | Some v => Ok v
                  | None => Err IndexError
                  end
      | None => Err KeyError
      end, s)) /\
  (forall m, get_spot_oracle_data m s
   = (match cache_spot_market_oracles c with
      | Some l => match nth_error l (spot_market_index m) with
                  | Some v => Ok v
                  | None => Err IndexError
                  end
      | None => Err KeyError
      end, s)) /\
  (forall m, get_perp_oracle_data m s
   = (match cache_perp_market_oracles c with
      | Some l => match nth_error l (perp_market_index m) with
                  | Some v => Ok v
                  | None => Err IndexError
                  end
      | None => Err KeyError
      end, s)).
Proof.
  intros Hu Hs Hc.
  repeat match goal with |- _ /\ _ => split end; intros;
    unfold get_state, get_user, get_spot_market, get_perp_market,
      get_spot_oracle_data, get_perp_oracle_data, bind, self_use_cache,
      assert_cache_is_set, cache_get, py_index, ret, raise;
    rewrite Hu; simpl; rewrite Hs; simpl; rewrite Hc;
    repeat (simpl;
            match goal with
            | |- context [match ?f c with _ => _ end] => destruct (f c)
            | |- context [match nth_error ?l ?i with _ => _ end] =>
                destruct (nth_error l i)
            end);
    reflexivity.
Qed.

Lemma refreshing_fields {P : Ledger -> Prop} {o0 : ClearingHouseUser}
  {c : Cache} {s : Sys} :
  refreshing P o0 c s ->
  cache_is_set (self s) = true /\ CACHE (self s) = Some c /\
  use_cache (self s) = use_cache o0 /\ authority (self s) = authority o0 /\
  subaccount_id (self s) = subaccount_id o0.
Proof. intros [Hs _]. rewrite Hs. repeat split. Qed.

Lemma set_cache_returns (P : Ledger -> Prop) (s0 : Sys) {s : Sys} {u : unit} :
  seen P s0 -> set_cache s0 = (Ok u, s) -> refreshed_from P (self s0) s.
Proof.
  intros Hseen H.
  pose proof (set_cache_triple P (self s0) s0 (conj eq_refl Hseen)) as T.
  rewrite H in T. exact T.
Qed.

Lemma set_cache_raises {s0 s : Sys} {e : exception} :
  set_cache s0 = (Err e, s) -> refresh_failed (fun _ => True) (self s0) s.
Proof.
  intros H.
  pose proof (set_cache_triple (fun _ => True) (self s0) s0
                (conj eq_refl (fun _ => I))) as T.
  rewrite H in T. exact T.
Qed.

(** X5.  When [set_cache] returns, the guard flag is set, the mode and the
    account identity of the object are unchanged, and the cache holds all six
    keys: the state, the user, and one market and one oracle entry for each
    of the state's [number_of_spot_markets] spot markets and
    [number_of_markets] perpetual markets. *)
Theorem set_cache_fills_the_cache (s0 s : Sys) (u : unit) :
  set_cache s0 = (Ok u, s) ->
  cache_is_set (self s) = true /\
  use_cache (self s) = use_cache (self s0) /\
  authority (self s) = authority (self s0) /\
  subaccount_id (self s) = subaccount_id (self s0) /\
  exists state spot_markets spot_oracles perp_markets perp_oracles user,
    CACHE (self s)
    = Some {| cache_state := Some state;
              cache_spot_markets := Some spot_markets;
              cache_spot_market_oracles := Some spot_oracles;
              cache_perp_markets := Some perp_markets;
              cache_perp_market_oracles := Some perp_oracles;
              cache_user := Some user |} /\
    length spot_markets = number_of_spot_markets state /\
    length spot_oracles = number_of_spot_markets state /\
    length perp_markets = number_of_markets state /\
    length perp_oracles = number_of_markets state.
Proof.
  intros H.
  destruct (set_cache_returns (fun _ => True) s0 (fun _ => I) H)
    as [state [sm [so [pm [po [user [Hr [_ [Hs [Hp _]]]]]]]]]].
  destruct (refreshing_fields Hr) as [F1 [F2 [F3 [F4 F5]]]].
  repeat match goal with |- _ /\ _ => split end; try assumption.
  exists state, sm, so, pm, po, user.
  destruct Hs as [Hs1 [Hs2 _]]. destruct Hp as [Hp1 [Hp2 _]].
  repeat split; assumption.
Qed.

(** X6.  After a [set_cache] that returned, in cached mode, [get_state] and
    [get_user] return, and for a market index [i], a number that is not
    negative: [get_spot_market(i)] and [get_perp_market(i)] return when [i]
    is below the state's market count, and raise [IndexError] when [i] is at
    or above it.  (A negative [i], which a Python list counts from its end,
    is no market index and is not covered.) *)
Theorem cached_market_bounds (s0 s : Sys) (u : unit) :
  use_cache (self s0) = true ->
  set_cache s0 = (Ok u, s) ->
  exists state user,
    get_state s = (Ok state, s) /\
    get_user s = (Ok user, s) /\
    (forall i : nat,
        if Nat.ltb i (number_of_spot_markets state)
        then exists m, get_spot_market i s = (Ok m, s)
        else get_spot_market i s = (Err IndexError, s)) /\
    (forall i : nat,
        if Nat.ltb i (number_of_markets state)
        then exists m, get_perp_market i s = (Ok m, s)
        else get_perp_market i s = (Err IndexError, s)).
Proof.
  intros Hu H.
  destruct (set_cache_returns (fun _ => True) s0 (fun _ => I) H)
    as [state [sm [so [pm [po [user [Hr [_ [Hs [Hp _]]]]]]]]]].
  destruct (refreshing_fields Hr) as [F1 [F2 [F3 _]]].
  rewrite Hu in F3.
  destruct (cached_reads s _ F3 F1 F2) as [R1 [R2 [R3 [R4 _]]]].
  simpl in R1, R2, R3, R4.
  exists state, user. split; [ exact R1 | ]. split; [ exact R2 | ].
  destruct Hs as [Hs1 _]. destruct Hp as [Hp1 _].
  split; intros i; [ rewrite R3 | rewrite R4 ].
  - destruct (Nat.ltb_spec i (number_of_spot_markets state)) as [L | L].
    + rewrite <- Hs1 in L. apply nth_error_Some in L.
      destruct (nth_error sm i) as [ m | ]; [ | congruence ].
      exists m. reflexivity.
    + rewrite <- Hs1 in L. apply nth_error_None in L. rewrite L. reflexivity.
  - destruct (Nat.ltb_spec i (number_of_markets state)) as [L | L].
    + rewrite <- Hp1 in L. apply nth_error_Some in L.
      destruct (nth_error pm i) as [ m | ]; [ | congruence ].
      exists m. reflexivity.
    + rewrite <- Hp1 in L. apply nth_error_None in L. rewrite L. reflexivity.
Qed.

(** X7.  On a ledger that does not change, a [set_cache] that returned has
    stored what the ledger holds: in cached mode [get_state] and [get_user]
    return the ledger's state and the ledger's account of the object's
    authority and subaccount, [get_spot_market(i)] and [get_perp_market(i)]
    return the ledger's market of index [i], and [get_perp_oracle_data] of a
    cached market whose [market_index] is its index returns the ledger's data
    for that market's oracle. *)
Theorem set_cache_round_trip (L : Ledger) (s0 s : Sys) (u : unit) :
  steady L s0 ->
  use_cache (self s0) = true ->
  set_cache s0 = (Ok u, s) ->
  (exists state,
      state_account L = Some state /\ get_state s = (Ok state, s) /\
      (forall i, (i < number_of_spot_markets state)%nat ->
         exists m, spot_market_account L i = Some m /\
                   get_spot_market i s = (Ok m, s)) /\
      (forall i, (i < number_of_markets state)%nat ->
         exists m, perp_market_account L i = Some m /\
                   get_perp_market i s = (Ok m, s) /\
                   (perp_market_index m = i ->
                    exists o, oracle_data L (amm_oracle m) = Some o /\
                              get_perp_oracle_data m s = (Ok o, s)))) /\
  (exists user,
      user_account L (authority (self s0)) (subaccount_id (self s0))
      = Some user /\
      get_user s = (Ok user, s)).
Proof.
  intros Hsteady Hu H.
  assert (Hseen : seen (eq L) s0) by (intros n; symmetry; apply Hsteady).
  destruct (set_cache_returns (eq L) s0 Hseen H)
    as [state [sm [so [pm [po [user [Hr [Hst [Hs [Hp Hus]]]]]]]]]].
  destruct (refreshing_fields Hr) as [F1 [F2 [F3 _]]].
  rewrite Hu in F3.
  destruct (cached_reads s _ F3 F1 F2) as [R1 [R2 [R3 [R4 [_ R6]]]]].
  simpl in R1, R2, R3, R4, R6.
  split.
  - exists state. destruct Hst as [L' [<- Hst]].
    split; [ exact Hst | ]. split; [ exact R1 | ].
    split; intros i Hi.
    + destruct Hs as [_ [_ Hs]].
      destruct (Hs i Hi) as [m [N1 [[L' [<- N2]] _]]].
      exists m. split; [ exact N2 | ]. rewrite R3, N1. reflexivity.
    + destruct Hp as [_ [_ Hp]].
      destruct (Hp i Hi) as [m [o [N1 [[L' [<- N2]] [N3 [L'' [<- N4]]]]]]].
      exists m. split; [ exact N2 | ].
      split; [ rewrite R4, N1; reflexivity | ].
      intros Hm. exists o. split; [ exact N4 | ].
      rewrite R6, Hm, N3. reflexivity.
  - destruct Hus as [L' [<- Hus]]. exists user.
    split; [ exact Hus | exact R2 ].
Qed.

(** X8.  After a [set_cache] that returned, with at least one spot market,
    [get_spot_oracle_data] in cached mode returns the constant 1 for every
    spot market of [market_index] 0, whatever price the ledger gives for that
    market's oracle. *)
Theorem cached_spot_market_zero_oracle (s0 s : Sys) (u : unit)
  (state : State num) (m : SpotMarket) :
  use_cache (self s0) = true ->
  set_cache s0 = (Ok u, s) ->
  get_state s = (Ok state, s) ->
  (0 < number_of_spot_markets state)%nat ->
  spot_market_index m = 0%nat ->
  get_spot_oracle_data m s = (Ok OracleOne, s).
Proof.
  intros Hu H Hstate Hpos Hm.
  destruct (set_cache_returns (fun _ => True) s0 (fun _ => I) H)
    as [state' [sm [so [pm [po [user [Hr [_ [Hs _]]]]]]]]].
  destruct (refreshing_fields Hr) as [F1 [F2 [F3 _]]].
  rewrite Hu in F3.
  destruct (cached_reads s _ F3 F1 F2) as [R1 [_ [_ [_ [R5 _]]]]].
  simpl in R1, R5. rewrite R1 in Hstate. inversion Hstate; subst state'.
  destruct Hs as [_ [_ Hs]].
  destruct (Hs 0%nat Hpos) as [m0 [_ [_ N]]].
  rewrite R5, Hm, N. reflexivity.
Qed.

(** X9.  [set_cache] sets the guard flag before it fetches anything and
    starts from an empty cache: when it raises (a fetch failed), the flag is
    set all the same and the cache has no user, also if an earlier refresh
    had stored one; in cached mode [get_user] then raises [KeyError], not
    the assertion error of the guard. *)
Theorem failed_set_cache_passes_the_guard (s0 s : Sys) (e : exception) :
  set_cache s0 = (Err e, s) ->
  cache_is_set (self s) = true /\
  (exists c, CACHE (self s) = Some c /\ cache_user c = None) /\
  (use_cache (self s0) = true -> get_user s = (Err KeyError, s)).
Proof.
  intros H. destruct (set_cache_raises H) as [c [Hr Hc]].
  destruct (refreshing_fields Hr) as [F1 [F2 [F3 _]]].
  split; [ exact F1 | ]. split; [ exists c; split; assumption | ].
  intros Hu. rewrite Hu in F3.
  destruct (cached_reads s _ F3 F1 F2) as [_ [R2 _]].
  rewrite R2, Hc. reflexivity.
Qed.

End RefreshProperties.

(** ** The same query in two systems *)

Section Transformed.

Context {num : Type} {PN : PyNum num} {DT : DriftTypes num}
        {DM : DriftMath num}.

Variables (T : Sys -> Sys) (I : Sys -> Prop).

Lemma tsim_ret {A B} (R : A -> B -> Prop) a b :
  R a b -> tsim T I R (ret a) (ret b).
Proof. intros HR s Hs. split; [ exact Hs | ]. split; [ reflexivity | exact HR ]. Qed.

Lemma tsim_raise {A B} (R : A -> B -> Prop) e :
  tsim T I R (raise e) (raise e).
Proof. intros s Hs. split; [ exact Hs | ]. split; reflexivity. Qed.

Lemma tsim_bind {A B A' B'} (R : A -> B -> Prop) (R' : A' -> B' -> Prop)
  (m1 : M A) (m2 : M B) (k1 : A -> M A') (k2 : B -> M B') :
  tsim T I R m1 m2 ->
  (forall a b, R a b -> tsim T I R' (k1 a) (k2 b)) ->
  tsim T I R' (bind m1 k1) (bind m2 k2).
Proof.
  intros Hm Hk s Hs. unfold bind. specialize (Hm s Hs).
  destruct (m1 s) as [[a | e] s1], (m2 (T s)) as [[b | e'] s2];
    destruct Hm as [Hi [Ht Hr]]; simpl in Hi, Ht, Hr; subst;
    try contradiction.
  - apply Hk; assumption.
  - split; [ exact Hi | ]. split; reflexivity.
Qed.

Lemma tsim_for_each_same {A B B'} (R : B -> B' -> Prop) (l : list A)
  (body1 : B -> A -> M B) (body2 : B' -> A -> M B') :
  (forall x acc acc', R acc acc' -> tsim T I R (body1 acc x) (body2 acc' x)) ->
  forall acc acc', R acc acc' ->
  tsim T I R (for_each l acc body1) (for_each l acc' body2).
Proof.
  intros Hbody. induction l as [ | x l IH ]; intros acc acc' Hacc; simpl.
  - apply tsim_ret, Hacc.
  - apply tsim_bind with (R := R); [ apply Hbody, Hacc | ].
    intros a b Hab. apply IH, Hab.
Qed.

(** A loop that passes over the values that [keep] rejects is the loop over
    the values that [keep] accepts. *)
Lemma tsim_for_each_filter {A B} (keep : A -> bool) (l : list A)
  (body1 body2 : B -> A -> M B) :
  (forall x acc s, keep x = false -> body1 acc x s = (Ok acc, s)) ->
  (forall x acc, keep x = true -> tsim T I eq (body1 acc x) (body2 acc x)) ->
  forall acc,
    tsim T I eq (for_each l acc body1) (for_each (filter keep l) acc body2).
Proof.
  intros Hskip Hkeep. induction l as [ | x l IH ]; intros acc; simpl.
  - apply tsim_ret. reflexivity.
  - destruct (keep x) eqn:K; simpl.
    + apply tsim_bind with (R := eq); [ apply Hkeep, K | ].
      intros a ? <-. apply IH.
    + intros s Hs. unfold bind. rewrite (Hskip x acc s K). apply IH, Hs.
Qed.

Lemma tsim_py_div (a b : num) : tsim T I eq (py_div a b) (py_div a b).
Proof.
  unfold py_div. destruct (eqb b (of_Z 0));
    [ apply tsim_raise | apply tsim_ret; reflexivity ].
Qed.

Lemma tsim_result {A} (m1 m2 : M A) (s : Sys) :
  tsim T I eq m1 m2 -> I s -> fst (m2 (T s)) = fst (m1 s).
Proof.
  intros H Hs. destruct (H s Hs) as [_ [_ Hr]].
  destruct (fst (m1 s)), (fst (m2 (T s))); try contradiction; congruence.
Qed.

(** *** Queries built on accessors that agree in the two systems *)

(** The user read in the second system is related to the user read in the
    first by [U], which keeps the perpetual positions, the margin ratio
    override and the liquidation flag. *)
Variable U : User num -> User num -> Prop.

Hypothesis U_perp_positions :
  forall u u', U u u' -> perp_positions u' = perp_positions u.
Hypothesis U_max_margin_ratio :
  forall u u', U u u' -> max_margin_ratio u' = max_margin_ratio u.
Hypothesis U_being_liquidated :
  forall u u', U u u' -> being_liquidated u' = being_liquidated u.

Hypothesis sim_get_user' : tsim T I U get_user get_user.
Hypothesis sim_get_state' : tsim T I eq get_state get_state.
Hypothesis sim_get_perp_market' :
  forall i, tsim T I eq (get_perp_market i) (get_perp_market i).
Hypothesis sim_get_perp_oracle_data' :
  forall m, tsim T I eq (get_perp_oracle_data m) (get_perp_oracle_data m).
Hypothesis sim_asset_value :
  forall mc orders i,
    tsim T I eq (get_spot_market_asset_value mc orders i)
                (get_spot_market_asset_value mc orders i).
Hypothesis sim_liability :
  forall i mc buffer orders,
    tsim T I eq (get_spot_market_liability i mc buffer orders)
                (get_spot_market_liability i mc buffer orders).

Lemma tsim_get_total_perp_positon mc buffer orders :
  tsim T I eq (get_total_perp_positon mc buffer orders)
              (get_total_perp_positon mc buffer orders).
Proof.
  unfold get_total_perp_positon.
  apply tsim_bind with (R := U); [ exact sim_get_user' | ].
  intros u u' Hu. rewrite (U_perp_positions _ _ Hu).
  apply tsim_for_each_same; [ | reflexivity ].
  intros p acc ? <-. rewrite (U_max_margin_ratio _ _ Hu).
  apply tsim_bind with (R := eq); [ apply sim_get_perp_market' | ].
  intros market ? <-.
  apply tsim_bind with (R := eq);
    [ destruct (ltb (of_Z 0) (lp_shares p)); apply tsim_ret; reflexivity | ].
  intros ? ? <-.
  apply tsim_bind with (R := eq); [ apply sim_get_perp_oracle_data' | ].
  intros oracle ? <-. cbv zeta.
  apply tsim_bind with (R := eq); [ apply tsim_py_div | ].
  intros base_value ? <-.
  apply tsim_bind with (R := eq);
    [ destruct mc; [ apply tsim_py_div | apply tsim_ret; reflexivity ] | ].
  intros v ? <-. apply tsim_ret. reflexivity.
Qed.

Lemma tsim_get_unrealized_pnl funding i mc :
  tsim T I eq (get_unrealized_pnl funding i mc)
              (get_unrealized_pnl funding i mc).
Proof.
  unfold get_unrealized_pnl.
  apply tsim_bind with (R := U); [ exact sim_get_user' | ].
  intros u u' Hu. rewrite (U_perp_positions _ _ Hu).
  apply tsim_for_each_same; [ | reflexivity ].
  intros p acc ? <-.
  destruct (other_market i (market_index p));
    [ apply tsim_ret; reflexivity | ].
  apply tsim_bind with (R := eq); [ apply sim_get_perp_market' | ].
  intros market ? <-.
  apply tsim_bind with (R := eq); [ apply sim_get_perp_oracle_data' | ].
  intros oracle ? <-. cbv zeta.
  destruct mc; [ apply tsim_raise | apply tsim_ret; reflexivity ].
Qed.

Lemma tsim_get_margin_requirement mc buffer :
  tsim T I eq (get_margin_requirement mc buffer)
              (get_margin_requirement mc buffer).
Proof.
  unfold get_margin_requirement.
  apply tsim_bind with (R := eq); [ apply tsim_get_total_perp_positon | ].
  intros a ? <-.
  apply tsim_bind with (R := eq); [ apply sim_liability | ].
  intros b ? <-. apply tsim_ret. reflexivity.
Qed.

Lemma tsim_get_total_collateral mc :
  tsim T I eq (get_total_collateral mc) (get_total_collateral mc).
Proof.
  unfold get_total_collateral.
  apply tsim_bind with (R := eq); [ apply sim_asset_value | ].
  intros a ? <-.
  apply tsim_bind with (R := eq); [ apply tsim_get_unrealized_pnl | ].
  intros b ? <-. apply tsim_ret. reflexivity.
Qed.

Lemma tsim_get_leverage mc :
  tsim T I eq (get_leverage mc) (get_leverage mc).
Proof.
  unfold get_leverage.
  apply tsim_bind with (R := eq); [ apply tsim_get_margin_requirement | ].
  intros a ? <-.
  apply tsim_bind with (R := eq); [ apply tsim_get_total_collateral | ].
  intros b ? <-.
  destruct (eqb b (of_Z 0) || eqb a (of_Z 0));
    [ apply tsim_ret; reflexivity | ].
  apply tsim_bind with (R := eq); [ apply tsim_py_div | ].
  intros c ? <-. apply tsim_ret. reflexivity.
Qed.

Lemma tsim_get_free_collateral :
  tsim T I eq get_free_collateral get_free_collateral.
Proof.
  unfold get_free_collateral.
  apply tsim_bind with (R := eq); [ apply tsim_get_total_collateral | ].
  intros a ? <-.
  apply tsim_bind with (R := eq); [ apply tsim_get_margin_requirement | ].
  intros b ? <-. apply tsim_ret. reflexivity.
Qed.

Lemma tsim_can_be_liquidated :
  tsim T I eq can_be_liquidated can_be_liquidated.
Proof.
  unfold can_be_liquidated.
  apply tsim_bind with (R := eq); [ apply tsim_get_total_collateral | ].
  intros a ? <-.
  apply tsim_bind with (R := U); [ exact sim_get_user' | ].
  intros u u' Hu. rewrite (U_being_liquidated _ _ Hu).
  apply tsim_bind with (R := eq).
  { destruct (being_liquidated u); [ | apply tsim_ret; reflexivity ].
    apply tsim_bind with (R := eq); [ exact sim_get_state' | ].
    intros st ? <-. apply tsim_ret. reflexivity. }
  intros buffer ? <-.
  apply tsim_bind with (R := eq); [ apply tsim_get_margin_requirement | ].
  intros b ? <-. apply tsim_ret. reflexivity.
Qed.

End Transformed.

(** Steps through the same code in two systems, with the accessors'
    agreement among the hypotheses. *)
Ltac tsim_same_steps :=
  repeat first
    [ apply tsim_ret; reflexivity
    | apply tsim_raise
    | apply tsim_py_div
    | match goal with
      | H : _ |- tsim _ _ eq _ _ => apply H
      end
    | apply tsim_bind with (R := eq); [ | intros ? ? <- ]
    | match goal with
      | |- tsim _ _ _ (if ?c then _ else _) (if ?c then _ else _) =>
          destruct c
      | |- tsim _ _ _ (match ?x with _ => _ end)
                      (match ?x with _ => _ end) => destruct x
      end ].

(** Opens the object and the world of an accessor in two systems. *)
Ltac open_systems :=
  intros [[xa xn uc cis [[c1 c2 c3 c4 c5 c6] | ]] [la fs]];
  unfold tsim_run, sys_with_user, sys_with_cache, bind, self_use_cache,
    self_authority, self_subaccount_id, assert_cache_is_set, cache_get,
    py_index, fetch, ret, raise;
  destruct uc, cis; cbn.

Section TransformedSpot.

Context {num : Type} {PN : PyNum num} {DT : DriftTypes num}
        {DM : DriftMath num}.

Variables (T : Sys -> Sys) (I : Sys -> Prop).

Hypothesis sim_get_spot_market' :
  forall i, tsim T I eq (get_spot_market i) (get_spot_market i).
Hypothesis sim_get_spot_oracle_data' :
  forall m, tsim T I eq (get_spot_oracle_data m) (get_spot_oracle_data m).

(** The same account in both systems. *)
Lemma tsim_spot_same :
  tsim T I eq get_user get_user ->
  (forall mc orders i,
      tsim T I eq (get_spot_market_asset_value mc orders i)
                  (get_spot_market_asset_value mc orders i)) /\
  (forall i mc buffer orders,
      tsim T I eq (get_spot_market_liability i mc buffer orders)
                  (get_spot_market_liability i mc buffer orders)).
Proof.
  intros Huser. split; intros.
  - unfold get_spot_market_asset_value.
    apply tsim_bind with (R := eq); [ exact Huser | ]. intros u ? <-.
    apply tsim_for_each_same; [ | reflexivity ].
    intros p acc ? <-. tsim_same_steps.
  - unfold get_spot_market_liability.
    apply tsim_bind with (R := eq); [ exact Huser | ]. intros u ? <-.
    apply tsim_for_each_same; [ | reflexivity ].
    intros p acc ? <-. tsim_same_steps.
Qed.

(** The account without its available spot positions in the second. *)
Lemma tsim_spot_without_available :
  tsim T I (fun u u' => u' = without_available_spot_positions u)
       get_user get_user ->
  (forall mc orders i,
      tsim T I eq (get_spot_market_asset_value mc orders i)
                  (get_spot_market_asset_value mc orders i)) /\
  (forall i mc buffer orders,
      tsim T I eq (get_spot_market_liability i mc buffer orders)
                  (get_spot_market_liability i mc buffer orders)).
Proof.
  intros Huser. split; intros.
  - unfold get_spot_market_asset_value.
    eapply tsim_bind; [ exact Huser | ]. intros u ? ->.
    cbn [without_available_spot_positions spot_positions].
    apply tsim_for_each_filter.
    + intros p acc s Hp. apply negb_false_iff in Hp. rewrite Hp. reflexivity.
    + intros p acc Hp. tsim_same_steps.
  - unfold get_spot_market_liability.
    eapply tsim_bind; [ exact Huser | ]. intros u ? ->.
    cbn [without_available_spot_positions spot_positions max_margin_ratio].
    apply tsim_for_each_filter.
    + intros p acc s Hp. apply negb_false_iff in Hp. rewrite Hp. reflexivity.
    + intros p acc Hp.
      unfold quote_weight.
      cbn [without_available_spot_positions max_margin_ratio].
      tsim_same_steps.
Qed.

End TransformedSpot.

(** Closes an accessor's goal after [open_systems] by cases on what the
    cache holds under [key] (at index [idx]) or what the ledger gives as
    [answer]. *)
Ltac close_accessor key idx answer :=
  intros Hi; cbn in Hi; try discriminate; cbn;
  first
    [ solve [ repeat split ]
    | destruct key as [ l | ]; cbn;
      first [ solve [ repeat split ]
            | destruct (nth_error l idx); solve [ repeat split ] ]
    | destruct answer; solve [ repeat split ] ].

Section UserReplaced.

Context {num : Type} {PN : PyNum num} {DT : DriftTypes num}
        {DM : DriftMath num}.

Variable f : User num -> User num.

Lemma user_sim_get_state : tsim (sys_with_user f) (fun _ => True) eq get_state get_state.
Proof. unfold get_state, get_state_account.
  open_systems; close_accessor c1 0%nat (state_account (la (length fs))). Qed.

Lemma user_sim_get_spot_market i :
  tsim (sys_with_user f) (fun _ => True) eq (get_spot_market i) (get_spot_market i).
Proof.
  unfold get_spot_market, get_spot_market_account.
  open_systems;
    close_accessor c2 i (spot_market_account (la (length fs)) i).
Qed.

Lemma user_sim_get_perp_market i :
  tsim (sys_with_user f) (fun _ => True) eq (get_perp_market i) (get_perp_market i).
Proof.
  unfold get_perp_market, get_perp_market_account.
  open_systems;
    close_accessor c4 i (perp_market_account (la (length fs)) i).
Qed.

Lemma user_sim_get_spot_oracle_data m :
  tsim (sys_with_user f) (fun _ => True) eq (get_spot_oracle_data m) (get_spot_oracle_data m).
Proof.
  unfold get_spot_oracle_data, get_oracle_data.
  open_systems;
    close_accessor c3 (spot_market_index m)
      (oracle_data (la (length fs)) (spot_market_oracle m)).
Qed.

Lemma user_sim_get_perp_oracle_data m :
  tsim (sys_with_user f) (fun _ => True) eq (get_perp_oracle_data m) (get_perp_oracle_data m).
Proof.
  unfold get_perp_oracle_data, get_oracle_data.
  open_systems;
    close_accessor c5 (perp_market_index m)
      (oracle_data (la (length fs)) (amm_oracle m)).
Qed.

Lemma user_sim_get_user :
  tsim (sys_with_user f) (fun _ => True) (fun u u' => u' = f u) get_user get_user.
Proof. unfold get_user, get_user_account.
  open_systems; close_accessor c6 0%nat (user_account (la (length fs)) xa xn). Qed.

End UserReplaced.

Section CacheReplaced.

Context {num : Type} {PN : PyNum num} {DT : DriftTypes num}
        {DM : DriftMath num}.

Variables (is_set : bool) (cache : option Cache).

Lemma live_sim_get_state : tsim (sys_with_cache is_set cache)
       (fun s => use_cache (self s) = false) eq get_state get_state.
Proof. unfold get_state, get_state_account.
  open_systems; close_accessor c1 0%nat (state_account (la (length fs))). Qed.

Lemma live_sim_get_spot_market i :
  tsim (sys_with_cache is_set cache)
       (fun s => use_cache (self s) = false) eq (get_spot_market i) (get_spot_market i).
Proof.
  unfold get_spot_market, get_spot_market_account.
  open_systems;
    close_accessor c2 i (spot_market_account (la (length fs)) i).
Qed.

Lemma live_sim_get_perp_market i :
  tsim (sys_with_cache is_set cache)
       (fun s => use_cache (self s) = false) eq (get_perp_market i) (get_perp_market i).
Proof.
  unfold get_perp_market, get_perp_market_account.
  open_systems;
    close_accessor c4 i (perp_market_account (la (length fs)) i).
Qed.

Lemma live_sim_get_spot_oracle_data m :
  tsim (sys_with_cache is_set cache)
       (fun s => use_cache (self s) = false) eq (get_spot_oracle_data m) (get_spot_oracle_data m).
Proof.
  unfold get_spot_oracle_data, get_oracle_data.
  open_systems;
    close_accessor c3 (spot_market_index m)
      (oracle_data (la (length fs)) (spot_market_oracle m)).
Qed.

Lemma live_sim_get_perp_oracle_data m :
  tsim (sys_with_cache is_set cache)
       (fun s => use_cache (self s) = false) eq (get_perp_oracle_data m) (get_perp_oracle_data m).
Proof.
  unfold get_perp_oracle_data, get_oracle_data.
  open_systems;
    close_accessor c5 (perp_market_index m)
      (oracle_data (la (length fs)) (amm_oracle m)).
Qed.

Lemma live_sim_get_user : tsim (sys_with_cache is_set cache)
       (fun s => use_cache (self s) = false) eq get_user get_user.
Proof. unfold get_user, get_user_account.
  open_systems; close_accessor c6 0%nat (user_account (la (length fs)) xa xn). Qed.

End CacheReplaced.

(** ** What the results do and do not depend on *)

Section Independence.

Context {num : Type} {PN : PyNum num} {DT : DriftTypes num}
        {DM : DriftMath num}.

(** X10.  In live mode the cache is never read: replacing the guard flag and
    the cache of the object by any others changes no result of
    [get_leverage], [can_be_liquidated], [get_free_collateral],
    [get_total_collateral] and [get_margin_requirement]. *)
Theorem live_mode_ignores_the_cache (is_set : bool) (cache : option Cache)
  (s : Sys) :
  use_cache (self s) = false ->
  let s' := sys_with_cache is_set cache s in
  (forall mc, fst (get_leverage mc s') = fst (get_leverage mc s)) /\
  fst (can_be_liquidated s') = fst (can_be_liquidated s) /\
  fst (get_free_collateral s') = fst (get_free_collateral s) /\
  (forall mc, fst (get_total_collateral mc s')
              = fst (get_total_collateral mc s)) /\
  (forall mc buffer, fst (get_margin_requirement mc buffer s')
                     = fst (get_margin_requirement mc buffer s)).
Proof.
  intros Hlive s'.
  pose proof (live_sim_get_user is_set cache) as Huser.
  pose proof (live_sim_get_state is_set cache) as Hstate.
  pose proof (live_sim_get_perp_market is_set cache) as Hpm.
  pose proof (live_sim_get_perp_oracle_data is_set cache) as Hpo.
  destruct (tsim_spot_same _ _ (live_sim_get_spot_market is_set cache)
              (live_sim_get_spot_oracle_data is_set cache) Huser)
    as [Hasset Hliab].
  assert (Hu : forall u u' : User num, u = u' -> u' = u) by (intros; auto).
  subst s'.
  repeat match goal with |- _ /\ _ => split end; intros;
    apply (tsim_result (sys_with_cache is_set cache)
             (fun s => use_cache (self s) = false));
    try exact Hlive;
    [ apply tsim_get_leverage with (U := eq)
    | apply tsim_can_be_liquidated with (U := eq)
    | apply tsim_get_free_collateral with (U := eq)
    | apply tsim_get_total_collateral with (U := eq)
    | apply tsim_get_margin_requirement with (U := eq) ];
    try assumption; intros ? ? <-; reflexivity.
Qed.

Lemma without_available_keeps (u u' : User num) :
  u' = without_available_spot_positions u ->
  perp_positions u' = perp_positions u /\
  max_margin_ratio u' = max_margin_ratio u /\
  being_liquidated u' = being_liquidated u.
Proof. intros ->. repeat split. Qed.

(** X11.  Available spot positions are absent from every sum: removing them
    from the account, in the cache and on the ledger, changes no result of
    [get_spot_market_asset_value], [get_spot_market_liability],
    [get_margin_requirement], [get_total_collateral], [get_leverage],
    [get_free_collateral] and [can_be_liquidated], in either mode. *)
Theorem available_spot_positions_are_absent (s : Sys) :
  let s' := sys_with_user without_available_spot_positions s in
  (forall mc orders i,
      fst (get_spot_market_asset_value mc orders i s')
      = fst (get_spot_market_asset_value mc orders i s)) /\
  (forall i mc buffer orders,
      fst (get_spot_market_liability i mc buffer orders s')
      = fst (get_spot_market_liability i mc buffer orders s)) /\
  (forall mc buffer, fst (get_margin_requirement mc buffer s')
                     = fst (get_margin_requirement mc buffer s)) /\
  (forall mc, fst (get_total_collateral mc s')
              = fst (get_total_collateral mc s)) /\
  (forall mc, fst (get_leverage mc s') = fst (get_leverage mc s)) /\
  fst (get_free_collateral s') = fst (get_free_collateral s) /\
  fst (can_be_liquidated s') = fst (can_be_liquidated s).
Proof.
  intros s'.
  pose proof (user_sim_get_user without_available_spot_positions) as Huser.
  pose proof (user_sim_get_state without_available_spot_positions) as Hstate.
  pose proof (user_sim_get_perp_market without_available_spot_positions)
    as Hpm.
  pose proof (user_sim_get_perp_oracle_data without_available_spot_positions)
    as Hpo.
  destruct (tsim_spot_without_available _ _
              (user_sim_get_spot_market without_available_spot_positions)
              (user_sim_get_spot_oracle_data without_available_spot_positions)
              Huser)
    as [Hasset Hliab].
  subst s'.
  repeat match goal with |- _ /\ _ => split end; intros;
    apply (tsim_result (sys_with_user without_available_spot_positions)
             (fun _ => True));
    try exact I;
    [ apply Hasset
    | apply Hliab
    | eapply tsim_get_margin_requirement
    | eapply tsim_get_total_collateral
    | eapply tsim_get_leverage
    | eapply tsim_get_free_collateral
    | eapply tsim_can_be_liquidated ];
    try eassumption; intros u u' E;
    apply (without_available_keeps _ _ E).
Qed.

(** X12.  The market filter of [get_unrealized_pnl] is a restriction of the
    account: the call with [market_index = i] gives the result of the call
    without filter on the account that keeps only its perpetual positions in
    market [i]; the positions in other markets are not valued and their
    markets and oracles are not read. *)
Theorem get_unrealized_pnl_filter_restricts (funding : bool) (i : nat)
  (mc : option MarginCategory) (s : Sys) :
  fst (get_unrealized_pnl funding None mc
         (sys_with_user (only_perp_market i) s))
  = fst (get_unrealized_pnl funding (Some i) mc s).
Proof.
  apply (tsim_result (sys_with_user (only_perp_market i)) (fun _ => True));
    [ | exact I ].
  unfold get_unrealized_pnl.
  eapply tsim_bind; [ apply user_sim_get_user | ]. intros u ? ->.
  cbn [only_perp_market perp_positions].
  pose proof (user_sim_get_perp_market (only_perp_market i)) as Hpm.
  pose proof (user_sim_get_perp_oracle_data (only_perp_market i)) as Hpo.
  apply tsim_for_each_filter.
  - intros p acc s0 Hp. unfold other_market. rewrite Hp. reflexivity.
  - intros p acc Hp. unfold other_market. rewrite Hp. cbn [negb].
    tsim_same_steps.
Qed.

End Independence.

(** ** Signs of the sums *)

Section Signs.

Context {num : Type} {PN : PyNum num} {DT : DriftTypes num}
        {DM : DriftMath num} {PL : PyNumLaws num}.

Lemma returns_ret {A} (P : A -> Prop) (a : A) : P a -> returns P (ret a).
Proof. intros H s v s' E. inversion E; subst. exact H. Qed.

Lemma returns_raise {A} (P : A -> Prop) e : returns P (@raise _ _ A e).
Proof. intros s v s' E. discriminate. Qed.

Lemma returns_bind {A B} (Q : A -> Prop) (P : B -> Prop)
  (m : M A) (k : A -> M B) :
  returns Q m -> (forall a, Q a -> returns P (k a)) -> returns P (bind m k).
Proof.
  intros Hm Hk s v s'. unfold bind.
  destruct (m s) as [[a | e] s1] eqn:E; [ | discriminate ].
  apply Hk. exact (Hm _ _ _ E).
Qed.

Lemma returns_any {A} (m : M A) : returns (fun _ => True) m.
Proof. intros s v s' _. exact I. Qed.

Lemma returns_for_each {A B} (P : B -> Prop) (l : list A)
  (body : B -> A -> M B) :
  (forall acc x, P acc -> returns P (body acc x)) ->
  forall acc, P acc -> returns P (for_each l acc body).
Proof.
  intros Hbody. induction l as [ | x l IH ]; intros acc Hacc; simpl.
  - apply returns_ret, Hacc.
  - apply returns_bind with (Q := P); [ apply Hbody, Hacc | exact IH ].
Qed.

Lemma add_nonneg (a b : num) : nonneg a -> nonneg b -> nonneg (add a b).
Proof.
  unfold nonneg. intros Ha Hb.
  rewrite <- (add_zero_r (of_Z 0)) at 1. apply add_le_mono; assumption.
Qed.

Lemma zero_nonneg : nonneg (of_Z 0).
Proof. apply leb_refl. Qed.

Lemma returns_py_div_nonneg (a p : num) :
  ltb (of_Z 0) p = true -> nonneg a -> returns nonneg (py_div a p).
Proof.
  intros Hp Ha s v s' E. unfold py_div in E.
  destruct (eqb p (of_Z 0)); [ discriminate | ].
  inversion E; subst. apply truediv_nonneg; assumption.
Qed.

Hypothesis invariants : data_model_invariants.
Hypothesis values : values_nonnegative.

Lemma quote_weight_nonneg mc (user : User num) :
  nonneg (quote_weight mc user).
Proof.
  destruct invariants as [_ [_ [Hwp _]]]. apply ltb_leb in Hwp.
  unfold quote_weight. destruct (is_initial mc); [ | exact Hwp ].
  eapply leb_trans; [ exact Hwp | apply py_max_ge_l ].
Qed.

Lemma returns_asset_value_nonneg mc orders i :
  returns nonneg (get_spot_market_asset_value mc orders i).
Proof.
  destruct invariants as [_ [Htoken _]]. destruct values as [_ [_ Hasset]].
  unfold get_spot_market_asset_value.
  apply returns_bind with (Q := fun _ => True); [ apply returns_any | ].
  intros user _. apply returns_for_each; [ | apply zero_nonneg ].
  intros acc p Hacc.
  destruct (is_spot_position_available p
            || other_market i (spot_position_market_index p));
    [ apply returns_ret, Hacc | ].
  apply returns_bind with (Q := fun _ => True); [ apply returns_any | ].
  intros market _.
  destruct (Nat.eqb (spot_position_market_index p) QUOTE_ASSET_BANK_INDEX).
  { apply returns_ret, add_nonneg; [ exact Hacc | apply Htoken ]. }
  apply returns_bind with (Q := fun _ => True); [ apply returns_any | ].
  intros oracle _. destruct orders; cbn [negb].
  - destruct (get_worst_case_token_amounts p market oracle) as [token quote].
    cbv zeta.
    match goal with
    | |- returns _ (if _ then ret (add ?x _) else _) =>
        assert (Hx : nonneg x)
    end.
    { destruct (ltb (of_Z 0) token) eqn:Ht; [ | exact Hacc ].
      apply add_nonneg; [ exact Hacc | ]. apply Hasset, ltb_leb, Ht. }
    destruct (ltb (of_Z 0) quote) eqn:Hq; [ | apply returns_ret, Hx ].
    apply returns_ret, add_nonneg; [ exact Hx | apply ltb_leb, Hq ].
  - destruct (is_deposit (balance_type p)); [ | apply returns_ret, Hacc ].
    apply returns_ret, add_nonneg; [ exact Hacc | apply Hasset, Htoken ].
Qed.

Lemma returns_liability_nonneg i mc buffer orders :
  buffer_nonneg buffer ->
  returns nonneg (get_spot_market_liability i mc buffer orders).
Proof.
  intros Hbuffer.
  destruct invariants as [_ [Htoken [Hwp _]]].
  destruct values as [_ [Hliab _]].
  unfold get_spot_market_liability.
  apply returns_bind with (Q := fun _ => True); [ apply returns_any | ].
  intros user _. apply returns_for_each; [ | apply zero_nonneg ].
  intros acc p Hacc.
  destruct (is_spot_position_available p
            || other_market i (spot_position_market_index p));
    [ apply returns_ret, Hacc | ].
  apply returns_bind with (Q := fun _ => True); [ apply returns_any | ].
  intros market _.
  destruct (Nat.eqb (spot_position_market_index p) QUOTE_ASSET_BANK_INDEX).
  { destruct (is_borrow (balance_type p)); [ | apply returns_ret, Hacc ].
    cbv zeta. apply returns_bind with (Q := nonneg).
    - apply returns_py_div_nonneg; [ exact Hwp | ].
      apply mul_nonneg; [ apply Htoken | apply quote_weight_nonneg ].
    - intros v Hv. apply returns_ret, add_nonneg; assumption. }
  apply returns_bind with (Q := fun _ => True); [ apply returns_any | ].
  intros oracle _. destruct orders; cbn [negb].
  - destruct (get_worst_case_token_amounts p market oracle) as [token quote].
    cbv zeta.
    match goal with
    | |- returns _ (if _ then bind _ (fun w => ret (add ?x w)) else _) =>
        assert (Hx : nonneg x)
    end.
    { destruct (ltb token (of_Z 0)); [ | exact Hacc ].
      apply add_nonneg; [ exact Hacc | ].
      apply Hliab; [ apply abs_nonneg | exact Hbuffer ]. }
    destruct (ltb quote (of_Z 0)); [ | apply returns_ret, Hx ].
    apply returns_bind with (Q := nonneg).
    + apply returns_py_div_nonneg; [ exact Hwp | ].
      apply mul_nonneg; [ apply abs_nonneg | apply quote_weight_nonneg ].
    + intros v Hv. apply returns_ret, add_nonneg; assumption.
  - destruct (is_borrow (balance_type p)); [ | apply returns_ret, Hacc ].
    apply returns_ret, add_nonneg; [ exact Hacc | ].
    apply Hliab; [ apply Htoken | exact Hbuffer ].
Qed.

Lemma returns_perp_position_nonneg mc buffer orders :
  buffer_nonneg buffer ->
  returns nonneg (get_total_perp_positon mc buffer orders).
Proof.
  intros Hbuffer.
  destruct invariants as [Hprice [_ [_ [Hmp Hqp]]]].
  destruct values as [Hratio _].
  unfold get_total_perp_positon.
  apply returns_bind with (Q := fun _ => True); [ apply returns_any | ].
  intros user _. apply returns_for_each; [ | apply zero_nonneg ].
  intros acc p Hacc.
  apply returns_bind with (Q := fun _ => True); [ apply returns_any | ].
  intros market _.
  apply returns_bind with (Q := fun _ => True); [ apply returns_any | ].
  intros _ _.
  apply returns_bind with (Q := fun _ => True); [ apply returns_any | ].
  intros oracle _. cbv zeta.
  apply returns_bind with (Q := nonneg).
  { apply returns_py_div_nonneg; [ exact Hqp | ].
    apply mul_nonneg; [ apply abs_nonneg | apply Hprice ]. }
  intros base_value Hbase.
  apply returns_bind with (Q := nonneg).
  - destruct mc as [ category | ]; [ | apply returns_ret, Hbase ].
    apply returns_py_div_nonneg; [ exact Hmp | ].
    apply mul_nonneg; [ exact Hbase | ].
    cbv zeta.
    match goal with
    | |- leb _ (match buffer with Some b => add ?r b | None => _ end) = true =>
        assert (Hr : nonneg r)
    end.
    { destruct (is_initial (Some category)); [ | apply Hratio ].
      eapply leb_trans; [ apply Hratio | apply py_max_ge_l ]. }
    destruct buffer as [ b | ]; [ | exact Hr ].
    apply add_nonneg; [ exact Hr | exact Hbuffer ].
  - intros v Hv. apply returns_ret, add_nonneg; assumption.
Qed.

End Signs.

Section SignsStated.

Context {num : Type} {PN : PyNum num} {DT : DriftTypes num}
        {DM : DriftMath num} {PL : PyNumLaws num}.

(** X13.  Given the invariants of the data model and valuation functions
    that return no negative value, the sums are never negative: whatever
    [get_spot_market_asset_value] returns is at least 0, and so is, for a
    liquidation buffer that is absent or not negative, whatever
    [get_spot_market_liability], [get_total_perp_positon] and
    [get_margin_requirement] return. *)
Theorem sums_are_not_negative :
  data_model_invariants ->
  values_nonnegative ->
  (forall mc orders i s v s',
      get_spot_market_asset_value mc orders i s = (Ok v, s') ->
      leb (of_Z 0) v = true) /\
  (forall buffer,
      match buffer with Some b => leb (of_Z 0) b = true | None => True end ->
      (forall i mc orders s v s',
          get_spot_market_liability i mc buffer orders s = (Ok v, s') ->
          leb (of_Z 0) v = true) /\
      (forall mc orders s v s',
          get_total_perp_positon mc buffer orders s = (Ok v, s') ->
          leb (of_Z 0) v = true) /\
      (forall mc s v s',
          get_margin_requirement mc buffer s = (Ok v, s') ->
          leb (of_Z 0) v = true)).
Proof.
  intros Hi Hv. split.
  - intros mc orders i. apply (returns_asset_value_nonneg Hi Hv).
  - intros buffer Hb.
    split; [ intros i mc orders; apply (returns_liability_nonneg Hi Hv), Hb | ].
    split;
      [ intros mc orders; apply (returns_perp_position_nonneg Hi Hv), Hb | ].
    intros mc. unfold get_margin_requirement.
    apply returns_bind with (Q := nonneg);
      [ apply (returns_perp_position_nonneg Hi Hv), Hb | ].
    intros a Ha.
    apply returns_bind with (Q := nonneg);
      [ apply (returns_liability_nonneg Hi Hv), Hb | ].
    intros b Hb'. apply returns_ret, add_nonneg; assumption.
Qed.

End SignsStated.

(** ** Accounts that hold nothing, and free collateral against liquidation *)

Section Accounts.

Context {num : Type} {PN : PyNum num} {DT : DriftTypes num}
        {DM : DriftMath num} {PL : PyNumLaws num}.

Lemma cached_get_user_unchanged (s s' : Sys) (user : User num) :
  use_cache (self s) = true -> get_user s = (Ok user, s') -> s' = s.
Proof.
  intros Hu H.
  pose proof (cached_pure_unchanged get_user s pure_get_user Hu) as E.
  rewrite H in E. exact E.
Qed.

(** A loop whose body returns the accumulator for every element returns
    the initial accumulator. *)
Lemma for_each_all_skipped {A B} (l : list A) (body : B -> A -> M B)
  (acc : B) (s : Sys) :
  Forall (fun x => forall acc, body acc x s = (Ok acc, s)) l ->
  for_each l acc body s = (Ok acc, s).
Proof.
  intros HF. revert acc. induction HF as [ | x l Hx HF IH ]; intros acc; simpl.
  - reflexivity.
  - unfold bind. rewrite Hx. apply IH.
Qed.

(** A loop whose body keeps [s] and an invariant of the accumulator. *)
Lemma for_each_invariant {A B} (P : B -> Prop) (l : list A)
  (body : B -> A -> M B) (s : Sys) :
  Forall (fun x => forall acc, P acc ->
            exists acc', body acc x s = (Ok acc', s) /\ P acc') l ->
  forall acc, P acc ->
    exists acc', for_each l acc body s = (Ok acc', s) /\ P acc'.
Proof.
  intros HF. induction HF as [ | x l Hx HF IH ]; intros acc Hacc; simpl.
  - exists acc. split; [ reflexivity | exact Hacc ].
  - destruct (Hx acc Hacc) as [acc1 [E1 H1]].
    unfold bind. rewrite E1. apply IH, H1.
Qed.

Lemma spot_asset_value_of_nothing mc orders only (s : Sys) (user : User num) :
  get_user s = (Ok user, s) ->
  Forall (fun p => is_spot_position_available p = true)
         (spot_positions user) ->
  get_spot_market_asset_value mc orders only s = (Ok (of_Z 0), s).
Proof.
  intros Hget HF. unfold get_spot_market_asset_value, bind at 1.
  rewrite Hget. apply for_each_all_skipped.
  eapply Forall_impl; [ | exact HF ].
  intros p Hp acc. cbv beta. rewrite Hp. reflexivity.
Qed.

Lemma spot_liability_of_nothing only mc buffer orders (s : Sys)
  (user : User num) :
  get_user s = (Ok user, s) ->
  Forall (fun p => is_spot_position_available p = true)
         (spot_positions user) ->
  get_spot_market_liability only mc buffer orders s = (Ok (of_Z 0), s).
Proof.
  intros Hget HF. unfold get_spot_market_liability, bind at 1.
  rewrite Hget. apply for_each_all_skipped.
  eapply Forall_impl; [ | exact HF ].
  intros p Hp acc. cbv beta. rewrite Hp. reflexivity.
Qed.

Section Nothing.

Variables (s : Sys) (user : User num).

Hypothesis zeros : zero_laws.
Hypothesis quote_precision :
  eqb (mul AMM_TO_QUOTE_PRECISION_RATIO PRICE_PRECISION) (of_Z 0) = false.
Hypothesis margin_precision : eqb MARGIN_PRECISION (of_Z 0) = false.
Hypothesis the_user : get_user s = (Ok user, s).
Hypothesis nothing : holds_nothing user.
Hypothesis readable : perp_markets_readable user s.

(** Every perpetual entry is valued, at 0. *)
Lemma perp_position_of_nothing mc buffer :
  exists v, get_total_perp_positon mc buffer true s = (Ok v, s) /\
            eqb v (of_Z 0) = true.
Proof.
  destruct zeros as [Hz [Hadd [Hmul [Hdiv [Habs _]]]]].
  destruct nothing as [_ HF].
  unfold get_total_perp_positon, bind at 1. rewrite the_user.
  apply (for_each_invariant (fun v => eqb v (of_Z 0) = true));
    [ | exact Hz ].
  apply Forall_forall. intros p Hin acc Hacc.
  destruct (proj1 (Forall_forall _ _) HF p Hin) as [Hbase _].
  destruct (proj1 (Forall_forall _ _) readable p Hin) as [m [o [Hm Ho]]].
  unfold bind at 1. rewrite Hm.
  unfold bind at 1.
  assert (Hlp : (if ltb (of_Z 0) (lp_shares p) then ret tt else ret tt) s
                = (Ok tt, s))
    by (destruct (ltb (of_Z 0) (lp_shares p)); reflexivity).
  rewrite Hlp.
  unfold bind at 1. rewrite Ho. cbv zeta.
  unfold bind at 1, py_div at 1. rewrite quote_precision.
  unfold ret at 1.
  set (base_value :=
         truediv (mul (py_abs (calculate_worst_case_base_asset_amount p))
                      (price o))
                 (mul AMM_TO_QUOTE_PRECISION_RATIO PRICE_PRECISION)).
  assert (Hbv : eqb base_value (of_Z 0) = true)
    by (apply Hdiv, Hmul, Habs, Hbase).
  destruct mc as [ category | ].
  - unfold bind at 1, py_div. rewrite margin_precision.
    eexists. split; [ reflexivity | ].
    apply Hadd; [ exact Hacc | apply Hdiv, Hmul, Hbv ].
  - eexists. split; [ reflexivity | ].
    apply Hadd; [ exact Hacc | exact Hbv ].
Qed.

Lemma margin_requirement_of_nothing mc buffer :
  exists v, get_margin_requirement mc buffer s = (Ok v, s) /\
            eqb v (of_Z 0) = true.
Proof.
  destruct (perp_position_of_nothing mc buffer) as [v [E Hv]].
  unfold get_margin_requirement, bind at 1. rewrite E.
  unfold bind at 1.
  rewrite (spot_liability_of_nothing None mc buffer true s user the_user
             (proj1 nothing)).
  eexists. split; [ reflexivity | ].
  destruct zeros as [Hz [Hadd _]]. apply Hadd; [ exact Hv | exact Hz ].
Qed.

(** Without a margin category every perpetual entry adds its pnl, 0. *)
Lemma unrealized_pnl_of_nothing funding :
  exists v, get_unrealized_pnl funding None None s = (Ok v, s) /\
            eqb v (of_Z 0) = true.
Proof.
  destruct zeros as [Hz [Hadd _]].
  destruct nothing as [_ HF].
  unfold get_unrealized_pnl, bind at 1. rewrite the_user.
  apply (for_each_invariant (fun v => eqb v (of_Z 0) = true));
    [ | exact Hz ].
  apply Forall_forall. intros p Hin acc Hacc.
  destruct (proj1 (Forall_forall _ _) HF p Hin) as [_ Hpnl].
  destruct (proj1 (Forall_forall _ _) readable p Hin) as [m [o [Hm Ho]]].
  cbn [other_market]. unfold bind at 1. rewrite Hm.
  unfold bind at 1. rewrite Ho.
  eexists. split; [ reflexivity | ].
  apply Hadd; [ exact Hacc | apply Hpnl ].
Qed.

Lemma total_collateral_of_nothing :
  exists v, get_total_collateral None s = (Ok v, s) /\
            eqb v (of_Z 0) = true.
Proof.
  destruct (unrealized_pnl_of_nothing true) as [v [E Hv]].
  unfold get_total_collateral, bind at 1.
  rewrite (spot_asset_value_of_nothing None true None s user the_user
             (proj1 nothing)).
  unfold bind at 1. rewrite E.
  eexists. split; [ reflexivity | ].
  destruct zeros as [Hz [Hadd _]]. apply Hadd; [ exact Hz | exact Hv ].
Qed.

(** With a margin category the first perpetual entry, unused as it is,
    reaches the [raise] of [get_unrealized_pnl]. *)
Lemma total_collateral_of_nothing_raises category :
  perp_positions user <> [] ->
  get_total_collateral (Some category) s = (Err NotImplementedError, s).
Proof.
  intros Hne.
  unfold get_total_collateral, bind at 1.
  rewrite (spot_asset_value_of_nothing (Some category) true None s user
             the_user (proj1 nothing)).
  unfold bind at 1, get_unrealized_pnl, bind at 1. rewrite the_user.
  pose proof readable as HR. unfold perp_markets_readable in HR.
  destruct (perp_positions user) as [ | p l ]; [ congruence | ].
  inversion HR as [ | ? ? [m [o [Hm Ho]]] _ ]; subst.
  simpl. unfold bind at 1. unfold bind at 1. rewrite Hm.
  unfold bind at 1. rewrite Ho. reflexivity.
Qed.

End Nothing.

(** X14.  An account that holds nothing, read from the cache: its spot
    entries are all available and its perpetual entries all unused (no base
    amount with the open orders filled, no pnl), the market and the oracle of
    every perpetual entry are cached, and the two precision constants that
    divide are not 0.  Then [get_margin_requirement] returns 0 for every
    margin category and buffer, [get_total_collateral()] returns 0,
    [get_leverage()] returns the number 0 through its guard and not through
    a division, and [can_be_liquidated] returns [False]; but with a margin
    category, as soon as the account has a perpetual entry at all,
    [get_total_collateral] and [get_leverage] raise [NotImplementedError]. *)
Theorem account_that_holds_nothing (s s' : Sys) (user : User num) :
  zero_laws ->
  eqb (mul AMM_TO_QUOTE_PRECISION_RATIO PRICE_PRECISION) (of_Z 0) = false ->
  eqb MARGIN_PRECISION (of_Z 0) = false ->
  use_cache (self s) = true ->
  get_user s = (Ok user, s') ->
  holds_nothing user ->
  perp_markets_readable user s ->
  (forall mc buffer,
      exists v, get_margin_requirement mc buffer s = (Ok v, s) /\
                eqb v (of_Z 0) = true) /\
  (exists v, get_total_collateral None s = (Ok v, s) /\
             eqb v (of_Z 0) = true) /\
  get_leverage None s = (Ok (of_Z 0), s) /\
  (being_liquidated user = false \/
   (exists state, get_state s = (Ok state, s)) ->
   can_be_liquidated s = (Ok false, s)) /\
  (forall category,
      perp_positions user <> [] ->
      get_total_collateral (Some category) s = (Err NotImplementedError, s) /\
      get_leverage (Some category) s = (Err NotImplementedError, s)).
Proof.
  intros Hz Hqp Hmp Hu Hget Hn Hr.
  pose proof (cached_get_user_unchanged s _ _ Hu Hget) as ->.
  pose proof (margin_requirement_of_nothing s user Hz Hqp Hmp Hget Hn Hr)
    as Hm.
  pose proof (total_collateral_of_nothing s user Hz Hget Hn Hr) as Hc.
  repeat match goal with |- _ /\ _ => split end.
  - exact Hm.
  - exact Hc.
  - destruct (Hm None None) as [m [Em _]]. destruct Hc as [c [Ec Hc]].
    unfold get_leverage, bind at 1. rewrite Em.
    unfold bind at 1. rewrite Ec, Hc. reflexivity.
  - intros Hl. destruct Hc as [c [Ec Hc]].
    destruct Hz as [_ [_ [_ [_ [_ Hlt]]]]].
    unfold can_be_liquidated, bind at 1. rewrite Ec.
    unfold bind at 1. rewrite Hget. unfold bind at 1.
    destruct (being_liquidated user) eqn:Eb.
    + destruct Hl as [ Hl | [state Hst] ]; [ discriminate | ].
      unfold bind at 1. rewrite Hst. unfold ret at 1.
      unfold bind at 1.
      destruct (Hm (Some MAINTENANCE)
                   (Some (liquidation_margin_buffer_ratio state)))
        as [m [Em Hm0]].
      rewrite Em. unfold ret. rewrite (Hlt _ _ Hc Hm0). reflexivity.
    + unfold ret at 1. unfold bind at 1.
      destruct (Hm (Some MAINTENANCE) None) as [m [Em Hm0]].
      rewrite Em. unfold ret. rewrite (Hlt _ _ Hc Hm0). reflexivity.
  - intros category Hne.
    pose proof (total_collateral_of_nothing_raises s user Hget Hn Hr
                  category Hne) as Ec.
    split; [ exact Ec | ].
    destruct (Hm (Some category) None) as [m [Em _]].
    unfold get_leverage, bind at 1. rewrite Em.
    unfold bind at 1. rewrite Ec. reflexivity.
Qed.

(** X15.  Free collateral excludes liquidation: in cached mode, for a user
    that is not being liquidated, when [get_free_collateral] returns a
    positive value, [can_be_liquidated] returns [False]; given that the
    floors of [INITIAL] are at least those of [MAINTENANCE], that a
    liquidation buffer of 0 adds nothing, and the invariants of the data
    model. *)
Theorem free_collateral_excludes_liquidation (s s' s'' : Sys)
  (user : User num) (free : num) :
  order_laws ->
  buffer_is_additive ->
  initial_at_least_maintenance ->
  data_model_invariants ->
  use_cache (self s) = true ->
  get_user s = (Ok user, s') ->
  being_liquidated user = false ->
  get_free_collateral s = (Ok free, s'') ->
  ltb (of_Z 0) free = true ->
  can_be_liquidated s = (Ok false, s).
Proof.
  intros [_ [Hsub Hlt]] Hb Hf Hi Hu Hget Hl Hfree Hpos.
  pose proof (cached_get_user_unchanged s _ _ Hu Hget) as ->.
  assert (Hcs : forall mc, snd (get_total_collateral mc s) = s).
  { intros mc. apply cached_pure_unchanged;
      [ apply pure_get_total_collateral | exact Hu ]. }
  assert (Hms : forall mc buffer, snd (get_margin_requirement mc buffer s) = s).
  { intros mc buffer. apply cached_pure_unchanged;
      [ apply pure_get_margin_requirement | exact Hu ]. }
  unfold get_free_collateral, bind in Hfree.
  specialize (Hcs None).
  destruct (get_total_collateral None s) as [[c | e] s1] eqn:Ec;
    [ | discriminate ].
  simpl in Hcs. subst s1.
  pose proof (Hms (Some INITIAL) (Some (of_Z 0))) as Hs1.
  destruct (get_margin_requirement (Some INITIAL) (Some (of_Z 0)) s)
    as [[mi | e] s1] eqn:Ei; [ | discriminate ].
  simpl in Hs1. subst s1.
  unfold ret, py_max in Hfree. injection Hfree as Hv Hs. subst free s''.
  destruct (ltb (of_Z 0) (sub c mi)) eqn:Hd;
    [ | rewrite ltb_irrefl in Hpos; discriminate ].
  apply Hsub in Hd.
  pose proof (margin_requirement_initial_ge_maintenance Hf Hi
                (Some (of_Z 0)) s) as [_ Hrel].
  rewrite Ei in Hrel. simpl in Hrel.
  pose proof (rel_run_eq _ _
                (margin_requirement_zero_buffer (Some MAINTENANCE) Hb s))
    as Hzero.
  pose proof (Hms (Some MAINTENANCE) None) as Hs2.
  destruct (get_margin_requirement (Some MAINTENANCE) (Some (of_Z 0)) s)
    as [[mm | e] s1] eqn:Em; simpl in Hrel; [ | contradiction ].
  rewrite <- Hzero in Hs2. simpl in Hs2. subst s1.
  unfold can_be_liquidated, bind.
  rewrite Ec, Hget, Hl. simpl. rewrite <- Hzero. unfold ret.
  rewrite (Hlt _ _ _ Hrel Hd). reflexivity.
Qed.

End Accounts.

(** ** The further properties on the sample *)

Lemma Q_order_laws : order_laws (num := Q).
Proof.
  split; [ reflexivity | ]. split.
  - intros c m H. apply Q_ltb_iff in H. apply Q_ltb_iff.
    simpl in H. unfold Qminus in H.
    apply (Qplus_lt_l _ _ m) in H. ring_simplify in H. exact H.
  - intros a b c Hab Hbc. apply Q_leb_iff in Hab. apply Q_ltb_iff in Hbc.
    simpl. apply negb_false_iff, Qle_bool_iff.
    eapply Qle_trans; [ exact Hab | apply Qlt_le_weak, Hbc ].
Qed.

Lemma sample_values_nonnegative : values_nonnegative (num := Q).
Proof.
  split; [ | split ].
  - intros market size category. apply Q_leb_iff. simpl.
    destruct category; apply of_N_nonneg.
  - intros amount o m category buffer ratio Ha Hb. apply Q_leb_iff in Ha.
    apply Q_leb_iff. simpl. unfold Sample.spot_liability_value.
    pose proof (sample_token_value_nonneg amount o m Ha) as Hv.
    destruct category as [ category | ]; [ | exact Hv ].
    unfold Qdiv. apply Qmult_le_0_compat; [ | discriminate ].
    apply Qmult_le_0_compat; [ exact Hv | ].
    assert (Hw : (0 <= match category with
                       | INITIAL =>
                           py_max
                             (Sample.of_N (Sample.initial_liability_weight m))
                             ratio
                       | MAINTENANCE =>
                           Sample.of_N (Sample.maintenance_liability_weight m)
                       end)%Q).
    { destruct category; [ | apply of_N_nonneg ].
      eapply Qle_trans; [ apply of_N_nonneg | ].
      apply Q_leb_iff. apply py_max_ge_l. }
    destruct buffer as [ b | ]; [ | exact Hw ].
    apply Q_leb_iff in Hb.
    replace 0%Q with (0 + 0)%Q by reflexivity.
    apply Qplus_le_compat; assumption.
  - intros amount o m category Ha. apply Q_leb_iff in Ha.
    apply Q_leb_iff. simpl. unfold Sample.spot_asset_value.
    pose proof (sample_token_value_nonneg amount o m Ha) as Hv.
    destruct category as [ [ | ] | ]; [ | | exact Hv ];
      unfold Qdiv; apply Qmult_le_0_compat; try discriminate;
      apply Qmult_le_0_compat; try exact Hv; apply of_N_nonneg.
Qed.

Lemma set_cache_fills_the_cache_witness :
  let s := Sample.refreshed Sample.trader in
  cache_is_set (self s) = true /\
  exists c, CACHE (self s) = Some c /\
            option_map (@length _) (cache_spot_markets c) = Some 2%nat /\
            option_map (@length _) (cache_perp_market_oracles c) = Some 1%nat.
Proof.
  intros s.
  destruct (set_cache_fills_the_cache (Sample.fresh_cached Sample.trader)
              s tt eq_refl)
    as [H1 [_ [_ [_ [st [sm [so [pm [po [us [Hc _]]]]]]]]]]].
  split; [ exact H1 | ]. eexists. split; [ exact Hc | ].
  vm_compute in Hc. inversion Hc; subst. split; reflexivity.
Defined.

Lemma cached_market_bounds_witness :
  let s := Sample.refreshed Sample.trader in
  (exists m, get_spot_market 1 s = (Ok m, s)) /\
  get_spot_market 2 s = (Err IndexError, s) /\
  get_perp_market 1 s = (Err IndexError, s).
Proof.
  intros s.
  destruct (cached_market_bounds (Sample.fresh_cached Sample.trader)
              s tt eq_refl eq_refl)
    as [state [user [Hst [_ [Hspot Hperp]]]]].
  vm_compute in Hst. inversion Hst; subst state.
  split; [ exact (Hspot 1%nat) | ].
  split; [ exact (Hspot 2%nat) | exact (Hperp 1%nat) ].
Defined.

Lemma set_cache_round_trip_witness :
  let s := Sample.refreshed Sample.trader in
  get_user s = (Ok Sample.trader, s) /\
  get_state s = (Ok Sample.sample_state, s).
Proof.
  intros s.
  destruct (set_cache_round_trip
              (Sample.ledger_of Sample.trader Sample.sol_price)
              (Sample.fresh_cached Sample.trader) s tt
              (fun _ => eq_refl) eq_refl eq_refl)
    as [[state [Hst [Hget _]]] [user [Hus Huser]]].
  vm_compute in Hus. inversion Hus; subst user.
  vm_compute in Hst. inversion Hst; subst state.
  split; assumption.
Defined.

Lemma cached_spot_market_zero_oracle_witness :
  let s := Sample.refreshed Sample.trader in
  get_spot_oracle_data Sample.usdc s = (Ok OracleOne, s).
Proof.
  intros s.
  apply (cached_spot_market_zero_oracle (Sample.fresh_cached Sample.trader)
           s tt Sample.sample_state Sample.usdc).
  - reflexivity.
  - reflexivity.
  - vm_compute. reflexivity.
  - vm_compute. lia.
  - reflexivity.
Defined.

Lemma failed_set_cache_passes_the_guard_witness :
  let s0 := {| self := self (Sample.refreshed Sample.trader);
               world := Sample.world_without_account |} in
  fst (get_user s0) = Ok Sample.trader /\
  fst (set_cache s0) = Err DataUnavailable /\
  get_user (snd (set_cache s0)) = (Err KeyError, snd (set_cache s0)).
Proof.
  intros s0.
  destruct (failed_set_cache_passes_the_guard s0 (snd (set_cache s0))
              DataUnavailable) as [_ [_ H]].
  - vm_compute. reflexivity.
  - split; [ vm_compute; reflexivity | ].
    split; [ vm_compute; reflexivity | ].
    apply H. vm_compute. reflexivity.
Defined.

Lemma live_mode_ignores_the_cache_witness :
  let s := Sample.live Sample.trader in
  let s' := sys_with_cache true
              (CACHE (self (Sample.refreshed Sample.depositor))) s in
  fst (get_leverage None s') = fst (get_leverage None s) /\
  fst (can_be_liquidated s') = fst (can_be_liquidated s).
Proof.
  intros s s'.
  destruct (live_mode_ignores_the_cache true
              (CACHE (self (Sample.refreshed Sample.depositor))) s eq_refl)
    as [H1 [H2 _]].
  split; [ apply H1 | exact H2 ].
Defined.

Lemma sums_are_not_negative_witness :
  let s := Sample.refreshed Sample.trader in
  exists v, fst (get_margin_requirement (Some INITIAL) (Some 0%Q) s) = Ok v /\
            leb (of_Z 0) v = true.
Proof.
  intros s.
  destruct (sums_are_not_negative sample_data_model_invariants
              sample_values_nonnegative) as [_ H].
  destruct (H (Some 0%Q) eq_refl) as [_ [_ Hm]].
  destruct (get_margin_requirement (Some INITIAL) (Some 0%Q) s)
    as [[v | e] s1] eqn:E; [ | vm_compute in E; discriminate ].
  exists v. split; [ reflexivity | ].
  exact (Hm _ _ _ _ E).
Defined.

Lemma Q_zero_laws : zero_laws (num := Q).
Proof.
  split; [ reflexivity | ].
  split.
  { intros a b Ha Hb. apply Qeq_bool_iff in Ha, Hb. apply Qeq_bool_iff.
    simpl. rewrite Ha, Hb. reflexivity. }
  split.
  { intros a b Ha. apply Qeq_bool_iff in Ha. apply Qeq_bool_iff.
    simpl. rewrite Ha. apply Qmult_0_l. }
  split.
  { intros a p Ha. apply Qeq_bool_iff in Ha. apply Qeq_bool_iff.
    simpl. unfold Qdiv. rewrite Ha. apply Qmult_0_l. }
  split.
  { intros a Ha. apply Qeq_bool_iff in Ha. apply Qeq_bool_iff.
    unfold Qeq in *. simpl in *. rewrite Z.mul_1_r in *.
    rewrite Ha. reflexivity. }
  intros a b Ha Hb. apply Qeq_bool_iff in Ha, Hb.
  simpl. apply negb_false_iff, Qle_bool_iff.
  rewrite Ha, Hb. apply Qle_refl.
Qed.

Lemma unused_perp_is_unused :
  perp_position_unused SampleLookups.unused_perp.
Proof.
  split; [ reflexivity | ].
  intros market oracle funding. apply Qeq_bool_iff.
  simpl. unfold Sample.position_pnl. simpl.
  destruct funding; unfold Qdiv; ring.
Qed.

Lemma unused_account_holds_nothing :
  holds_nothing SampleLookups.unused_account.
Proof.
  split; apply Forall_forall; intros p Hin; apply repeat_spec in Hin;
    subst p; [ reflexivity | apply unused_perp_is_unused ].
Qed.

Lemma account_that_holds_nothing_witness :
  let s := Sample.refreshed SampleLookups.unused_account in
  get_leverage None s = (Ok 0%Q, s) /\
  can_be_liquidated s = (Ok false, s) /\
  get_total_collateral (Some MAINTENANCE) s = (Err NotImplementedError, s) /\
  get_leverage (Some INITIAL) s = (Err NotImplementedError, s).
Proof.
  intros s.
  assert (Hget : get_user s = (Ok SampleLookups.unused_account, s))
    by (vm_compute; reflexivity).
  assert (Hr : perp_markets_readable SampleLookups.unused_account s).
  { apply Forall_forall. intros p Hin. apply repeat_spec in Hin. subst p.
    exists Sample.sol_perp, Sample.sol_price.
    split; vm_compute; reflexivity. }
  assert (Hqp : eqb (mul AMM_TO_QUOTE_PRECISION_RATIO PRICE_PRECISION)
                    (of_Z 0 : Q) = false) by reflexivity.
  assert (Hmp : eqb MARGIN_PRECISION (of_Z 0 : Q) = false) by reflexivity.
  destruct (account_that_holds_nothing s s SampleLookups.unused_account
              Q_zero_laws Hqp Hmp eq_refl Hget
              unused_account_holds_nothing Hr)
    as [_ [_ [H3 [H4 H5]]]].
  split; [ exact H3 | ]. split; [ apply H4; left; reflexivity | ].
  split.
  - apply (H5 MAINTENANCE). vm_compute. discriminate.
  - apply (H5 INITIAL). vm_compute. discriminate.
Defined.

Lemma free_collateral_excludes_liquidation_witness :
  let s := Sample.refreshed Sample.trader in
  (exists free, fst (get_free_collateral s) = Ok free /\
                ltb (of_Z 0) free = true) /\
  can_be_liquidated s = (Ok false, s).
Proof.
  intros s.
  destruct (get_free_collateral s) as [[free | e] s''] eqn:E;
    [ | vm_compute in E; discriminate ].
  assert (Hpos : ltb (of_Z 0) free = true).
  { vm_compute in E. inversion E. vm_compute. reflexivity. }
  split; [ exists free; split; [ reflexivity | exact Hpos ] | ].
  apply (free_collateral_excludes_liquidation s s s'' Sample.trader free
           Q_order_laws sample_buffer_is_additive
           sample_initial_at_least_maintenance sample_data_model_invariants).
  - reflexivity.
  - vm_compute. reflexivity.
  - reflexivity.
  - exact E.
  - exact Hpos.
Defined.

(** The lookups pass over the unused entries that precede a position. *)
Example lookups_skip_unused_entries :
  let s := Sample.refreshed SampleLookups.trader_with_unused in
  fst (get_user_spot_position 1 s) = Ok (Some Sample.sol_borrow) /\
  fst (get_user_spot_position 2 s) = Ok None /\
  fst (get_user_position SampleLookups.perp_position_available 0 s)
  = Ok (Some (Sample.sol_long 0)).
Proof. repeat split; vm_compute; reflexivity. Qed.
